(** * Tile reconstruction engines of [streetlevel]

    A shallow embedding of the tile-list generation, tile download and
    stitching code of [streetlevel/streetside/streetside.py] (quadtree
    cubemap engine) and [streetlevel/streetview/streetview.py] (grid
    equirectangular engine), followed by the properties stated about them.

    Python integers are [Z]; strings are [string]; byte buffers are
    [list Byte.byte]; a raised exception is the [Err] case of [result]. *)

From Stdlib Require Import ZArith List String Ascii Bool Lia DecimalString.
From Stdlib Require Import DecimalPos DecimalZ.
Import ListNotations.

Open Scope string_scope.
Open Scope Z_scope.

(** ** Exceptions and the error monad *)

Inductive exception : Type :=
| ValueError (msg : string)
| TypeError
| IndexError
| KeyError
| AttributeError
| ZeroDivisionError
| OverflowError
| RecursionError
| UnidentifiedImageError
| ExternalError (what : string).

Inductive result (A : Type) : Type :=
| Ok (a : A)
| Err (e : exception).
Arguments Ok {A} a.
Arguments Err {A} e.

Definition bind {A B : Type} (r : result A) (k : A -> result B) : result B :=
  match r with
  | Ok a => k a
  | Err e => Err e
  end.

Notation "x <- c ;; k" := (bind c (fun x => k))
  (at level 61, c at next level, right associativity).

Fixpoint mapM {A B : Type} (f : A -> result B) (l : list A) : result (list B) :=
  match l with
  | [] => Ok []
  | a :: l' => b <- f a ;; bs <- mapM f l' ;; Ok (b :: bs)
  end.

(** Code that talks to the network threads a world state: a computation
    takes the world and returns a result with the world it leaves. *)
Definition M (W A : Type) : Type := W -> result A * W.

Definition ret {W A : Type} (a : A) : M W A := fun w => (Ok a, w).

Definition lift {W A : Type} (r : result A) : M W A := fun w => (r, w).

Definition bindM {W A B : Type} (c : M W A) (k : A -> M W B) : M W B :=
  fun w =>
    match c w with
    | (Ok a, w') => k a w'
    | (Err e, w') => (Err e, w')
    end.

Notation "x <~ c ;; k" := (bindM c (fun x => k))
  (at level 61, c at next level, right associativity).

(** ** Python floats, as far as the engines meet them *)

(** A finite double is a whole number of units of 2^-1074 (the smallest
    subnormal) with at most 53 significant bits, below 2^1024 in
    magnitude; it is kept here as that number of units. *)
Module Float.

Definition t : Type := Z.

(** The integer nearest to [n / d], the even one of the two when [n / d]
    lies half way. *)
Definition round_half_even (n d : Z) : Z :=
  let q := n / d in
  let r := n mod d in
  if 2 * r <? d then q
  else if d <? 2 * r then q + 1
  else if Z.even q then q else q + 1.

(** The double nearest to [n / d] for [0 <= n] and [0 < d], in units:
    the quotient is rounded to 53 significant bits, and no finer than one
    unit. The result may be 2^1024 (2^2098 units), which is no double. *)
Definition nearest (n d : Z) : Z :=
  let N := n * 2 ^ 1074 in
  let s := Z.max (Z.log2 (N / d) - 52) 0 in
  round_half_even N (d * 2 ^ s) * 2 ^ s.

(** The rounded quotient with its sign, or [OverflowError] when it is out
    of the range of a double. *)
Definition quotient (a b : Z) : result t :=
  let u := nearest (Z.abs a) (Z.abs b) in
  if 2 ^ 2098 <=? u then Err OverflowError
  else Ok (Z.sgn a * Z.sgn b * u).

(** [float(n)] for an int [n], correctly rounded: [OverflowError]
    ("int too large to convert to float") from 2^1024 - 2^970 on. *)
Definition of_int (n : Z) : result t := quotient n 1.

(** [a / b] on ints, Python's true division: the double nearest to the
    exact quotient; [ZeroDivisionError] for [b = 0], [OverflowError]
    ("integer division result too large for a float") out of range. *)
Definition truediv (a b : Z) : result t :=
  if b =? 0 then Err ZeroDivisionError else quotient a b.

(** [math.ceil(x)]: the least int not below [x], exactly. *)
Definition ceil (x : t) : Z := - ((- x) / 2 ^ 1074).

End Float.

(** ** Python primitives used by both engines *)

Module Py.

Definition len {A : Type} (l : list A) : Z := Z.of_nat (List.length l).

(** [range(0, n)] for an integer [n]: empty when [n <= 0]. *)
Definition range (n : Z) : list Z := map Z.of_nat (seq 0 (Z.to_nat n)).

(** A Python number as [pow] returns it: an [int], or a [float], whose
    value the engines never look at. *)
Inductive number : Type :=
| Int (z : Z)
| Float.

(** [pow(b, e)] on ints: an [int] for [e >= 0]. For a negative [e] both
    operands are converted to floats first, which is an [OverflowError]
    for an int out of the range of a double; a zero base is then a
    [ZeroDivisionError], and any other base gives a float of magnitude at
    most 1. *)
Definition pow (b e : Z) : result number :=
  if e <? 0 then
    x <- Float.of_int b ;;
    y <- Float.of_int e ;;
    if b =? 0 then Err ZeroDivisionError else Ok Float
  else Ok (Int (b ^ e)).

(** [range(0, n)] on a number: a float is rejected with [TypeError]. *)
Definition range_of (n : number) : result (list Z) :=
  match n with
  | Int z => Ok (range z)
  | Float => Err TypeError
  end.

(** [c * n] for a one-character string [c]. *)
Fixpoint replicate (n : nat) (c : ascii) : string :=
  match n with
  | O => EmptyString
  | S n' => String c (replicate n' c)
  end.

(** [s.rjust(width, c)]: [s] itself when it is already [width] long. *)
Definition rjust (s : string) (width : Z) (c : ascii) : string :=
  if width <=? Z.of_nat (String.length s) then s
  else replicate (Z.to_nat width - String.length s) c ++ s.

(** [str(n)], which is also what [format] writes for an integer field. *)
Definition str (n : Z) : string := NilZero.string_of_int (Z.to_int n).

(** [l[i]] with Python's negative indices. *)
Definition index {A : Type} (l : list A) (i : Z) : result A :=
  let j := if i <? 0 then i + len l else i in
  if j <? 0 then Err IndexError
  else match nth_error l (Z.to_nat j) with
       | Some a => Ok a
       | None => Err IndexError
       end.

(** [math.ceil(a / b)] on ints: the ceiling of the double that the true
    division gives. *)
Definition ceil_div (a b : Z) : result Z :=
  x <- Float.truediv a b ;; Ok (Float.ceil x).

(** [range(0, stop, step)] for a length [stop]: a zero step is a
    [ValueError], a negative step leaves nothing between 0 and [stop], a
    positive step gives [0, step, 2 * step, ...] below [stop]. *)
Definition range_step (stop step : Z) : result (list Z) :=
  if step =? 0 then Err (ValueError "range() arg 3 must not be zero")
  else if step <? 0 then Ok []
  else Ok (map (fun k => k * step) (range ((stop + step - 1) / step))).

(** [l[i:j]] for bounds [0 <= i <= j]; the slice stops at the end of [l]. *)
Definition slice {A : Type} (l : list A) (i j : Z) : list A :=
  firstn (Z.to_nat (j - i)) (skipn (Z.to_nat i) l).

(** [int(math.sqrt(n))] for a list length [n]: the integer square root
    (the float square root is exact on a perfect square of that size). *)
Definition isqrt (n : Z) : Z := Z.sqrt n.

End Py.

(** ** Images (PIL), as the history of the operations that made them *)

Module PIL.

Definition bytes : Type := list Byte.byte.

Inductive Image : Type :=
| New (width height : Z)                       (* Image.new('RGB', (w, h)) *)
| Opened (data : bytes)                        (* Image.open(BytesIO(data)) *)
| Pasted (canvas im : Image) (box : Z * Z).    (* canvas.paste(im, box) *)

Definition paste (canvas im : Image) (box : Z * Z) : Image :=
  Pasted canvas im box.

(** The size of a canvas; a decoded image has the size its data says. *)
Fixpoint size (data_size : bytes -> Z * Z) (i : Image) : Z * Z :=
  match i with
  | New w h => (w, h)
  | Opened d => data_size d
  | Pasted c _ _ => size data_size c
  end.

(** The pastes made on a canvas, oldest first. *)
Fixpoint pastes (i : Image) : list (Image * (Z * Z)) :=
  match i with
  | New _ _ => []
  | Opened _ => []
  | Pasted c im box => (pastes c ++ [(im, box)])%list
  end.

End PIL.

(** ** Base-4 strings ([streetside/util.py]) *)

Module Base4.

Definition digit (d : Z) : string :=
  if d =? 0 then "0" else if d =? 1 then "1" else if d =? 2 then "2" else "3".

Fixpoint of_pos (p : positive) : string :=
  match p with
  | xH => "1"
  | xO xH => "2"
  | xI xH => "3"
  | xO (xO q) => of_pos q ++ "0"
  | xI (xO q) => of_pos q ++ "1"
  | xO (xI q) => of_pos q ++ "2"
  | xI (xI q) => of_pos q ++ "3"
  end.

(** Modelled from the spec: [to_base4] of [streetside/util.py], which is
    not among the sources. The spec says "encode the id in base 4": the
    digits of [n], most significant first, without leading zeros. *)
Definition to_base4 (n : Z) : string :=
  match n with
  | Z0 => "0"
  | Zpos p => of_pos p
  | Zneg p => "-" ++ of_pos p
  end.

Definition digit_value (c : ascii) : option Z :=
  if Ascii.eqb c "0" then Some 0
  else if Ascii.eqb c "1" then Some 1
  else if Ascii.eqb c "2" then Some 2
  else if Ascii.eqb c "3" then Some 3
  else None.

Fixpoint decode_from (acc : Z) (s : string) : option Z :=
  match s with
  | EmptyString => Some acc
  | String c s' =>
      match digit_value c with
      | Some d => decode_from (4 * acc + d) s'
      | None => None
      end
  end.

(** Modelled from the spec: the decoding "back to base 10" of a base-4
    digit string ([from_base4], not among the sources). [None] when a
    character is not a base-4 digit. *)
Definition from_base4 (s : string) : option Z := decode_from 0 s.

(** The [w]-digit positional base-4 numeral of [n]: digit [j] from the
    right is [(n / 4^j) mod 4]. *)
Fixpoint fixed (w : nat) (n : Z) : string :=
  match w with
  | O => ""
  | S w' => fixed w' (n / 4) ++ digit (n mod 4)
  end.

End Base4.

(** ** Quadtree cubemap engine ([streetside/streetside.py]) *)

Module Streetside.

Import Py Base4 PIL.

Definition TILE_SIZE : Z := 256.

(** A tile dictionary: keys ["face"], ["subdiv"], ["url"] and, once
    downloaded, ["image"]. *)
Record tile : Type := mk_tile {
  face : string;
  subdiv : Z;
  url : string;
  image : option bytes
}.

(** The [faces] dictionary, in insertion order. *)
Definition faces_dict : Type := list (Z * list tile).

Definition tile_url (panoid_base4 tile_key : string) : string :=
  "https://t.ssl.ak.tiles.virtualearth.net/tiles/hs" ++ panoid_base4
    ++ tile_key ++ ".jpg?" ++ "g=13716".

Definition _generate_tile_list (panoid zoom : Z) : result faces_dict :=
  if zoom >? 4 then Err (ValueError "Zoom can't be greater than 4")
  else
    let panoid_base4 := rjust (to_base4 panoid) 16 "0" in
    subdivs <- pow 4 zoom ;;
    mapM (fun face_id =>
            let face_id_base4 := rjust (to_base4 (face_id + 1)) 2 "0" in
            r <- range_of subdivs ;;
            let face_tiles :=
              map (fun subdiv =>
                     let subdiv_base4 :=
                       if zoom <? 1 then ""
                       else rjust (to_base4 subdiv) zoom "0" in
                     let tile_key := face_id_base4 ++ subdiv_base4 in
                     mk_tile face_id_base4 subdiv
                             (tile_url panoid_base4 tile_key) None) r in
            Ok (face_id, face_tiles))
         (range 6).

Definition set_image (t : tile) (data : bytes) : tile :=
  mk_tile (face t) (subdiv t) (url t) (Some data).

(** [tile["image"]]: a [KeyError] on a tile that was not downloaded. *)
Definition get_image (t : tile) : result bytes :=
  match image t with
  | Some data => Ok data
  | None => Err KeyError
  end.

(** [faces[k]] on the dictionary. *)
Fixpoint dict_get (faces : faces_dict) (k : Z) : result (list tile) :=
  match faces with
  | [] => Err KeyError
  | (k', v) :: rest => if k' =? k then Ok v else dict_get rest k
  end.

(** [for idx, tile in enumerate(face): tile["image"] = tiles[idx]],
    from index [idx] on. *)
Fixpoint attach (face : list tile) (idx : Z) (tiles : list bytes)
  : result (list tile) :=
  match face with
  | [] => Ok []
  | t :: rest =>
      data <- index tiles idx ;;
      rest' <- attach rest (idx + 1) tiles ;;
      Ok (set_image t data :: rest')
  end.

Definition _split_list {A : Type} (list_ : list A) (size : Z)
  : result (list (list A)) :=
  r <- range_step (len list_) size ;;
  Ok (map (fun i => slice list_ i (i + size)) r).

Section Engine.

(** The collaborators: the network with the batch download, the image
    decoder, and the composition of the six faces. *)
Variable World : Type.
Variable download_files_async : list string -> M World (list bytes).
Variable decodable : bytes -> bool.
Variable CubemapStitchingMethod : Type.
Variable Output : Type.
Variable stitch_cubemap_faces :
  list Image -> Z -> CubemapStitchingMethod -> result Output.

Definition Image_open (data : bytes) : result Image :=
  if decodable data then Ok (Opened data) else Err UnidentifiedImageError.

Fixpoint _download_tiles (faces : faces_dict) : M World faces_dict :=
  match faces with
  | [] => ret []
  | (face_id, face) :: rest =>
      tiles <~ download_files_async (map url face) ;;
      face' <~ lift (attach face 0 tiles) ;;
      rest' <~ _download_tiles rest ;;
      ret ((face_id, face') :: rest')
  end.

(** The loop of [_stitch_four] over [enumerate(face[0:4])]. *)
Fixpoint stitch_four_loop (sub_tile : Image) (idx : Z) (l : list tile)
  : result Image :=
  match l with
  | [] => Ok sub_tile
  | t :: rest =>
      data <- get_image t ;;
      tile_img <- Image_open data ;;
      let x := idx mod 2 in
      let y := idx / 2 in
      stitch_four_loop
        (paste sub_tile tile_img (x * TILE_SIZE, y * TILE_SIZE))
        (idx + 1) rest
  end.

Definition _stitch_four (face : list tile) : result Image :=
  let sub_tile := New (TILE_SIZE * 2) (TILE_SIZE * 2) in
  stitch_four_loop sub_tile 0 (firstn 4 face).

(** [_stitch_face] with [frames] stack frames left for its own
    activations: with none left the call is a [RecursionError]. *)
Fixpoint _stitch_face_at (frames : nat) (face : list tile) : result Image :=
  match frames with
  | O => Err RecursionError
  | S frames' =>
      if len face <=? 4 then _stitch_four face
      else
        let grid_size := isqrt (len face) in
        let stitched_tile_size := (grid_size / 2) * TILE_SIZE in
        let tile0 := New (stitched_tile_size * 2) (stitched_tile_size * 2) in
        split <- _split_list face (len face / 4) ;;
        s0 <- index split 0 ;;
        q0 <- _stitch_face_at frames' s0 ;;
        let tile1 := paste tile0 q0 (0, 0) in
        s1 <- index split 1 ;;
        q1 <- _stitch_face_at frames' s1 ;;
        let tile2 := paste tile1 q1 (stitched_tile_size, 0) in
        s2 <- index split 2 ;;
        q2 <- _stitch_face_at frames' s2 ;;
        let tile3 := paste tile2 q2 (0, stitched_tile_size) in
        s3 <- index split 3 ;;
        q3 <- _stitch_face_at frames' s3 ;;
        Ok (paste tile3 q3 (stitched_tile_size, stitched_tile_size))
  end.

(** The stack is deep enough for every face: a face of [n] tiles never
    needs more than [n + 1] activations (lemma [stitch_face_frames]). *)
Definition _stitch_face (face : list tile) : result Image :=
  _stitch_face_at (S (List.length face)) face.

Definition _stitch_panorama (faces : faces_dict)
           (stitching_method : CubemapStitchingMethod) : result Output :=
  f1 <- dict_get faces 1 ;;
  let full_tile_size := isqrt (len f1) * TILE_SIZE in
  f1' <- dict_get faces 1 ;;
  stitched_faces <-
    (if len f1' =? 1 then
       mapM (fun i =>
               f <- dict_get faces i ;;
               t <- index f 0 ;;
               data <- get_image t ;;
               Image_open data) (range 6)
     else
       mapM (fun i => f <- dict_get faces i ;; _stitch_face f) (range 6)) ;;
  stitch_cubemap_faces stitched_faces full_tile_size stitching_method.

(** Modelled from the spec: [StreetsidePanorama] of
    [streetside/panorama.py], which is not among the sources: the numeric
    id and the highest zoom level of the panorama. *)
Record StreetsidePanorama : Type := mk_StreetsidePanorama {
  id : Z;
  max_zoom : Z
}.

Definition clamp_zoom (zoom max_zoom : Z) : Z :=
  Z.max 0 (Z.min zoom max_zoom).

(** The tile list [get_panorama] hands to [_download_tiles]. *)
Definition get_panorama_tile_list (pano : StreetsidePanorama) (zoom : Z)
  : result faces_dict :=
  let zoom := clamp_zoom zoom (max_zoom pano) in
  _generate_tile_list (id pano) zoom.

Definition get_panorama (pano : StreetsidePanorama) (zoom : Z)
           (stitching_method : CubemapStitchingMethod) : M World Output :=
  let zoom := Z.max 0 (Z.min zoom (max_zoom pano)) in
  faces <~ lift (_generate_tile_list (id pano) zoom) ;;
  faces <~ _download_tiles faces ;;
  lift (_stitch_panorama faces stitching_method).

End Engine.

Arguments _download_tiles {World}.
Arguments _stitch_panorama decodable {CubemapStitchingMethod Output}.
Arguments get_panorama {World} download_files_async decodable
  {CubemapStitchingMethod Output}.

End Streetside.

(** ** Grid equirectangular engine ([streetview/streetview.py]) *)

Module Size.
(** Modelled from the spec: [Size] of [dataclasses.py], which is not among
    the sources: pixel dimensions, read in the source as [.x] and [.y]. *)
Record t : Type := mk { x : Z; y : Z }.
End Size.

Module Tile.
(** Modelled from the spec: [Tile] of [dataclasses.py], which is not among
    the sources: an (x, y) integer pair and the resolved URL, built in the
    source as [Tile(x, y, url)]. *)
Record t : Type := mk { x : Z; y : Z; url : string }.
End Tile.

Module Streetview.

Import Py PIL.

(** A format string: literal text and replacement fields [{i:}]. *)
Inductive piece : Type :=
| Lit (s : string)
| Field (i : nat).

Definition IMAGE_URL : list piece :=
  [Lit "https://cbk0.google.com/cbk?output=tile&panoid="; Field 0;
   Lit "&zoom="; Field 3; Lit "&x="; Field 1; Lit "&y="; Field 2].

Definition THIRD_PARTY_IMAGE_URL : list piece :=
  [Lit "https://lh3.ggpht.com/p/"; Field 0; Lit "=x"; Field 1;
   Lit "-y"; Field 2; Lit "-z"; Field 3].

(** [template.format( *args )]; a field without an argument is an
    [IndexError]. *)
Fixpoint format (template : list piece) (args : list string) : result string :=
  match template with
  | [] => Ok ""
  | Lit s :: rest => r <- format rest args ;; Ok (s ++ r)
  | Field i :: rest =>
      match nth_error args i with
      | Some a => r <- format rest args ;; Ok (a ++ r)
      | None => Err IndexError
      end
  end.

(** [itertools.product(xs, ys)]: the last component varies fastest. *)
Definition product {A B : Type} (xs : list A) (ys : list B) : list (A * B) :=
  flat_map (fun x => map (fun y => (x, y)) ys) xs.

Section Engine.

(** The part of a panorama record that the tile code never reads
    (position, dates, links, ...). *)
Variable Meta : Type.

(** Modelled from the spec: [StreetViewPanorama] of
    [streetview/panorama.py], which is not among the sources: the string
    id, the per-zoom image sizes and the tile size, the last two absent
    ([None]) on a panorama that only comes from a coverage tile. *)
Record StreetViewPanorama : Type := mk_StreetViewPanorama {
  id : string;
  image_sizes : option (list Size.t);
  tile_size : option Size.t;
  metadata : Meta
}.

(** The collaborators: the third-party-id predicate of
    [streetview/util.py] and the fetch-and-compose routine of
    [util.py]. *)
Variable is_third_party_panoid : string -> bool.
Variable World : Type.
Variable get_equirectangular_panorama :
  Z -> Z -> option Size.t -> list Tile.t -> M World Image.

(** [pano.image_sizes[zoom]]: [None] is not subscriptable. *)
Definition image_size_at (pano : StreetViewPanorama) (zoom : Z)
  : result Size.t :=
  match image_sizes pano with
  | None => Err TypeError
  | Some sizes => index sizes zoom
  end.

(** [pano.tile_size.x]: [None] has no attribute [x]. *)
Definition tile_size_of (pano : StreetViewPanorama) : result Size.t :=
  match tile_size pano with
  | None => Err AttributeError
  | Some ts => Ok ts
  end.

Definition _validate_get_panorama_params (pano : StreetViewPanorama)
           (zoom : Z) : result Z :=
  match image_sizes pano with
  | None => Err (ValueError "pano.image_sizes is None.")
  | Some [] => Err (ValueError "pano.image_sizes is None.")
  | Some sizes => Ok (Z.max 0 (Z.min zoom (len sizes - 1)))
  end.

Definition _generate_tile_list (pano : StreetViewPanorama) (zoom : Z)
  : result (list Tile.t) :=
  img_size <- image_size_at pano zoom ;;
  ts <- tile_size_of pano ;;
  let tile_width := Size.x ts in
  let tile_height := Size.y ts in
  cols <- ceil_div (Size.x img_size) tile_width ;;
  rows <- ceil_div (Size.y img_size) tile_height ;;
  let url_to_use :=
    if is_third_party_panoid (id pano) then THIRD_PARTY_IMAGE_URL
    else IMAGE_URL in
  let coords := product (range cols) (range rows) in
  mapM (fun xy : Z * Z =>
          let (x, y) := xy in
          u <- format url_to_use [id pano; str x; str y; str zoom] ;;
          Ok (Tile.mk x y u))
       coords.

Definition get_panorama (pano : StreetViewPanorama) (zoom : Z)
  : M World Image :=
  zoom <~ lift (_validate_get_panorama_params pano zoom) ;;
  sx <~ lift (image_size_at pano zoom) ;;
  sy <~ lift (image_size_at pano zoom) ;;
  tiles <~ lift (_generate_tile_list pano zoom) ;;
  get_equirectangular_panorama (Size.x sx) (Size.y sy) (tile_size pano) tiles.

End Engine.

Arguments mk_StreetViewPanorama {Meta}.
Arguments id {Meta}.
Arguments image_sizes {Meta}.
Arguments tile_size {Meta}.
Arguments metadata {Meta}.
Arguments image_size_at {Meta}.
Arguments tile_size_of {Meta}.
Arguments _validate_get_panorama_params {Meta}.
Arguments _generate_tile_list {Meta}.
Arguments get_panorama {Meta} is_third_party_panoid {World}.

End Streetview.

(** ** Fetch and compose of the grid engine ([util.py]) *)

Module Util.

Import Py PIL.

Section Collaborators.

Variable World : Type.
Variable download_files_async : list string -> M World (list bytes).
Variable decodable : bytes -> bool.

Definition Image_open (data : bytes) : result Image :=
  if decodable data then Ok (Opened data) else Err UnidentifiedImageError.

(** Modelled from the spec: the bytes of each tile, taken from the batch
    by position ("results are reassembled in the original request
    order"); a missing result is an [IndexError]. *)
Fixpoint tile_images (tiles : list Tile.t) (idx : Z) (images : list bytes)
  : result (list (Tile.t * bytes)) :=
  match tiles with
  | [] => Ok []
  | t :: rest =>
      data <- index images idx ;;
      rest' <- tile_images rest (idx + 1) images ;;
      Ok ((t, data) :: rest')
  end.

(** Modelled from the spec: "composition pastes each decoded tile image at
    pixel offset (x * tile_width, y * tile_height)". *)
Fixpoint stitch_equirectangular_tiles (canvas : Image)
         (tile_width tile_height : Z) (l : list (Tile.t * bytes))
  : result Image :=
  match l with
  | [] => Ok canvas
  | (t, data) :: rest =>
      im <- Image_open data ;;
      stitch_equirectangular_tiles
        (paste canvas im (Tile.x t * tile_width, Tile.y t * tile_height))
        tile_width tile_height rest
  end.

(** Modelled from the spec: [get_equirectangular_panorama] of [util.py],
    which is not among the sources. The spec says: all tiles are fetched in
    one batch, the results are taken in request order by position, and
    each decoded tile is pasted at pixel offset
    (x * tile_width, y * tile_height) into a canvas of the declared
    (width, height); a failed fetch, or a batch with fewer results than
    URLs, aborts the reconstruction. *)
Definition get_equirectangular_panorama (width height : Z)
           (tile_size : option Size.t) (tiles : list Tile.t) : M World Image :=
  images <~ download_files_async (map Tile.url tiles) ;;
  lift (fetched <- tile_images tiles 0 images ;;
        ts <- match tile_size with
              | Some ts => Ok ts
              | None => Err AttributeError
              end ;;
        stitch_equirectangular_tiles (New width height)
          (Size.x ts) (Size.y ts) fetched).

End Collaborators.

Arguments get_equirectangular_panorama {World}.

End Util.

(** ** The capture date of a Streetside panorama ([streetside.py]) *)

Module Metadata.

Import Py.

(** [s.split(sep)] for a one-character separator: never the empty list. *)
Fixpoint split (sep : ascii) (s : string) : list string :=
  match s with
  | EmptyString => [""]
  | String c s' =>
      if Ascii.eqb c sep then "" :: split sep s'
      else match split sep s' with
           | h :: t => String c h :: t
           | [] => [String c ""]
           end
  end.

(** [sep.join(parts)]. *)
Fixpoint join (sep : string) (parts : list string) : string :=
  match parts with
  | [] => ""
  | p :: rest =>
      match rest with
      | [] => p
      | _ :: _ => p ++ sep ++ join sep rest
      end
  end.

(** [l[i] = v] for an index [i >= 0]: out of range is an [IndexError]. *)
Fixpoint set_item {A : Type} (l : list A) (i : nat) (v : A) : result (list A) :=
  match l, i with
  | [], _ => Err IndexError
  | _ :: rest, O => Ok (v :: rest)
  | a :: rest, S i' => rest' <- set_item rest i' v ;; Ok (a :: rest')
  end.

(** The date string that [_parse_pano] hands to [strptime], from the
    value of [pano["cd"]]: month and day are padded to two digits, because
    dates come without leading zeros. *)
Definition date_string (cd : string) : result string :=
  let datestr := split "/" cd in
  d0 <- index datestr 0 ;;
  datestr <- set_item datestr 0 (rjust d0 2 "0") ;;
  d1 <- index datestr 1 ;;
  datestr <- set_item datestr 1 (rjust d1 2 "0") ;;
  Ok (join "/" datestr).

End Metadata.

(** ** Tile lists as Python objects *)

(** The tile lists above are values. In Python they are objects: lists
    and dictionaries that are created, appended to and later written to
    (the download stores the image in each tile dictionary), in a store
    that every earlier call has left its objects in. The store is a list
    of objects, a reference is a position in it, and a new object goes to
    the end. *)
Module Heap.

Inductive object : Type :=
| Dict (items : list (Z * nat))
| List (items : list nat)
| TileDict (t : Streetside.tile)
| TileObj (t : Tile.t).

Definition heap : Type := list object.

(** A new object; the reference to it is returned. *)
Definition new (o : object) : M heap nat :=
  fun h => (Ok (List.length h), (h ++ [o])%list).

Fixpoint update (h : heap) (a : nat) (o : object) : heap :=
  match h, a with
  | [], _ => []
  | _ :: h', O => o :: h'
  | x :: h', S a' => x :: update h' a' o
  end.

(** [l.append(x)] on the list at reference [l]. *)
Definition append (l x : nat) : M heap unit :=
  fun h =>
    match nth_error h l with
    | Some (List items) => (Ok tt, update h l (List (items ++ [x])))
    | _ => (Err AttributeError, h)
    end.

(** [d[k] = v] on a dictionary: a key that is present keeps its place, a
    new key goes to the end. *)
Fixpoint dict_set (items : list (Z * nat)) (k : Z) (v : nat)
  : list (Z * nat) :=
  match items with
  | [] => [(k, v)]
  | (k', v') :: rest =>
      if k' =? k then (k, v) :: rest else (k', v') :: dict_set rest k v
  end.

Definition setitem (d : nat) (k : Z) (v : nat) : M heap unit :=
  fun h =>
    match nth_error h d with
    | Some (Dict items) => (Ok tt, update h d (Dict (dict_set items k v)))
    | _ => (Err TypeError, h)
    end.

(** [for x in l: body]. *)
Fixpoint for_each {A : Type} (l : list A) (body : A -> M heap unit)
  : M heap unit :=
  match l with
  | [] => ret tt
  | a :: l' => u <~ body a ;; for_each l' body
  end.

(** What a reference holds, read through the store. *)
Fixpoint read_all {A : Type} (read : nat -> option A) (refs : list nat)
  : option (list A) :=
  match refs with
  | [] => Some []
  | r :: refs' =>
      match read r, read_all read refs' with
      | Some a, Some l => Some (a :: l)
      | _, _ => None
      end
  end.

Definition read_tile_dict (h : heap) (r : nat) : option Streetside.tile :=
  match nth_error h r with
  | Some (TileDict t) => Some t
  | _ => None
  end.

Definition read_tile (h : heap) (r : nat) : option Tile.t :=
  match nth_error h r with
  | Some (TileObj t) => Some t
  | _ => None
  end.

Definition read_list {A : Type} (read : heap -> nat -> option A)
           (h : heap) (r : nat) : option (list A) :=
  match nth_error h r with
  | Some (List items) => read_all (read h) items
  | _ => None
  end.

Fixpoint read_items (h : heap) (items : list (Z * nat))
  : option Streetside.faces_dict :=
  match items with
  | [] => Some []
  | (k, r) :: rest =>
      match read_list read_tile_dict h r, read_items h rest with
      | Some face, Some l => Some ((k, face) :: l)
      | _, _ => None
      end
  end.

Definition read_faces (h : heap) (r : nat) : option Streetside.faces_dict :=
  match nth_error h r with
  | Some (Dict items) => read_items h items
  | _ => None
  end.

End Heap.

(** [streetside._generate_tile_list] with its objects: the dictionary
    [faces], a list per face, a dictionary per tile. *)
Module StreetsideHeap.

Import Heap.

Definition _generate_tile_list (panoid zoom : Z) : M heap nat :=
  if zoom >? 4 then lift (Err (ValueError "Zoom can't be greater than 4"))
  else
    let panoid_base4 := Py.rjust (Base4.to_base4 panoid) 16 "0" in
    subdivs <~ lift (Py.pow 4 zoom) ;;
    faces <~ new (Dict []) ;;
    u <~ for_each (Py.range 6) (fun face_id =>
      let face_id_base4 := Py.rjust (Base4.to_base4 (face_id + 1)) 2 "0" in
      face_tiles <~ new (List []) ;;
      r <~ lift (Py.range_of subdivs) ;;
      u <~ for_each r (fun subdiv =>
        let subdiv_base4 :=
          if zoom <? 1 then ""
          else Py.rjust (Base4.to_base4 subdiv) zoom "0" in
        let tile_key := face_id_base4 ++ subdiv_base4 in
        t <~ new (TileDict
                    (Streetside.mk_tile face_id_base4 subdiv
                       (Streetside.tile_url panoid_base4 tile_key) None)) ;;
        append face_tiles t) ;;
      setitem faces face_id face_tiles) ;;
    ret faces.

End StreetsideHeap.

Module StreetviewHeap.

Import Heap.

Section Engine.

Variable Meta : Type.
Variable is_third_party_panoid : string -> bool.

(** [streetview._generate_tile_list] with its objects: the list [tiles]
    of the comprehension and a [Tile] per coordinate pair. The panorama
    is only read, and the pairs of [coords] are immutable. *)
Definition _generate_tile_list
           (pano : Streetview.StreetViewPanorama Meta) (zoom : Z)
  : M heap nat :=
  img_size <~ lift (Streetview.image_size_at pano zoom) ;;
  ts <~ lift (Streetview.tile_size_of pano) ;;
  let tile_width := Size.x ts in
  let tile_height := Size.y ts in
  cols <~ lift (Py.ceil_div (Size.x img_size) tile_width) ;;
  rows <~ lift (Py.ceil_div (Size.y img_size) tile_height) ;;
  let url_to_use :=
    if is_third_party_panoid (Streetview.id pano)
    then Streetview.THIRD_PARTY_IMAGE_URL
    else Streetview.IMAGE_URL in
  let coords := Streetview.product (Py.range cols) (Py.range rows) in
  tiles <~ new (List []) ;;
  u <~ for_each coords (fun xy : Z * Z =>
    let (x, y) := xy in
    url <~ lift (Streetview.format url_to_use
                   [Streetview.id pano; Py.str x; Py.str y; Py.str zoom]) ;;
    t <~ new (TileObj (Tile.mk x y url)) ;;
    append tiles t) ;;
  ret tiles.

End Engine.

End StreetviewHeap.

(** * Vocabulary of the properties *)

(** [s] is the [w]-digit base-4 numeral of [n]: [w] characters, all of them
    base-4 digits, with value [n]. *)
Definition numeral_of (s : string) (w : nat) (n : Z) : Prop :=
  String.length s = w /\ Base4.from_base4 s = Some n.

(** The error the cubemap engine raises for a zoom it rejects. *)
Definition InvalidZoom {A : Type} (r : result A) : Prop :=
  r = Err (ValueError "Zoom can't be greater than 4").

(** The tile list of the cubemap engine as the specification words it:
    six faces with ids 1..6, [4^zoom] tiles each, in ascending order of
    subdivision, the URL built from the three base-4 numerals. *)
Definition cubemap_tiles (panoid zoom : Z) : Streetside.faces_dict :=
  map (fun f : Z =>
         (f, map (fun i : Z =>
                    Streetside.mk_tile (Base4.fixed 2 (f + 1)) i
                      ("https://t.ssl.ak.tiles.virtualearth.net/tiles/hs"
                         ++ Base4.fixed 16 panoid
                         ++ Base4.fixed 2 (f + 1)
                         ++ Base4.fixed (Z.to_nat zoom) i
                         ++ ".jpg?g=13716") None)
                 (Py.range (4 ^ zoom))))
      (Py.range 6).

(** The [i]-th of the four contiguous quarters of a list. *)
Definition quarter {A : Type} (i : nat) (l : list A) : list A :=
  firstn (List.length l / 4) (skipn (i * (List.length l / 4)) l).

(** The chunk at position [k] of a list cut into chunks of [size], and the
    number of chunks that a positive size [s] gives. *)
Definition chunk {A : Type} (size : nat) (l : list A) (k : nat) : list A :=
  firstn size (skipn (k * size) l).

Definition chunk_count {A : Type} (l : list A) (s : Z) : nat :=
  Z.to_nat ((Py.len l + s - 1) / s).

(** A tile that was downloaded and whose bytes decode. *)
Definition fetched (decodable : PIL.bytes -> bool) (t : Streetside.tile) : Prop :=
  exists data, Streetside.image t = Some data /\ decodable data = true.

(** The four pastes of a 2 x 2 arrangement with cells of side [h] on a
    fresh square canvas: top-left, top-right, bottom-left, bottom-right,
    in this order. *)
Definition two_by_two (h : Z) (tl tr bl br : PIL.Image) : PIL.Image :=
  PIL.Pasted
    (PIL.Pasted
       (PIL.Pasted
          (PIL.Pasted (PIL.New (h * 2) (h * 2)) tl (0, 0))
          tr (h, 0))
       bl (0, h))
    br (h, h).

(** The stitched face as the specification describes it, by levels: a
    single tile is used as it is; a face of 4^(k+1) tiles is the 2 x 2
    arrangement, with cells of side 256 * 2^k, of its four quarters
    stitched at level k. [None] when the face has not that many tiles or a
    tile has no bytes. *)
Fixpoint quad_image (k : nat) (face : list Streetside.tile) : option PIL.Image :=
  match k with
  | O =>
      match face with
      | [t] => option_map PIL.Opened (Streetside.image t)
      | _ => None
      end
  | S k' =>
      match quad_image k' (quarter 0 face), quad_image k' (quarter 1 face),
            quad_image k' (quarter 2 face), quad_image k' (quarter 3 face) with
      | Some tl, Some tr, Some bl, Some br =>
          Some (two_by_two (256 * 2 ^ Z.of_nat k') tl tr bl br)
      | _, _, _, _ => None
      end
  end.

(** The error the grid engine raises for a panorama without sizes. *)
Definition InvalidState {A : Type} (r : result A) : Prop :=
  r = Err (ValueError "pano.image_sizes is None.").

(** The two URL layouts of the grid engine, as the specification writes
    them. *)
Definition first_party_url (id : string) (x y zoom : Z) : string :=
  "https://cbk0.google.com/cbk?output=tile&panoid=" ++ id
    ++ "&zoom=" ++ Py.str zoom ++ "&x=" ++ Py.str x ++ "&y=" ++ Py.str y.

Definition third_party_url (id : string) (x y zoom : Z) : string :=
  "https://lh3.ggpht.com/p/" ++ id
    ++ "=x" ++ Py.str x ++ "-y" ++ Py.str y ++ "-z" ++ Py.str zoom.

Definition grid_url (third_party : bool) (id : string) (x y zoom : Z) : string :=
  if third_party then third_party_url id x y zoom
  else first_party_url id x y zoom.

(** [c] is the ceiling of [a / b] for a positive [b]. *)
Definition is_ceiling (c a b : Z) : Prop := (c - 1) * b < a <= c * b.

(** A batch that failed: the download raised, or it returned fewer
    buffers than the [n] URLs it was given. *)
Definition batch_failed (r : result (list PIL.bytes)) (n : nat) : Prop :=
  match r with
  | Err _ => True
  | Ok images => (List.length images < n)%nat
  end.

(** The error a failed batch ends the request with: the exception of the
    download itself, or the [IndexError] of the missing result. *)
Definition batch_error (r : result (list PIL.bytes)) : exception :=
  match r with
  | Err e => e
  | Ok _ => IndexError
  end.

(** Every tile of [face'] is the tile of [face] with its bytes attached. *)
Definition downloaded (face face' : list Streetside.tile) : Prop :=
  Forall2 (fun t t' => exists data, t' = Streetside.set_image t data)
          face face'.

Definition coordinates (t : Tile.t) : Z * Z := (Tile.x t, Tile.y t).

(** Sample data: a decoder that accepts every buffer, and a downloaded
    face of [n] tiles whose bytes are the subdivision number. *)
Definition always_decodable (_ : PIL.bytes) : bool := true.

Definition sample_tile (i : Z) : Streetside.tile :=
  Streetside.mk_tile "01" i "tile" (Some (repeat Byte.x00 (Z.to_nat i))).

Definition sample_face (n : Z) : list Streetside.tile :=
  map sample_tile (Py.range n).

(** A panorama of the grid engine with two zoom levels, and a stand-in for
    the third-party predicate of [streetview/util.py]: long ids. *)
Definition sample_pano (id : string) : Streetview.StreetViewPanorama unit :=
  Streetview.mk_StreetViewPanorama id
    (Some [Size.mk 512 256; Size.mk 1024 512]) (Some (Size.mk 256 256)) tt.

Definition sample_third_party (id : string) : bool :=
  (22 <? String.length id)%nat.

(** A network for the samples: the world counts the batches sent, and a
    batch comes back with one empty buffer per URL, except that from
    batch number [fail_at] on the download raises. *)
Definition sample_download (fail_at : nat) (urls : list string)
  : M nat (list PIL.bytes) :=
  fun sent =>
    if (fail_at <=? sent)%nat then (Err (ExternalError "fetch"), S sent)
    else (Ok (map (fun _ => []) urls), S sent).

Definition sample_stitch (faces : list PIL.Image) (side : Z) (method : unit)
  : result (list PIL.Image) := Ok faces.

Definition sample_streetside_pano : Streetside.StreetsidePanorama :=
  Streetside.mk_StreetsidePanorama 27 3.

(** A network that keeps a record: the world is the list of the batches
    of URLs sent so far, and a batch comes back with one empty buffer per
    URL. *)
Definition recording_download (urls : list string)
  : M (list (list string)) (list PIL.bytes) :=
  fun sent => (Ok (map (fun _ => []) urls), (sent ++ [urls])%list).

(** The batches of URLs of a tile list, one per face in dictionary
    order. *)
Definition url_batches (faces : Streetside.faces_dict) : list (list string) :=
  map (fun fc => map Streetside.url (snd fc)) faces.

(** A grid panorama 10^17 + 1 pixels wide with tiles 10^17 pixels wide. *)
Definition wide_pano : Streetview.StreetViewPanorama unit :=
  Streetview.mk_StreetViewPanorama "abc"
    (Some [Size.mk (10 ^ 17 + 1) 256]) (Some (Size.mk (10 ^ 17) 256)) tt.

(** What a call that builds a tile list has built: the tile list read
    off the store that the call leaves, through the reference that it
    returns, or the error of the call. *)
Definition faces_built (run : result nat * Heap.heap)
  : result (option Streetside.faces_dict) :=
  match fst run with
  | Ok r => Ok (Heap.read_faces (snd run) r)
  | Err e => Err e
  end.

(** The same for the list of [Tile] objects of the grid engine. *)
Definition tiles_built (run : result nat * Heap.heap)
  : result (option (list Tile.t)) :=
  match fst run with
  | Ok r => Ok (Heap.read_list Heap.read_tile (snd run) r)
  | Err e => Err e
  end.

(** What a function on values says the call builds. *)
Definition returned {A : Type} (r : result A) : result (option A) :=
  match r with
  | Ok a => Ok (Some a)
  | Err e => Err e
  end.

(** The objects of a face in the store, from reference [a] on: the list
    of the face, then its tile dictionaries. *)
Definition face_block (a : nat) (tiles : list Streetside.tile) : Heap.heap :=
  Heap.List (seq (a + 1) (List.length tiles)) :: map Heap.TileDict tiles.

(** The objects of the faces, one face after the other. *)
Fixpoint face_blocks (a : nat) (faces : Streetside.faces_dict) : Heap.heap :=
  match faces with
  | [] => []
  | (k, tiles) :: rest =>
      (face_block a tiles ++ face_blocks (a + 1 + List.length tiles) rest)%list
  end.

(** The items of the dictionary [faces]: each key with the reference to
    the list of its face. *)
Fixpoint face_refs (a : nat) (faces : Streetside.faces_dict)
  : list (Z * nat) :=
  match faces with
  | [] => []
  | (k, tiles) :: rest => (k, a) :: face_refs (a + 1 + List.length tiles) rest
  end.

(** ** Vocabulary of the further properties *)


(** The cells of the 2 x 2 arrangement of [_stitch_four], in tile order. *)
Definition four_boxes : list (Z * Z) :=
  [(0, 0); (256, 0); (0, 256); (256, 256)].

(** The cells that the loop of [_stitch_four] pastes on, for [n] tiles
    counted from [idx]. *)
Fixpoint enumerate_boxes (idx : Z) (n : nat) : list (Z * Z) :=
  match n with
  | O => []
  | S n' => ((idx mod 2) * 256, (idx / 2) * 256) :: enumerate_boxes (idx + 1) n'
  end.

(** The tiles of a face with the buffers of a batch attached by position;
    buffers beyond the last tile are left over. *)
Definition with_images (face : list Streetside.tile)
           (images : list PIL.bytes) : list Streetside.tile :=
  map (fun p => Streetside.set_image (fst p) (snd p)) (combine face images).

(** The network serves the faces of a dictionary, one batch per face in
    dictionary order, with the given answers, from world [w] to world
    [w']. *)
Inductive served {World : Type}
          (download : list string -> M World (list PIL.bytes))
  : Streetside.faces_dict -> World -> list (list PIL.bytes) -> World -> Prop :=
| served_nil (w : World) : served download [] w [] w
| served_cons (k : Z) (face : list Streetside.tile)
              (rest : Streetside.faces_dict) (w w1 w' : World)
              (images : list PIL.bytes) (answers : list (list PIL.bytes)) :
    download (map Streetside.url face) w = (Ok images, w1) ->
    served download rest w1 answers w' ->
    served download ((k, face) :: rest) w (images :: answers) w'.

(** The answers of the sample network to the six one-tile batches of a
    zoom-0 request. *)
Definition sample_answers : list (list PIL.bytes) := repeat [[]] 6.

(** A string without the characters that separate the fields of a grid
    URL. *)
Fixpoint plain (s : string) : Prop :=
  match s with
  | EmptyString => True
  | String c s' => c <> "-"%char /\ c <> "&"%char /\ plain s'
  end.

(** The character [c] does not occur in [s]. *)
Fixpoint no_char (c : ascii) (s : string) : Prop :=
  match s with
  | EmptyString => True
  | String a s' => a <> c /\ no_char c s'
  end.

(** Every URL of a tile list, face after face. *)
Definition all_urls (faces : Streetside.faces_dict) : list string :=
  flat_map (fun fc => map Streetside.url (snd fc)) faces.

(** * Properties *)

(** ** Floats *)

(** Rounding moves to one of the two neighbouring integers. *)
Lemma round_half_even_bounds n d : 0 < d ->
  n / d <= Float.round_half_even n d <= n / d + 1.
Proof.
  intros Hd. unfold Float.round_half_even.
  destruct (2 * (n mod d) <? d); [lia|].
  destruct (d <? 2 * (n mod d)); [lia|].
  destruct (Z.even (n / d)); lia.
Qed.

(** Rounding sees the quotient only. *)
Lemma round_half_even_scale n d c : 0 < d -> 0 < c ->
  Float.round_half_even (n * c) (d * c) = Float.round_half_even n d.
Proof.
  intros Hd Hc. unfold Float.round_half_even.
  rewrite Z.div_mul_cancel_r by lia.
  rewrite Zmult_mod_distr_r.
  assert (E1 : (2 * (n mod d * c) <? d * c) = (2 * (n mod d) <? d)).
  { destruct (Z.ltb_spec (2 * (n mod d)) d), (Z.ltb_spec (2 * (n mod d * c)) (d * c)); nia || reflexivity. }
  assert (E2 : (d * c <? 2 * (n mod d * c)) = (d <? 2 * (n mod d))).
  { destruct (Z.ltb_spec d (2 * (n mod d))), (Z.ltb_spec (d * c) (2 * (n mod d * c))); nia || reflexivity. }
  now rewrite E1, E2.
Qed.

Lemma round_half_even_exact q d : 0 < d -> Float.round_half_even (q * d) d = q.
Proof.
  intros Hd. unfold Float.round_half_even.
  rewrite Z.div_mul, Z.mod_mul by lia.
  destruct (Z.ltb_spec (2 * 0) d); [reflexivity | lia].
Qed.

(** When a unit [1 / E] is finer than [2 / d], rounding [n / d] to a
    multiple of the unit does not move it across an integer. *)
Lemma ceil_of_rounded n d E :
  0 <= n -> 0 < d -> 1 <= E -> d < 2 * E ->
  - ((- Float.round_half_even (n * E) d) / E) = - ((- n) / d).
Proof.
  intros Hn Hd HE HdE.
  pose proof (Z.div_mod n d ltac:(lia)) as En.
  pose proof (Z.mod_pos_bound n d Hd) as Bn.
  set (q := n / d) in *. set (r := n mod d) in *. clearbody q r.
  destruct (Z.eq_dec r 0) as [Hr|Hr].
  - assert (Hnq : n = q * d) by lia. rewrite Hnq.
    replace (q * d * E) with (q * E * d) by ring.
    rewrite round_half_even_exact by lia.
    replace (- (q * E)) with ((- q) * E) by ring.
    rewrite Z.div_mul by lia.
    replace (- (q * d)) with ((- q) * d) by ring.
    rewrite Z.div_mul by lia. reflexivity.
  - set (m := Float.round_half_even (n * E) d).
    assert (Hm : q * E < m <= (q + 1) * E).
    { pose proof (round_half_even_bounds (n * E) d Hd) as B. fold m in B.
      pose proof (Z.div_mod (n * E) d ltac:(lia)) as E2.
      pose proof (Z.mod_pos_bound (n * E) d Hd) as B2.
      split.
      - destruct (Z.lt_ge_cases (r * E) d) as [Hlt|Hge].
        + assert (Hq : (n * E) / d = q * E).
          { symmetry. apply (Z.div_unique_pos _ _ _ (r * E)); nia. }
          assert (Hr2 : (n * E) mod d = r * E).
          { symmetry. apply (Z.mod_unique_pos _ _ (q * E)); nia. }
          unfold m, Float.round_half_even. rewrite Hq, Hr2.
          destruct (Z.ltb_spec (2 * (r * E)) d); [nia|].
          destruct (Z.ltb_spec d (2 * (r * E))); [lia | nia].
        + assert (q * E + 1 <= (n * E) / d).
          { apply Z.div_le_lower_bound; nia. }
          lia.
      - assert ((n * E) / d < (q + 1) * E).
        { apply Z.div_lt_upper_bound; nia. }
        lia. }
    assert (H1 : - m / E = - (q + 1)).
    { symmetry. apply (Z.div_unique_pos _ _ _ ((q + 1) * E - m)); nia. }
    assert (H2 : - n / d = - (q + 1)).
    { symmetry. apply (Z.div_unique_pos _ _ _ (d - r)); nia. }
    rewrite H1, H2. reflexivity.
Qed.

Lemma nearest_zero d : 0 < d -> Float.nearest 0 d = 0.
Proof.
  intros Hd. unfold Float.nearest. rewrite Z.mul_0_l, Zdiv_0_l.
  change (Z.max (Z.log2 0 - 52) 0) with 0.
  change 0 with (0 * (d * 2 ^ 0)) at 1. rewrite round_half_even_exact; lia.
Qed.

(** Below 2^53 the double nearest to [n / d] has the ceiling of [n / d]. *)
Lemma nearest_small n d :
  0 <= n < 2 ^ 53 -> 0 < d < 2 ^ 53 ->
  Float.nearest n d < 2 ^ 2098
  /\ Float.ceil (Float.nearest n d) = - ((- n) / d).
Proof.
  intros Hn Hd.
  destruct (Z.eq_dec n 0) as [->|Hn0].
  { rewrite nearest_zero by lia. split; [reflexivity|]. unfold Float.ceil.
    cbn [Z.opp]. now rewrite !Zdiv_0_l. }
  unfold Float.nearest, Float.ceil.
  set (N := n * 2 ^ 1074).
  assert (HQlo : 2 ^ 1021 <= N / d).
  { apply Z.div_le_lower_bound; [lia|]. unfold N.
    change (2 ^ 1074) with (2 ^ 53 * 2 ^ 1021). nia. }
  assert (HQhi : N / d < 2 ^ 1127).
  { apply Z.div_lt_upper_bound; [lia|]. unfold N.
    change (2 ^ 1127) with (2 ^ 53 * 2 ^ 1074). nia. }
  assert (Hk : 1021 <= Z.log2 (N / d) < 1127).
  { split.
    - apply Z.log2_le_pow2; lia.
    - apply Z.log2_lt_pow2; lia. }
  pose proof (Z.log2_spec (N / d) ltac:(lia)) as [Hlo _].
  set (k := Z.log2 (N / d)) in *.
  rewrite Z.max_l by lia.
  set (s := k - 52).
  assert (Hp : 2 ^ 1074 = 2 ^ (1074 - s) * 2 ^ s).
  { rewrite <- Z.pow_add_r by lia. f_equal. lia. }
  assert (Hpk : 2 ^ k = 2 ^ 52 * 2 ^ s).
  { rewrite <- Z.pow_add_r by lia. f_equal. lia. }
  assert (Hps : 0 < 2 ^ s) by (apply Z.pow_pos_nonneg; lia).
  assert (HE : 0 < 2 ^ (1074 - s)) by (apply Z.pow_pos_nonneg; lia).
  assert (Hs2 : 2 ^ s <= 2 ^ 1074) by (apply Z.pow_le_mono_r; lia).
  set (p := 2 ^ s) in *. set (E := 2 ^ (1074 - s)) in *.
  assert (HN : N = n * E * p) by (unfold N; rewrite Hp; ring).
  assert (HdE : d < 2 * E).
  { pose proof (Z.mul_div_le N d ltac:(lia)) as H.
    assert (2 ^ 52 * d * p <= n * E * p) by nia.
    assert (2 ^ 52 * d <= n * E) by nia.
    assert (n * E < 2 ^ 53 * E) by nia.
    change (2 ^ 53) with (2 * 2 ^ 52) in *. nia. }
  rewrite HN, round_half_even_scale by lia.
  set (m := Float.round_half_even (n * E) d).
  split.
  - pose proof (round_half_even_bounds (n * E) d ltac:(lia)) as B. fold m in B.
    assert ((n * E) / d <= n * E).
    { apply Z.div_le_upper_bound; nia. }
    assert (m * p <= n * E * p + p) by nia.
    rewrite <- HN in *.
    assert (N < 2 ^ 53 * 2 ^ 1074) by (unfold N; nia).
    change (2 ^ 2098) with (2 ^ 53 * 2 ^ 1074 + 2 ^ 1074 + (2 ^ 2098 - 2 ^ 53 * 2 ^ 1074 - 2 ^ 1074)).
    assert (0 < 2 ^ 2098 - 2 ^ 53 * 2 ^ 1074 - 2 ^ 1074) by reflexivity.
    lia.
  - rewrite Hp. replace (- (m * p)) with ((- m) * p) by ring.
    rewrite Z.div_mul_cancel_r by lia.
    apply ceil_of_rounded; lia.
Qed.

(** The nearest double is out of range exactly from the middle between
    the largest double and 2^1024 on. *)
Lemma nearest_overflow n d :
  0 <= n -> 0 < d ->
  (2 ^ 2098 <=? Float.nearest n d) = (d * (2 ^ 1024 - 2 ^ 970) <=? n).
Proof.
  intros Hn Hd. unfold Float.nearest.
  set (N := n * 2 ^ 1074).
  assert (HN0 : 0 <= N) by (unfold N; nia).
  assert (Hrhs : (d * (2 ^ 1024 - 2 ^ 970) <=? n)
                 = (d * (2 ^ 2098 - 2 ^ 2044) <=? N)).
  { unfold N.
    change (2 ^ 2098 - 2 ^ 2044) with ((2 ^ 1024 - 2 ^ 970) * 2 ^ 1074).
    destruct (Z.leb_spec (d * (2 ^ 1024 - 2 ^ 970)) n),
             (Z.leb_spec (d * ((2 ^ 1024 - 2 ^ 970) * 2 ^ 1074)) (n * 2 ^ 1074));
      nia || reflexivity. }
  rewrite Hrhs. clear Hrhs.
  pose proof (Z.div_mod N d ltac:(lia)) as EQ.
  pose proof (Z.mod_pos_bound N d Hd) as BQ.
  assert (HQ0 : 0 <= N / d) by (apply Z.div_pos; lia).
  set (Q := N / d) in *.
  set (k := Z.log2 Q).
  set (s := Z.max (k - 52) 0).
  assert (Hs0 : 0 <= s) by lia.
  assert (Hps : 0 < 2 ^ s) by (apply Z.pow_pos_nonneg; lia).
  pose proof (round_half_even_bounds N (d * 2 ^ s) ltac:(nia)) as Bm.
  rewrite <- Z.div_div in Bm by lia. fold Q in Bm.
  set (m := Float.round_half_even N (d * 2 ^ s)) in *.
  destruct (Z.lt_ge_cases Q (2 ^ 2097)) as [HA|HA].
  - (* below the top binade: no overflow *)
    assert (Hm : m * 2 ^ s < 2 ^ 2098).
    { destruct (Z.le_gt_cases k 52) as [Hk|Hk].
      - assert (s = 0) by lia.
        replace s with 0 in * by lia. rewrite Z.div_1_r in Bm.
        change (2 ^ 0) with 1. change (2 ^ 2098) with (2 * 2 ^ 2097). lia.
      - assert (Hs : s = k - 52) by lia.
        assert (HQ1 : 0 < Q).
        { destruct (Z.eq_dec Q 0) as [E|E]; [|lia].
          unfold k in Hk. rewrite E in Hk. cbn in Hk. lia. }
        pose proof (Z.log2_spec Q HQ1) as [_ Hhi]. fold k in Hhi.
        assert (Hk2 : k < 2097) by (apply Z.log2_lt_pow2; lia).
        assert (Hpk : 2 ^ Z.succ k = 2 ^ 53 * 2 ^ s).
        { rewrite <- Z.pow_add_r by lia. f_equal. lia. }
        assert (Q / 2 ^ s < 2 ^ 53).
        { apply Z.div_lt_upper_bound; lia. }
        assert (m * 2 ^ s <= 2 ^ Z.succ k) by nia.
        assert (2 ^ Z.succ k <= 2 ^ 2097) by (apply Z.pow_le_mono_r; lia).
        change (2 ^ 2098) with (2 * 2 ^ 2097). lia. }
    destruct (Z.leb_spec (2 ^ 2098) (m * 2 ^ s)); [lia|].
    destruct (Z.leb_spec (d * (2 ^ 2098 - 2 ^ 2044)) N); [|reflexivity].
    exfalso.
    assert (2 ^ 2097 * d <= N).
    { change (2 ^ 2098 - 2 ^ 2044) with (2 ^ 2097 + (2 ^ 2097 - 2 ^ 2044)) in *.
      assert (0 < 2 ^ 2097 - 2 ^ 2044) by reflexivity. nia. }
    assert (2 ^ 2097 <= Q) by (apply Z.div_le_lower_bound; lia).
    lia.
  - assert (HQ1 : 0 < Q) by (assert (0 < 2 ^ 2097) by reflexivity; lia).
    pose proof (Z.log2_spec Q HQ1) as [Hlo Hhi]. fold k in Hlo, Hhi.
    assert (Hk : 2097 <= k) by (apply Z.log2_le_pow2; lia).
    assert (Hs : s = k - 52) by lia.
    assert (Hpk : 2 ^ k = 2 ^ 52 * 2 ^ s).
    { rewrite <- Z.pow_add_r by lia. f_equal. lia. }
    assert (Hpk1 : 2 ^ Z.succ k = 2 ^ 53 * 2 ^ s).
    { rewrite <- Z.pow_add_r by lia. f_equal. lia. }
    assert (Hq1 : 2 ^ 52 <= Q / 2 ^ s).
    { apply Z.div_le_lower_bound; lia. }
    assert (Hq2 : Q / 2 ^ s < 2 ^ 53).
    { apply Z.div_lt_upper_bound; lia. }
    destruct (Z.lt_ge_cases Q (2 ^ 2098)) as [HB|HB].
    + (* the top binade: overflow exactly when the mantissa rounds up to 2^53 *)
      assert (Hk2 : k < 2098) by (apply Z.log2_lt_pow2; lia).
      assert (Hk3 : k = 2097) by lia.
      assert (Hs3 : s = 2045) by lia.
      clear Bm. unfold m, Float.round_half_even. clear m.
      rewrite Hs3 in *. clear Hpk Hpk1 Hlo Hhi Hps.
      unfold Q in Hq1, Hq2. rewrite Z.div_div in Hq1, Hq2 by lia.
      change (2 ^ 2098 - 2 ^ 2044) with ((2 ^ 54 - 1) * 2 ^ 2044).
      change (2 ^ 2098) with (2 ^ 54 * 2 ^ 2044).
      change (2 ^ 2045) with (2 * 2 ^ 2044) in *.
      assert (Hh : 0 < 2 ^ 2044) by reflexivity.
      set (h := 2 ^ 2044) in *. clearbody h.
      pose proof (Z.div_mod N (d * (2 * h)) ltac:(nia)) as ED.
      pose proof (Z.mod_pos_bound N (d * (2 * h)) ltac:(nia)) as BD.
      set (q := N / (d * (2 * h))) in *. set (r := N mod (d * (2 * h))) in *.
      destruct (Z.eq_dec q (2 ^ 53 - 1)) as [Eq|Eq].
      * rewrite Eq in *. change (Z.even (2 ^ 53 - 1)) with false.
        change (2 ^ 53 - 1 + 1) with (2 ^ 53). cbv iota.
        destruct (Z.ltb_spec (2 * r) (d * (2 * h))).
        { destruct (Z.leb_spec (2 ^ 54 * h) ((2 ^ 53 - 1) * (2 * h))); [nia|].
          destruct (Z.leb_spec (d * ((2 ^ 54 - 1) * h)) N); [nia|reflexivity]. }
        assert (Hm : (if d * (2 * h) <? 2 * r then 2 ^ 53 else 2 ^ 53) = 2 ^ 53)
          by (destruct (d * (2 * h) <? 2 * r); reflexivity).
        rewrite Hm.
        destruct (Z.leb_spec (2 ^ 54 * h) (2 ^ 53 * (2 * h))); [|nia].
        destruct (Z.leb_spec (d * ((2 ^ 54 - 1) * h)) N); [reflexivity|nia].
      * assert (Hq3 : q + 1 < 2 ^ 53) by lia.
        match goal with
        | |- (_ <=? ?m * _) = _ => assert (Hm : m <= q + 1)
        end.
        { destruct (2 * r <? d * (2 * h)); [lia|].
          destruct (d * (2 * h) <? 2 * r); [lia|].
          destruct (Z.even q); lia. }
        match goal with
        | |- (_ <=? ?m * _) = _ => set (m' := m) in *
        end.
        clearbody m'.
        destruct (Z.leb_spec (2 ^ 54 * h) (m' * (2 * h))); [nia|].
        destruct (Z.leb_spec (d * ((2 ^ 54 - 1) * h)) N); [nia|reflexivity].
    + (* beyond: overflow *)
      assert (Hk2 : 2098 <= k) by (apply Z.log2_le_pow2; lia).
      assert (2 ^ 2098 <= 2 ^ k) by (apply Z.pow_le_mono_r; lia).
      assert (2 ^ 2098 <= m * 2 ^ s) by nia.
      destruct (Z.leb_spec (2 ^ 2098) (m * 2 ^ s)); [|lia].
      destruct (Z.leb_spec (d * (2 ^ 2098 - 2 ^ 2044)) N); [reflexivity|].
      exfalso. assert (0 < 2 ^ 2044) by reflexivity. nia.
Qed.

(** A quotient is out of the range of a double exactly when its magnitude
    reaches 2^1024 - 2^970. *)
Lemma quotient_overflow (a b : Z) :
  b <> 0 ->
  Float.quotient a b =
  if Z.abs b * (2 ^ 1024 - 2 ^ 970) <=? Z.abs a then Err OverflowError
  else Ok (Z.sgn a * Z.sgn b * Float.nearest (Z.abs a) (Z.abs b)).
Proof.
  intros Hb. unfold Float.quotient.
  now rewrite nearest_overflow by lia.
Qed.

Lemma ceil_div_exact (a b : Z) :
  0 <= a < 2 ^ 53 -> 0 < b < 2 ^ 53 ->
  Py.ceil_div a b = Ok (- ((- a) / b)).
Proof.
  intros Ha Hb. unfold Py.ceil_div, Float.truediv, Float.quotient.
  destruct (Z.eqb_spec b 0) as [H|_]; [lia|].
  rewrite Z.abs_eq, Z.abs_eq by lia.
  destruct (nearest_small a b Ha Hb) as [Hlt Hc].
  destruct (Z.leb_spec (2 ^ 2098) (Float.nearest a b)) as [H|_]; [lia|].
  cbn [bind]. f_equal.
  destruct (Z.eq_dec a 0) as [->|Ha0].
  - rewrite nearest_zero in * by lia. exact Hc.
  - replace (Z.sgn a * Z.sgn b * Float.nearest a b) with (Float.nearest a b)
      by (rewrite (Z.sgn_pos a), (Z.sgn_pos b) by lia; ring).
    exact Hc.
Qed.

Lemma ceil_div_error (a b : Z) (e : exception) :
  Py.ceil_div a b = Err e ->
  (e = ZeroDivisionError /\ b = 0)
  \/ (e = OverflowError /\ b <> 0
      /\ Z.abs b * (2 ^ 1024 - 2 ^ 970) <= Z.abs a).
Proof.
  unfold Py.ceil_div, Float.truediv.
  destruct (Z.eqb_spec b 0) as [Hb|Hb].
  - cbn [bind]. intros [= <-]. now left.
  - rewrite quotient_overflow by assumption.
    destruct (Z.leb_spec (Z.abs b * (2 ^ 1024 - 2 ^ 970)) (Z.abs a)).
    + cbn [bind]. intros [= <-]. right. now repeat split.
    + cbn [bind]. discriminate.
Qed.




(** From 2^53 on the float quotient may miss the exact one: the width
    10^17 + 1 over tiles 10^17 wide rounds to 1.0. *)
Example ceil_div_beyond_doubles :
  Py.ceil_div (10 ^ 17 + 1) (10 ^ 17) = Ok 1
  /\ - ((- (10 ^ 17 + 1)) / 10 ^ 17) = 2.
Proof. split; vm_compute; reflexivity. Qed.

Lemma pow_int (b e : Z) : 0 <= e -> Py.pow b e = Ok (Py.Int (b ^ e)).
Proof.
  intros He. unfold Py.pow. now destruct (Z.ltb_spec e 0) as [H|_]; [lia|].
Qed.

Lemma pow_four_negative (e : Z) :
  e < 0 ->
  Py.pow 4 e =
  if 2 ^ 1024 - 2 ^ 970 <=? - e then Err OverflowError else Ok Py.Float.
Proof.
  intros He. unfold Py.pow. destruct (Z.ltb_spec e 0) as [_|H]; [|lia].
  assert (H4 : Float.of_int 4 = Ok (4 * 2 ^ 1074)) by (vm_compute; reflexivity).
  rewrite H4. cbn [bind]. unfold Float.of_int.
  rewrite quotient_overflow by lia.
  change (Z.abs 1) with 1. rewrite Z.mul_1_l, Z.abs_neq by lia.
  destruct (2 ^ 1024 - 2 ^ 970 <=? - e); reflexivity.
Qed.

(** ** Strings and the error monad *)

Lemma string_app_assoc (a b c : string) : (a ++ b) ++ c = a ++ (b ++ c).
Proof. induction a as [|ch a IH]; simpl; [reflexivity | now rewrite IH]. Qed.

Lemma string_length_app (a b : string) :
  String.length (a ++ b) = (String.length a + String.length b)%nat.
Proof. induction a as [|ch a IH]; simpl; [reflexivity | now rewrite IH]. Qed.

Lemma replicate_length (n : nat) (c : ascii) :
  String.length (Py.replicate n c) = n.
Proof. induction n; simpl; congruence. Qed.

Lemma replicate_snoc (n : nat) (c : ascii) :
  Py.replicate n c ++ String c "" = Py.replicate (S n) c.
Proof. induction n as [|n IH]; simpl; [reflexivity | now rewrite IH]. Qed.

Lemma mapM_ok_map {A B : Type} (f : A -> result B) (g : A -> B) (l : list A) :
  (forall a, In a l -> f a = Ok (g a)) -> mapM f l = Ok (map g l).
Proof.
  induction l as [|a l IH]; intros H; simpl; [reflexivity|].
  rewrite (H a (or_introl eq_refl)); simpl.
  rewrite IH; [reflexivity|]. intros b Hb. apply H. now right.
Qed.

Lemma mapM_ok_length {A B : Type} (f : A -> result B) (l : list A) (r : list B) :
  mapM f l = Ok r -> List.length r = List.length l.
Proof.
  revert r. induction l as [|a l IH]; simpl; intros r H.
  - now inversion H.
  - destruct (f a); simpl in H; [|discriminate].
    destruct (mapM f l); simpl in H; [|discriminate].
    inversion H; subst; simpl. now rewrite (IH _ eq_refl).
Qed.

Lemma mapM_total {A B : Type} (f : A -> result B) (l : list A) :
  (forall a, In a l -> exists b, f a = Ok b) -> exists r, mapM f l = Ok r.
Proof.
  induction l as [|a l IH]; intros H; simpl; [now eexists|].
  destruct (H a (or_introl eq_refl)) as (b & ->).
  destruct IH as (r & ->); [intros c Hc; apply H; now right|].
  simpl. now eexists.
Qed.

(** ** Ranges *)

Lemma range_length (n : Z) : List.length (Py.range n) = Z.to_nat n.
Proof. unfold Py.range. now rewrite length_map, length_seq. Qed.

Lemma range_len (n : Z) : 0 <= n -> Py.len (Py.range n) = n.
Proof. intros H. unfold Py.len. rewrite range_length. lia. Qed.

Lemma in_range (n i : Z) : In i (Py.range n) <-> 0 <= i < n.
Proof.
  unfold Py.range. rewrite in_map_iff. split.
  - intros (k & <- & Hk). apply in_seq in Hk. lia.
  - intros H. exists (Z.to_nat i). split; [lia|]. apply in_seq. lia.
Qed.

Lemma range_nth (n : Z) (k : nat) :
  (k < Z.to_nat n)%nat -> nth_error (Py.range n) k = Some (Z.of_nat k).
Proof.
  intros H. unfold Py.range.
  rewrite nth_error_map, nth_error_seq.
  destruct (Nat.ltb_spec k (Z.to_nat n)); [reflexivity | lia].
Qed.

Lemma range_NoDup (n : Z) : NoDup (Py.range n).
Proof.
  unfold Py.range.
  apply NoDup_map_NoDup_ForallPairs; [|apply seq_NoDup].
  intros a b _ _ H. lia.
Qed.

(** ** Base-4 numerals *)

Lemma digit_length (d : Z) : String.length (Base4.digit d) = 1%nat.
Proof.
  unfold Base4.digit.
  destruct (d =? 0), (d =? 1), (d =? 2); reflexivity.
Qed.

Lemma fixed_length (w : nat) (n : Z) : String.length (Base4.fixed w n) = w.
Proof.
  revert n. induction w as [|w IH]; intros n; simpl; [reflexivity|].
  rewrite string_length_app, IH, digit_length. lia.
Qed.

Lemma fixed_zero (w : nat) : Base4.fixed w 0 = Py.replicate w "0".
Proof.
  induction w as [|w IH]; [reflexivity|].
  cbn [Base4.fixed]. rewrite Z.div_0_l, Z.mod_0_l, IH by lia.
  apply replicate_snoc.
Qed.

Lemma quad_div (q d : Z) : 0 <= d < 4 -> (d + q * 4) / 4 = q.
Proof. intros H. rewrite Z.div_add, Z.div_small by lia. lia. Qed.

Lemma quad_mod (q d : Z) : 0 <= d < 4 -> (d + q * 4) mod 4 = d.
Proof. intros H. rewrite Z.mod_add, Z.mod_small by lia. lia. Qed.

Lemma fixed_step (w : nat) (q d : Z) :
  0 <= d < 4 ->
  Base4.fixed (S w) (d + q * 4) = Base4.fixed w q ++ Base4.digit d.
Proof. intros H. cbn [Base4.fixed]. now rewrite quad_div, quad_mod. Qed.

(** The digits of a positive number are its fixed-width numeral without
    the leading zeros. *)
Lemma of_pos_fixed (w : nat) (p : positive) :
  Z.pos p < 4 ^ Z.of_nat w ->
  exists k : nat,
    (k + String.length (Base4.of_pos p) = w)%nat /\
    Py.replicate k "0" ++ Base4.of_pos p = Base4.fixed w (Z.pos p).
Proof.
  revert p. induction w as [|w IH]; intros p Hp.
  - simpl in Hp. lia.
  - rewrite Nat2Z.inj_succ, Z.pow_succ_r in Hp by lia.
    assert (Hsmall : forall d, 0 <= d < 4 -> d <> 0 ->
              Base4.of_pos p = Base4.digit d -> Z.pos p = d + 0 * 4 ->
              exists k : nat,
                (k + String.length (Base4.of_pos p) = S w)%nat /\
                Py.replicate k "0" ++ Base4.of_pos p
                = Base4.fixed (S w) (Z.pos p)).
    { intros d Hd Hd0 Hs ->. exists w. rewrite Hs, digit_length.
      split; [lia|]. now rewrite fixed_step, fixed_zero by lia. }
    assert (Hbig : forall q d, 0 <= d < 4 ->
              Base4.of_pos p = Base4.of_pos q ++ Base4.digit d ->
              Z.pos p = d + Z.pos q * 4 ->
              exists k : nat,
                (k + String.length (Base4.of_pos p) = S w)%nat /\
                Py.replicate k "0" ++ Base4.of_pos p
                = Base4.fixed (S w) (Z.pos p)).
    { intros q d Hd Hs Hv.
      destruct (IH q) as (k & Hk & Hf); [lia|].
      exists k. rewrite Hs, Hv, string_length_app, digit_length.
      split; [lia|].
      now rewrite fixed_step, <- string_app_assoc, Hf by lia. }
    destruct p as [[q|q|]|[q|q|]|].
    + apply (Hbig q 3); [lia | reflexivity | lia].
    + apply (Hbig q 1); [lia | reflexivity | lia].
    + apply (Hsmall 3); [lia | lia | reflexivity | lia].
    + apply (Hbig q 2); [lia | reflexivity | lia].
    + apply (Hbig q 0); [lia | reflexivity | lia].
    + apply (Hsmall 2); [lia | lia | reflexivity | lia].
    + apply (Hsmall 1); [lia | lia | reflexivity | lia].
Qed.

(** Right-justifying [to_base4 n] to [w >= 1] digits gives the [w]-digit
    numeral of [n], whenever [n] fits in [w] digits. *)
Lemma rjust_to_base4 (w : nat) (n : Z) :
  (1 <= w)%nat -> 0 <= n < 4 ^ Z.of_nat w ->
  Py.rjust (Base4.to_base4 n) (Z.of_nat w) "0" = Base4.fixed w n.
Proof.
  intros Hw Hn. unfold Py.rjust.
  destruct n as [|p|p]; [| |lia].
  - cbn [Base4.to_base4 String.length]. rewrite fixed_zero.
    destruct (Z.leb_spec (Z.of_nat w) (Z.of_nat 1)) as [H|H].
    + assert (w = 1%nat) as -> by lia. reflexivity.
    + destruct w as [|w]; [lia|].
      replace (Z.to_nat (Z.of_nat (S w)) - 1)%nat with w by lia.
      apply (replicate_snoc w "0").
  - cbn [Base4.to_base4].
    destruct (of_pos_fixed w p) as (k & Hk & Hf); [lia|].
    destruct (Z.leb_spec (Z.of_nat w) (Z.of_nat (String.length (Base4.of_pos p))))
      as [H|H].
    + assert (k = 0%nat) as -> by lia. exact Hf.
    + replace (Z.to_nat (Z.of_nat w) - String.length (Base4.of_pos p))%nat
        with k by lia.
      exact Hf.
Qed.

Lemma decode_from_app (acc : Z) (s t : string) :
  Base4.decode_from acc (s ++ t) =
  match Base4.decode_from acc s with
  | Some a => Base4.decode_from a t
  | None => None
  end.
Proof.
  revert acc. induction s as [|c s IH]; intros acc; simpl; [reflexivity|].
  destruct (Base4.digit_value c); [apply IH | reflexivity].
Qed.

Lemma decode_from_digit (acc d : Z) :
  0 <= d < 4 -> Base4.decode_from acc (Base4.digit d) = Some (4 * acc + d).
Proof.
  intros H.
  assert (d = 0 \/ d = 1 \/ d = 2 \/ d = 3) as [-> | [-> | [-> | ->]]] by lia;
    reflexivity.
Qed.

(** Round trip: a [w]-digit numeral decodes to the number it was made of. *)
Lemma from_base4_fixed (w : nat) (n : Z) :
  0 <= n < 4 ^ Z.of_nat w -> Base4.from_base4 (Base4.fixed w n) = Some n.
Proof.
  unfold Base4.from_base4. revert n.
  induction w as [|w IH]; intros n Hn.
  - simpl in *. f_equal. lia.
  - rewrite Nat2Z.inj_succ, Z.pow_succ_r in Hn by lia.
    cbn [Base4.fixed]. rewrite decode_from_app, IH.
    + rewrite decode_from_digit by (apply Z.mod_pos_bound; lia).
      f_equal. pose proof (Z.div_mod n 4). lia.
    + split; [apply Z.div_pos; lia | apply Z.div_lt_upper_bound; lia].
Qed.

Lemma fixed_NoDup (w : nat) :
  NoDup (map (Base4.fixed w) (Py.range (4 ^ Z.of_nat w))).
Proof.
  apply NoDup_map_NoDup_ForallPairs; [|apply range_NoDup].
  intros a b Ha Hb H. apply in_range in Ha, Hb.
  apply (f_equal Base4.from_base4) in H.
  rewrite !from_base4_fixed in H by assumption. congruence.
Qed.

(** ** The cubemap engine's tile list *)

Lemma tile_url_eq (a b c : string) :
  Streetside.tile_url a (b ++ c) =
  "https://t.ssl.ak.tiles.virtualearth.net/tiles/hs" ++ a ++ b ++ c
    ++ ".jpg?g=13716".
Proof.
  unfold Streetside.tile_url. cbn [append].
  now rewrite (string_app_assoc b c).
Qed.

Lemma generate_tile_list_ok (panoid zoom : Z) :
  0 <= panoid < 4 ^ 16 -> 0 <= zoom <= 4 ->
  Streetside._generate_tile_list panoid zoom = Ok (cubemap_tiles panoid zoom).
Proof.
  intros Hp Hz. unfold Streetside._generate_tile_list, cubemap_tiles.
  destruct (Z.gtb_spec zoom 4) as [H|_]; [lia|].
  rewrite pow_int by lia. cbn [bind].
  cbn [Py.range_of].
  apply mapM_ok_map. intros f Hf. apply in_range in Hf.
  cbn [bind]. do 2 f_equal.
  assert (Hface : Py.rjust (Base4.to_base4 (f + 1)) 2 "0"
                  = Base4.fixed 2 (f + 1)).
  { apply (rjust_to_base4 2); [lia|]. change (4 ^ Z.of_nat 2) with 16. lia. }
  assert (Hid : Py.rjust (Base4.to_base4 panoid) 16 "0"
                = Base4.fixed 16 panoid).
  { apply (rjust_to_base4 16); [lia|]. exact Hp. }
  rewrite Hface, Hid.
  apply map_ext_in. intros i Hi. apply in_range in Hi.
  f_equal. rewrite tile_url_eq. do 4 f_equal.
  destruct (Z.ltb_spec zoom 1) as [H|H].
  - assert (zoom = 0) as -> by lia. reflexivity.
  - rewrite <- (Z2Nat.id zoom) at 1 by lia.
    apply rjust_to_base4; [lia|]. rewrite Z2Nat.id by lia. exact Hi.
Qed.

(** C1. For every panorama id in [0, 4^16) and zoom in [0, 4] the cubemap
    engine's tile list has exactly the six faces with ids 1..6 (codes 01,
    02, 03, 10, 11, 12), each with exactly 4^zoom tiles; the tiles of a face
    are in ascending order of subdivision 0 .. 4^zoom - 1, their codes are
    the zoom-digit base-4 numerals of the subdivisions (the empty string at
    zoom 0), pairwise distinct; and every URL is the fixed prefix, the
    16-digit numeral of the id, the face code, the subdivision code and the
    fixed suffix. *)
Theorem cubemap_tile_list (panoid zoom : Z) :
  0 <= panoid < 4 ^ 16 -> 0 <= zoom <= 4 ->
  let w := Z.to_nat zoom in
  Streetside._generate_tile_list panoid zoom = Ok (cubemap_tiles panoid zoom)
  /\ List.length (cubemap_tiles panoid zoom) = 6%nat
  /\ map (fun f => Base4.fixed 2 (f + 1)) (Py.range 6)
     = ["01"; "02"; "03"; "10"; "11"; "12"]
  /\ (forall f, 0 <= f < 6 -> numeral_of (Base4.fixed 2 (f + 1)) 2 (f + 1))
  /\ numeral_of (Base4.fixed 16 panoid) 16 panoid
  /\ (forall fc, In fc (cubemap_tiles panoid zoom) ->
        Py.len (snd fc) = 4 ^ zoom
        /\ map Streetside.subdiv (snd fc) = Py.range (4 ^ zoom))
  /\ (forall k : nat, (k < Z.to_nat (4 ^ zoom))%nat ->
        nth_error (Py.range (4 ^ zoom)) k = Some (Z.of_nat k))
  /\ (forall i, 0 <= i < 4 ^ zoom -> numeral_of (Base4.fixed w i) w i)
  /\ NoDup (map (Base4.fixed w) (Py.range (4 ^ zoom)))
  /\ (zoom = 0 -> map (Base4.fixed w) (Py.range (4 ^ zoom)) = [""]).
Proof.
  intros Hp Hz w.
  assert (Hw : Z.of_nat w = zoom) by (apply Z2Nat.id; lia).
  assert (Hpow : 0 <= 4 ^ zoom) by (apply Z.pow_nonneg; lia).
  split; [now apply generate_tile_list_ok|].
  split; [unfold cubemap_tiles; now rewrite length_map, range_length|].
  split; [reflexivity|].
  split.
  { intros f Hf. split; [apply fixed_length|].
    apply from_base4_fixed. change (4 ^ Z.of_nat 2) with 16. lia. }
  split.
  { split; [apply fixed_length | now apply from_base4_fixed]. }
  split.
  { intros fc Hfc. unfold cubemap_tiles in Hfc.
    apply in_map_iff in Hfc. destruct Hfc as (f & <- & _). cbn [snd].
    split.
    - unfold Py.len. rewrite length_map. now apply range_len.
    - rewrite map_map. cbn [Streetside.subdiv]. apply map_id. }
  split; [intros k Hk; now apply range_nth|].
  split.
  { intros i Hi. split; [apply fixed_length|].
    apply from_base4_fixed. now rewrite Hw. }
  split; [rewrite <- Hw; apply fixed_NoDup|].
  intros ->. reflexivity.
Qed.

Lemma cubemap_tile_list_witness :
  0 <= 27 < 4 ^ 16 /\ 0 <= 1 <= 4 /\
  Streetside._generate_tile_list 27 1 = Ok (cubemap_tiles 27 1).
Proof.
  split; [lia|]. split; [lia|].
  apply (cubemap_tile_list 27 1); lia.
Defined.

(** The numerals are what one expects on a concrete panorama. *)
Example cubemap_tiles_zoom1 :
  Streetside._generate_tile_list 27 1 =
  Ok (map (fun fc : Z * string =>
             (fst fc,
              map (fun sd : Z * string =>
                     Streetside.mk_tile (snd fc) (fst sd)
                       ("https://t.ssl.ak.tiles.virtualearth.net/tiles/hs0000000000000123"
                          ++ snd fc ++ snd sd ++ ".jpg?g=13716") None)
                  [(0, "0"); (1, "1"); (2, "2"); (3, "3")]))
          [(0, "01"); (1, "02"); (2, "03"); (3, "10"); (4, "11"); (5, "12")]).
Proof. reflexivity. Qed.

Example cubemap_tiles_zoom2_codes :
  map (Base4.fixed 2) (Py.range (4 ^ 2)) =
  ["00"; "01"; "02"; "03"; "10"; "11"; "12"; "13";
   "20"; "21"; "22"; "23"; "30"; "31"; "32"; "33"].
Proof. reflexivity. Qed.

(** ** Zoom validation of the cubemap engine *)

Lemma generate_tile_list_total (panoid zoom : Z) :
  0 <= zoom <= 4 ->
  exists faces, Streetside._generate_tile_list panoid zoom = Ok faces.
Proof.
  intros Hz. unfold Streetside._generate_tile_list.
  destruct (Z.gtb_spec zoom 4) as [H|_]; [lia|].
  rewrite pow_int by lia. cbn [bind].
  cbn [Py.range_of]. apply mapM_total.
  intros f _. cbn [bind]. eexists. reflexivity.
Qed.

(** Below zero the guard lets the zoom through and [pow] leaves the ints:
    the conversion of the zoom to a float overflows from 2^1024 - 2^970
    on, and otherwise the subdivision range rejects the float. *)
Lemma generate_tile_list_negative (panoid zoom : Z) :
  zoom < 0 ->
  Streetside._generate_tile_list panoid zoom =
  Err (if 2 ^ 1024 - 2 ^ 970 <=? - zoom then OverflowError else TypeError).
Proof.
  intros Hz. unfold Streetside._generate_tile_list.
  destruct (Z.gtb_spec zoom 4) as [H|_]; [lia|].
  rewrite pow_four_negative by assumption.
  destruct (2 ^ 1024 - 2 ^ 970 <=? - zoom); reflexivity.
Qed.

(** C4, as amended. The cubemap engine's tile-list generation fails with
    the InvalidZoom error exactly when the zoom is greater than 4. For a
    zoom in [0, 4] it returns a tile list; a negative zoom is not rejected
    as an invalid zoom: it fails with another error, the type error of the
    subdivision range on a float or, from 2^1024 - 2^970 downwards, the
    overflow of the conversion of the zoom to a float. *)
Theorem invalid_zoom_iff_above_four (panoid zoom : Z) :
  (InvalidZoom (Streetside._generate_tile_list panoid zoom) <-> zoom > 4)
  /\ (0 <= zoom <= 4 ->
      exists faces, Streetside._generate_tile_list panoid zoom = Ok faces)
  /\ (zoom < 0 ->
      Streetside._generate_tile_list panoid zoom =
      Err (if 2 ^ 1024 - 2 ^ 970 <=? - zoom then OverflowError
           else TypeError)).
Proof.
  split; [|split].
  - unfold InvalidZoom. split.
    + intros H. destruct (Z.le_gt_cases zoom 4) as [Hle|Hgt]; [|lia].
      destruct (Z.lt_ge_cases zoom 0) as [Hneg|Hpos].
      * rewrite generate_tile_list_negative in H by assumption.
        destruct (2 ^ 1024 - 2 ^ 970 <=? - zoom); discriminate.
      * destruct (generate_tile_list_total panoid zoom) as (faces & Hf); [lia|].
        rewrite Hf in H. discriminate.
    + intros H. unfold Streetside._generate_tile_list.
      destruct (Z.gtb_spec zoom 4) as [_|H']; [reflexivity | lia].
  - apply generate_tile_list_total.
  - apply generate_tile_list_negative.
Qed.

Lemma invalid_zoom_iff_above_four_witness :
  5 > 4 /\ InvalidZoom (Streetside._generate_tile_list 27 5).
Proof.
  split; [lia|].
  apply (proj1 (invalid_zoom_iff_above_four 27 5)). lia.
Defined.

(** C4 as stated fails below the range: at zoom -1 the error is not
    InvalidZoom. *)
Lemma negative_zoom_not_invalid_zoom :
  ~ (forall panoid zoom : Z,
        zoom < 0 \/ zoom > 4 ->
        InvalidZoom (Streetside._generate_tile_list panoid zoom)).
Proof.
  intros H. specialize (H 27 (-1)). unfold InvalidZoom in H.
  assert (Hz : -1 < 0 \/ -1 > 4) by (left; lia).
  specialize (H Hz). vm_compute in H. discriminate.
Qed.

(** ** Splitting a list into chunks *)

Section SplitList.

Context {A : Type}.
Implicit Types (l : list A) (s : Z).

Lemma firstn_plus (n m : nat) l :
  firstn (n + m) l = (firstn n l ++ firstn m (skipn n l))%list.
Proof.
  revert l. induction n as [|n IH]; intros l; [reflexivity|].
  destruct l as [|a l]; simpl.
  - now rewrite firstn_nil.
  - now rewrite IH.
Qed.

Lemma split_list_chunks l s :
  0 < s ->
  Streetside._split_list l s =
  Ok (map (chunk (Z.to_nat s) l) (seq 0 (chunk_count l s))).
Proof.
  intros Hs. unfold Streetside._split_list, Py.range_step.
  destruct (Z.eqb_spec s 0) as [H|_]; [lia|].
  destruct (Z.ltb_spec s 0) as [H|_]; [lia|].
  cbn [bind]. unfold Py.range, chunk_count. rewrite !map_map. f_equal.
  apply map_ext. intros k. unfold Py.slice, chunk. f_equal.
  - f_equal. lia.
  - f_equal. rewrite Z2Nat.inj_mul, Nat2Z.id by lia. reflexivity.
Qed.

Lemma chunk_count_covers l s :
  0 < s -> (List.length l <= chunk_count l s * Z.to_nat s)%nat.
Proof.
  intros Hs. unfold chunk_count, Py.len.
  pose proof (Z.div_mod (Z.of_nat (List.length l) + s - 1) s ltac:(lia)) as E.
  pose proof (Z.mod_pos_bound (Z.of_nat (List.length l) + s - 1) s Hs) as B.
  assert (0 <= (Z.of_nat (List.length l) + s - 1) / s)
    by (apply Z.div_pos; lia).
  apply Nat2Z.inj_le. rewrite Nat2Z.inj_mul, !Z2Nat.id by lia. nia.
Qed.

Lemma chunk_count_tight l s (k : nat) :
  0 < s -> (S k < chunk_count l s)%nat ->
  (S k * Z.to_nat s < List.length l)%nat.
Proof.
  intros Hs Hk. unfold chunk_count, Py.len in Hk.
  pose proof (Z.div_mod (Z.of_nat (List.length l) + s - 1) s ltac:(lia)) as E.
  pose proof (Z.mod_pos_bound (Z.of_nat (List.length l) + s - 1) s Hs) as B.
  apply Nat2Z.inj_lt. rewrite Nat2Z.inj_mul, Z2Nat.id by lia. nia.
Qed.

Lemma chunk_count_nonempty l s (k : nat) :
  0 < s -> (k < chunk_count l s)%nat ->
  (k * Z.to_nat s < List.length l)%nat.
Proof.
  intros Hs Hk. unfold chunk_count, Py.len in Hk.
  pose proof (Z.div_mod (Z.of_nat (List.length l) + s - 1) s ltac:(lia)) as E.
  pose proof (Z.mod_pos_bound (Z.of_nat (List.length l) + s - 1) s Hs) as B.
  apply Nat2Z.inj_lt. rewrite Nat2Z.inj_mul, Z2Nat.id by lia. nia.
Qed.

Lemma chunks_concat (size n : nat) l :
  List.concat (map (chunk size l) (seq 0 n)) = firstn (n * size) l.
Proof.
  induction n as [|n IH]; [reflexivity|].
  rewrite seq_S, map_app, concat_app, IH. cbn [map List.concat Nat.add].
  rewrite app_nil_r. unfold chunk.
  replace (S n * size)%nat with (n * size + size)%nat by lia.
  now rewrite firstn_plus.
Qed.

Lemma chunk_length (size : nat) l (k : nat) :
  List.length (chunk size l k) = Nat.min size (List.length l - k * size).
Proof. unfold chunk. now rewrite length_firstn, length_skipn. Qed.

Lemma nth_error_chunks (size n : nat) l (i : nat) c :
  nth_error (map (chunk size l) (seq 0 n)) i = Some c ->
  (i < n)%nat /\ c = chunk size l i.
Proof.
  intros H. rewrite nth_error_map, nth_error_seq in H.
  destruct (Nat.ltb_spec i n); [|discriminate].
  cbn in H. split; [assumption | congruence].
Qed.

End SplitList.

Lemma pow4_quarter (k : nat) :
  (1 <= k)%nat -> 4 ^ Z.of_nat k = 4 * 4 ^ Z.of_nat (k - 1).
Proof.
  intros Hk. replace (Z.of_nat k) with (Z.succ (Z.of_nat (k - 1))) by lia.
  rewrite Z.pow_succ_r by lia. reflexivity.
Qed.

Lemma pow4_pos (k : nat) : 0 < 4 ^ Z.of_nat k.
Proof. apply Z.pow_pos_nonneg; lia. Qed.

Lemma quarter_len_Z {A : Type} (l : list A) (m : nat) :
  List.length l = (4 * m)%nat -> Py.len l / 4 = Z.of_nat m.
Proof.
  intros Hl. unfold Py.len. rewrite Hl, Nat2Z.inj_mul, Z.mul_comm.
  apply Z.div_mul. discriminate.
Qed.

Lemma quarter_len_nat {A : Type} (l : list A) (m : nat) :
  List.length l = (4 * m)%nat -> (List.length l / 4)%nat = m.
Proof.
  intros Hl. rewrite Hl, Nat.mul_comm. apply Nat.div_mul. discriminate.
Qed.

(** A list whose length is a multiple of four splits, with a quarter of
    the length as the size, into its four quarters. *)
Lemma split_list_quarters {A : Type} (l : list A) (m : nat) :
  (1 <= m)%nat -> List.length l = (4 * m)%nat ->
  Streetside._split_list l (Py.len l / 4) =
  Ok [quarter 0 l; quarter 1 l; quarter 2 l; quarter 3 l].
Proof.
  intros Hm Hl.
  pose proof (quarter_len_Z l m Hl) as Hq.
  rewrite split_list_chunks by lia.
  assert (Hn : chunk_count l (Py.len l / 4) = 4%nat).
  { unfold chunk_count. rewrite Hq. unfold Py.len. rewrite Hl.
    replace (Z.of_nat (4 * m) + Z.of_nat m - 1)
      with (Z.of_nat m - 1 + 4 * Z.of_nat m) by lia.
    rewrite Z.div_add, Z.div_small by lia. reflexivity. }
  rewrite Hn, Hq, Nat2Z.id. unfold quarter, chunk.
  rewrite (quarter_len_nat l m Hl). reflexivity.
Qed.

Lemma quarter_length {A : Type} (l : list A) (m i : nat) :
  List.length l = (4 * m)%nat -> (i < 4)%nat ->
  List.length (quarter i l) = m.
Proof.
  intros Hl Hi. unfold quarter.
  rewrite length_firstn, length_skipn, (quarter_len_nat l m Hl). nia.
Qed.

Lemma quarters_concat {A : Type} (l : list A) (m : nat) :
  List.length l = (4 * m)%nat ->
  (quarter 0 l ++ quarter 1 l ++ quarter 2 l ++ quarter 3 l)%list = l.
Proof.
  intros Hl.
  pose proof (chunks_concat (List.length l / 4) 4 l) as H.
  cbn [seq map List.concat] in H. rewrite app_nil_r in H.
  unfold quarter. unfold chunk in H. rewrite H.
  apply firstn_all2. rewrite (quarter_len_nat l m Hl). lia.
Qed.

(** For a positive size: the chunks in order, each the slice of the list
    at its position, all full but possibly the last, none empty. *)
Lemma split_list_positive {A : Type} (l : list A) (s : Z) :
  0 < s ->
  exists cs,
    Streetside._split_list l s = Ok cs
    /\ List.concat cs = l
    /\ (forall i c, nth_error cs i = Some c ->
          c = Py.slice l (Z.of_nat i * s) (Z.of_nat i * s + s))
    /\ (forall i c, nth_error cs i = Some c ->
          (S i < List.length cs)%nat -> Py.len c = s)
    /\ (forall c, In c cs -> 1 <= Py.len c <= s).
Proof.
  intros Hs. eexists. split; [now apply split_list_chunks|].
  split; [|split; [|split]].
  - rewrite chunks_concat. apply firstn_all2. now apply chunk_count_covers.
  - intros i c H. apply nth_error_chunks in H. destruct H as (_ & ->).
    unfold chunk, Py.slice. f_equal.
    + f_equal. lia.
    + f_equal. rewrite Z2Nat.inj_mul, Nat2Z.id by lia. reflexivity.
  - intros i c H Hi. apply nth_error_chunks in H. destruct H as (_ & ->).
    rewrite length_map, length_seq in Hi.
    pose proof (chunk_count_tight l s i Hs Hi) as Ht.
    unfold Py.len. rewrite chunk_length. lia.
  - intros c Hc. apply In_nth_error in Hc. destruct Hc as (i & Hc).
    apply nth_error_chunks in Hc. destruct Hc as (Hi & ->).
    pose proof (chunk_count_nonempty l s i Hs Hi) as Ht.
    unfold Py.len. rewrite chunk_length. lia.
Qed.

(** C9. For a positive size the list-splitting helper returns contiguous
    chunks in the original order: the chunk at position i is the slice of
    the list from i * size, every chunk but the last has exactly size
    elements (the last has between 1 and size), and the chunks concatenated
    give the list back. A list of 4^k elements, k >= 1, split with a
    quarter of its length as the size, gives exactly four chunks of a
    quarter of the length each. *)
Theorem split_list_partition {A : Type} (l : list A) :
  (forall s, 0 < s ->
     exists cs,
       Streetside._split_list l s = Ok cs
       /\ List.concat cs = l
       /\ (forall i c, nth_error cs i = Some c ->
             c = Py.slice l (Z.of_nat i * s) (Z.of_nat i * s + s))
       /\ (forall i c, nth_error cs i = Some c ->
             (S i < List.length cs)%nat -> Py.len c = s)
       /\ (forall c, In c cs -> 1 <= Py.len c <= s))
  /\ (forall k : nat, (1 <= k)%nat -> Py.len l = 4 ^ Z.of_nat k ->
        exists a b c d,
          Streetside._split_list l (Py.len l / 4) = Ok [a; b; c; d]
          /\ (a ++ b ++ c ++ d)%list = l
          /\ Py.len a = Py.len l / 4 /\ Py.len b = Py.len l / 4
          /\ Py.len c = Py.len l / 4 /\ Py.len d = Py.len l / 4).
Proof.
  split.
  - intros s Hs. now apply split_list_positive.
  - intros k Hk Hl.
    assert (Hm : List.length l = (4 * Z.to_nat (4 ^ Z.of_nat (k - 1)))%nat).
    { unfold Py.len in Hl. rewrite pow4_quarter in Hl by assumption.
      pose proof (pow4_pos (k - 1)). lia. }
    pose proof (pow4_pos (k - 1)) as Hpos.
    assert (H1 : (1 <= Z.to_nat (4 ^ Z.of_nat (k - 1)))%nat) by lia.
    exists (quarter 0 l), (quarter 1 l), (quarter 2 l), (quarter 3 l).
    split; [apply (split_list_quarters l _ H1 Hm)|].
    split; [apply (quarters_concat l _ Hm)|].
    rewrite (quarter_len_Z l _ Hm). unfold Py.len.
    rewrite !(quarter_length l _ _ Hm) by lia. lia.
Qed.

Lemma split_list_partition_witness :
  0 < 2 /\ Streetside._split_list [1; 2; 3; 4; 5] 2 = Ok [[1; 2]; [3; 4]; [5]].
Proof.
  split; [lia|].
  destruct (proj1 (split_list_partition [1; 2; 3; 4; 5]) 2 ltac:(lia))
    as (cs & H & _).
  rewrite H. vm_compute in H. injection H as <-. reflexivity.
Defined.

(** ** The recursive face stitch *)

Lemma Forall_firstn {A : Type} (P : A -> Prop) (n : nat) (l : list A) :
  Forall P l -> Forall P (firstn n l).
Proof.
  intros H. rewrite <- (firstn_skipn n l) in H.
  now apply Forall_app in H.
Qed.

Lemma Forall_skipn {A : Type} (P : A -> Prop) (n : nat) (l : list A) :
  Forall P l -> Forall P (skipn n l).
Proof.
  intros H. rewrite <- (firstn_skipn n l) in H.
  now apply Forall_app in H.
Qed.

Lemma Forall_quarter {A : Type} (P : A -> Prop) (i : nat) (l : list A) :
  Forall P l -> Forall P (quarter i l).
Proof. intros H. unfold quarter. now apply Forall_firstn, Forall_skipn. Qed.

Lemma isqrt_pow4 (k : nat) : Py.isqrt (4 ^ Z.of_nat k) = 2 ^ Z.of_nat k.
Proof.
  unfold Py.isqrt. change 4 with (2 * 2).
  rewrite Z.pow_mul_l. apply Z.sqrt_square. apply Z.pow_nonneg. lia.
Qed.

Lemma half_pow2 (k : nat) : 2 ^ Z.of_nat (S k) / 2 = 2 ^ Z.of_nat k.
Proof.
  rewrite Nat2Z.inj_succ, Z.pow_succ_r, Z.mul_comm by lia.
  apply Z.div_mul. discriminate.
Qed.

Lemma index_error {A : Type} (l : list A) (i : Z) (e : exception) :
  Py.index l i = Err e -> e = IndexError.
Proof.
  unfold Py.index. destruct (_ <? 0); [congruence|].
  destruct (nth_error l _); congruence.
Qed.

Lemma index_ok_in {A : Type} (l : list A) (i : Z) (a : A) :
  Py.index l i = Ok a -> In a l.
Proof.
  unfold Py.index. destruct (_ <? 0); [discriminate|].
  destruct (nth_error l _) eqn:E; [|discriminate].
  intros H. injection H as <-. now apply nth_error_In in E.
Qed.

Lemma two_by_two_pastes (h : Z) (tl tr bl br : PIL.Image) :
  PIL.pastes (two_by_two h tl tr bl br)
  = [(tl, (0, 0)); (tr, (h, 0)); (bl, (0, h)); (br, (h, h))].
Proof. reflexivity. Qed.

Lemma two_by_two_size data_size (h : Z) (tl tr bl br : PIL.Image) :
  PIL.size data_size (two_by_two h tl tr bl br) = (h * 2, h * 2).
Proof. reflexivity. Qed.

Section StitchFacts.

Variable decodable : PIL.bytes -> bool.

Let stitch_at := Streetside._stitch_face_at decodable.

Lemma stitch_four_fetched (t0 t1 t2 t3 : Streetside.tile) :
  Forall (fetched decodable) [t0; t1; t2; t3] ->
  exists img,
    Streetside._stitch_four decodable [t0; t1; t2; t3] = Ok img
    /\ quad_image 1 [t0; t1; t2; t3] = Some img.
Proof.
  intros H.
  inversion_clear H as [|? ? (d0 & E0 & D0) H'].
  inversion_clear H' as [|? ? (d1 & E1 & D1) H].
  inversion_clear H as [|? ? (d2 & E2 & D2) H'].
  inversion_clear H' as [|? ? (d3 & E3 & D3) _].
  exists (two_by_two 256 (PIL.Opened d0) (PIL.Opened d1)
                     (PIL.Opened d2) (PIL.Opened d3)).
  split.
  - unfold Streetside._stitch_four. cbn [firstn Streetside.stitch_four_loop].
    unfold Streetside.get_image, Streetside.Image_open.
    rewrite E0, E1, E2, E3. cbn [bind]. rewrite D0, D1, D2, D3.
    reflexivity.
  - cbn [quad_image]. unfold quarter. cbn [List.length Nat.div].
    cbn. rewrite E0, E1, E2, E3. reflexivity.
Qed.

(** One activation on a face of more than four tiles, a multiple of
    four: the four quarters are stitched in turn by the activations
    below and pasted on a fresh canvas. *)
Lemma stitch_face_at_unfold (n m : nat) (face : list Streetside.tile) :
  (2 <= m)%nat -> List.length face = (4 * m)%nat ->
  stitch_at (S n) face =
  let h := (Py.isqrt (Py.len face) / 2) * 256 in
  q0 <- stitch_at n (quarter 0 face) ;;
  q1 <- stitch_at n (quarter 1 face) ;;
  q2 <- stitch_at n (quarter 2 face) ;;
  q3 <- stitch_at n (quarter 3 face) ;;
  Ok (two_by_two h q0 q1 q2 q3).
Proof.
  intros Hm Hl. unfold stitch_at. cbn [Streetside._stitch_face_at].
  destruct (Z.leb_spec (Py.len face) 4) as [H|_];
    [unfold Py.len in H; lia|].
  rewrite (split_list_quarters face m) by (assumption || lia).
  reflexivity.
Qed.

(** More stack never changes a result that is not a [RecursionError]. *)
Lemma stitch_at_mono (n : nat) :
  forall face r,
    stitch_at n face = r -> r <> Err RecursionError ->
    forall m, (n <= m)%nat -> stitch_at m face = r.
Proof.
  induction n as [|n IH]; intros face r Hr Hne m Hm.
  - cbn in Hr. congruence.
  - destruct m as [|m]; [lia|].
    unfold stitch_at in *. cbn [Streetside._stitch_face_at] in *.
    destruct (Py.len face <=? 4); [exact Hr|].
    destruct (Streetside._split_list face (Py.len face / 4)) as [split|e];
      cbn [bind] in *; [|exact Hr].
    repeat
      match goal with
      | |- context [Py.index split ?i] =>
          destruct (Py.index split i) as [?s|?e]; cbn [bind] in *;
          [|exact Hr]
      | |- context [Streetside._stitch_face_at decodable m ?s] =>
          let E := fresh "E" in
          destruct (Streetside._stitch_face_at decodable n s) as [?q|?e] eqn:E;
          cbn [bind] in Hr;
          [ rewrite (IH _ _ E ltac:(discriminate) m ltac:(lia)); cbn [bind]
          | rewrite (IH _ _ E ltac:(congruence) m ltac:(lia)); exact Hr ]
      end.
    exact Hr.
Qed.

Lemma quad_image_S (k : nat) (face : list Streetside.tile) :
  quad_image (S k) face =
  match quad_image k (quarter 0 face), quad_image k (quarter 1 face),
        quad_image k (quarter 2 face), quad_image k (quarter 3 face) with
  | Some tl, Some tr, Some bl, Some br =>
      Some (two_by_two (256 * 2 ^ Z.of_nat k) tl tr bl br)
  | _, _, _, _ => None
  end.
Proof. reflexivity. Qed.

Lemma quad_image_size (k : nat) (face : list Streetside.tile) img :
  quad_image (S k) face = Some img ->
  forall data_size,
    PIL.size data_size img
    = (256 * 2 ^ Z.of_nat (S k), 256 * 2 ^ Z.of_nat (S k)).
Proof.
  rewrite quad_image_S. intros H ds.
  destruct (quad_image k (quarter 0 face)) as [tl|]; [|discriminate].
  destruct (quad_image k (quarter 1 face)) as [tr|]; [|discriminate].
  destruct (quad_image k (quarter 2 face)) as [bl|]; [|discriminate].
  destruct (quad_image k (quarter 3 face)) as [br|]; [|discriminate].
  assert (E : two_by_two (256 * 2 ^ Z.of_nat k) tl tr bl br = img)
    by congruence.
  rewrite <- E, two_by_two_size.
  rewrite Nat2Z.inj_succ, Z.pow_succ_r by lia.
  f_equal; lia.
Qed.

(** A face of 4^(k+1) fetched tiles: [k + 1] activations stitch it, into
    the image the specification describes; [k] are too few. *)
Lemma stitch_power (k : nat) :
  forall face,
    Py.len face = 4 ^ Z.of_nat (S k) ->
    Forall (fetched decodable) face ->
    exists img,
      stitch_at (S k) face = Ok img
      /\ quad_image (S k) face = Some img
      /\ stitch_at k face = Err RecursionError.
Proof.
  induction k as [|k IH]; intros face Hl Hf.
  - change (4 ^ Z.of_nat 1) with 4 in Hl. unfold Py.len in Hl.
    destruct face as [|t0 [|t1 [|t2 [|t3 [|t4 face]]]]];
      cbn [List.length] in Hl; try lia.
    destruct (stitch_four_fetched t0 t1 t2 t3 Hf) as (img & H4 & Hq).
    exists img. split; [exact H4|]. split; [exact Hq | reflexivity].
  - pose proof (pow4_pos (S k)) as Hpos.
    assert (Hm : List.length face = (4 * Z.to_nat (4 ^ Z.of_nat (S k)))%nat).
    { unfold Py.len in Hl. rewrite pow4_quarter in Hl by lia.
      replace (S (S k) - 1)%nat with (S k) in Hl by lia. lia. }
    assert (H2 : (2 <= Z.to_nat (4 ^ Z.of_nat (S k)))%nat).
    { rewrite Nat2Z.inj_succ, Z.pow_succ_r by lia.
      pose proof (pow4_pos k). lia. }
    assert (Hq : forall i, (i < 4)%nat ->
              exists img,
                stitch_at (S k) (quarter i face) = Ok img
                /\ quad_image (S k) (quarter i face) = Some img
                /\ stitch_at k (quarter i face) = Err RecursionError).
    { intros i Hi. apply IH; [|now apply Forall_quarter].
      unfold Py.len. rewrite (quarter_length face _ i Hm Hi). lia. }
    destruct (Hq 0%nat) as (q0 & S0 & Q0 & R0); [lia|].
    destruct (Hq 1%nat) as (q1 & S1 & Q1 & _); [lia|].
    destruct (Hq 2%nat) as (q2 & S2 & Q2 & _); [lia|].
    destruct (Hq 3%nat) as (q3 & S3 & Q3 & _); [lia|].
    exists (two_by_two (256 * 2 ^ Z.of_nat (S k)) q0 q1 q2 q3).
    split; [|split].
    + rewrite (stitch_face_at_unfold _ _ face H2 Hm).
      rewrite S0, S1, S2, S3. cbn [bind].
      rewrite Hl, isqrt_pow4, half_pow2, Z.mul_comm. reflexivity.
    + now rewrite quad_image_S, Q0, Q1, Q2, Q3.
    + rewrite (stitch_face_at_unfold _ _ face H2 Hm).
      rewrite R0. reflexivity.
Qed.

Lemma stitch_four_loop_error (l : list Streetside.tile) :
  forall sub_tile idx,
    Streetside.stitch_four_loop decodable sub_tile idx l <> Err RecursionError.
Proof.
  induction l as [|t l IH]; intros sub_tile idx; cbn [Streetside.stitch_four_loop].
  - discriminate.
  - unfold Streetside.get_image, Streetside.Image_open.
    destruct (Streetside.image t) as [data|]; [|discriminate]. cbn [bind].
    destruct (decodable data); [|discriminate]. cbn [bind]. apply IH.
Qed.

(** Totality: the stack that [_stitch_face] allows is enough for every
    face, so its result is never the [RecursionError] of the model. *)
Lemma stitch_face_frames (face : list Streetside.tile) :
  Streetside._stitch_face decodable face <> Err RecursionError.
Proof.
  unfold Streetside._stitch_face.
  remember (List.length face) as n eqn:Hn. revert face Hn.
  induction n as [n IH] using lt_wf_ind. intros face Hn.
  cbn [Streetside._stitch_face_at].
  destruct (Z.leb_spec (Py.len face) 4) as [_|Hlen];
    [apply stitch_four_loop_error|].
  assert (Hsize : 0 < Py.len face / 4)
    by (apply Z.div_str_pos; lia).
  destruct (split_list_positive face _ Hsize)
    as (split & -> & _ & _ & _ & Hchunk).
  cbn [bind].
  assert (Hsub : forall i s,
            Py.index split i = Ok s ->
            Streetside._stitch_face_at decodable n s <> Err RecursionError).
  { intros i s Hs. apply index_ok_in, Hchunk in Hs.
    assert (Hlt : (List.length s < n)%nat).
    { unfold Py.len in *.
      pose proof (Z.mul_div_le (Z.of_nat (List.length face)) 4 ltac:(lia)).
      lia. }
    pose proof (IH (List.length s) Hlt s eq_refl) as Hs'.
    assert (Hle : (S (List.length s) <= n)%nat) by lia.
    pose proof (stitch_at_mono (S (List.length s)) s _ eq_refl Hs' n Hle) as Hm.
    unfold stitch_at in Hm. now rewrite Hm. }
  repeat
    match goal with
    | |- context [Py.index split ?i] =>
        let E := fresh "E" in
        destruct (Py.index split i) as [?s|?e] eqn:E; cbn [bind];
        [ pose proof (Hsub _ _ E)
        | apply index_error in E; subst; discriminate ]
    | |- context [Streetside._stitch_face_at decodable n ?s] =>
        destruct (Streetside._stitch_face_at decodable n s) as [?q|?e];
        cbn [bind]; [|assumption]
    end.
  discriminate.
Qed.

(** C2. A face of exactly 4^k fetched tiles, k >= 1, is stitched into a
    square image of side 256 * 2^k. The stitch is exactly k activations
    of the face stitch deep: k stack frames suffice and k - 1 do not. The
    image is the one the specification describes level by level: the four
    contiguous quarters of the tile list, of 4^(k-1) tiles each, are
    stitched one level below and pasted top-left, top-right, bottom-left,
    bottom-right on cells of side 256 * 2^(k-1); for k >= 2 the quarters
    are what the list split returns, and for the four tiles of k = 1 the
    cells hold tile 0, 1, 2 and 3 at 256-pixel granularity. *)
Theorem stitch_face_power_of_four (k : nat) (face : list Streetside.tile) :
  (1 <= k)%nat ->
  Py.len face = 4 ^ Z.of_nat k ->
  Forall (fetched decodable) face ->
  exists img,
    Streetside._stitch_face decodable face = Ok img
    /\ Streetside._stitch_face_at decodable k face = Ok img
    /\ Streetside._stitch_face_at decodable (k - 1) face = Err RecursionError
    /\ (forall data_size,
          PIL.size data_size img
          = (256 * 2 ^ Z.of_nat k, 256 * 2 ^ Z.of_nat k))
    /\ quad_image k face = Some img
    /\ (quarter 0 face ++ quarter 1 face ++ quarter 2 face
          ++ quarter 3 face)%list = face
    /\ (forall i, (i < 4)%nat ->
          Py.len (quarter i face) = 4 ^ Z.of_nat (k - 1))
    /\ (exists tl tr bl br,
          img = two_by_two (256 * 2 ^ Z.of_nat (k - 1)) tl tr bl br
          /\ quad_image (k - 1) (quarter 0 face) = Some tl
          /\ quad_image (k - 1) (quarter 1 face) = Some tr
          /\ quad_image (k - 1) (quarter 2 face) = Some bl
          /\ quad_image (k - 1) (quarter 3 face) = Some br
          /\ ((2 <= k)%nat ->
                Streetside._split_list face (Py.len face / 4)
                = Ok [quarter 0 face; quarter 1 face;
                      quarter 2 face; quarter 3 face]
                /\ Streetside._stitch_face_at decodable (k - 1)
                     (quarter 0 face) = Ok tl
                /\ Streetside._stitch_face_at decodable (k - 1)
                     (quarter 1 face) = Ok tr
                /\ Streetside._stitch_face_at decodable (k - 1)
                     (quarter 2 face) = Ok bl
                /\ Streetside._stitch_face_at decodable (k - 1)
                     (quarter 3 face) = Ok br))
    /\ (k = 1%nat ->
          exists t0 t1 t2 t3 d0 d1 d2 d3,
            face = [t0; t1; t2; t3]
            /\ Streetside.image t0 = Some d0
            /\ Streetside.image t1 = Some d1
            /\ Streetside.image t2 = Some d2
            /\ Streetside.image t3 = Some d3
            /\ img = two_by_two 256 (PIL.Opened d0) (PIL.Opened d1)
                                (PIL.Opened d2) (PIL.Opened d3)).
Proof.
  intros Hk Hl Hf. destruct k as [|k]; [lia|]. clear Hk.
  replace (S k - 1)%nat with k by lia.
  destruct (stitch_power k face Hl Hf) as (img & Hs & Hq & Hr).
  pose proof (pow4_pos k) as Hpos.
  assert (Hm : List.length face = (4 * Z.to_nat (4 ^ Z.of_nat k))%nat).
  { unfold Py.len in Hl. rewrite pow4_quarter in Hl by lia.
    replace (S k - 1)%nat with k in Hl by lia. lia. }
  assert (Hql : forall i, (i < 4)%nat ->
            Py.len (quarter i face) = 4 ^ Z.of_nat k).
  { intros i Hi. unfold Py.len.
    rewrite (quarter_length face _ i Hm Hi). lia. }
  exists img.
  split.
  { apply (stitch_at_mono (S k) face (Ok img) Hs); [discriminate|].
    pose proof (Z.pow_gt_lin_r 4 (Z.of_nat (S k)) ltac:(lia) ltac:(lia)).
    unfold Py.len in Hl. lia. }
  split; [exact Hs|]. split; [exact Hr|].
  split; [now apply (quad_image_size k face)|].
  split; [exact Hq|].
  split; [apply (quarters_concat face _ Hm)|].
  split; [exact Hql|].
  split.
  - pose proof Hq as Hq'. rewrite quad_image_S in Hq'.
    destruct (quad_image k (quarter 0 face)) as [tl|] eqn:Q0; [|discriminate].
    destruct (quad_image k (quarter 1 face)) as [tr|] eqn:Q1; [|discriminate].
    destruct (quad_image k (quarter 2 face)) as [bl|] eqn:Q2; [|discriminate].
    destruct (quad_image k (quarter 3 face)) as [br|] eqn:Q3; [|discriminate].
    exists tl, tr, bl, br.
    split; [congruence|]. do 4 (split; [reflexivity|]).
    intros H2. destruct k as [|k]; [lia|].
    split.
    { assert (H1 : (1 <= Z.to_nat (4 ^ Z.of_nat (S k)))%nat) by lia.
      apply (split_list_quarters face _ H1 Hm). }
    assert (Hsub : forall i q, (i < 4)%nat ->
              quad_image (S k) (quarter i face) = Some q ->
              stitch_at (S k) (quarter i face) = Ok q).
    { intros i q Hi Hqi.
      destruct (stitch_power k (quarter i face) (Hql i Hi)
                  (Forall_quarter _ i face Hf)) as (q' & Hs' & Hq'' & _).
      congruence. }
    repeat split; apply Hsub; (lia || assumption).
  - intros Hk1. assert (k = 0%nat) as -> by lia. clear Hk1.
    change (4 ^ Z.of_nat 1) with 4 in Hl. unfold Py.len in Hl.
    destruct face as [|t0 [|t1 [|t2 [|t3 [|t4 face]]]]];
      cbn [List.length] in Hl; try lia.
    inversion_clear Hf as [|? ? (d0 & E0 & D0) H'].
    inversion_clear H' as [|? ? (d1 & E1 & D1) H].
    inversion_clear H as [|? ? (d2 & E2 & D2) H'].
    inversion_clear H' as [|? ? (d3 & E3 & D3) _].
    exists t0, t1, t2, t3, d0, d1, d2, d3.
    do 5 (split; [reflexivity || assumption|]).
    rewrite quad_image_S in Hq. unfold quarter in Hq.
    cbn [List.length Nat.div Nat.divmod fst Nat.mul Nat.add skipn firstn
         quad_image] in Hq.
    rewrite E0, E1, E2, E3 in Hq. cbn [option_map] in Hq.
    change (256 * 2 ^ Z.of_nat 0) with 256 in Hq. congruence.
Qed.

End StitchFacts.

Lemma sample_face_fetched (n : Z) :
  Forall (fetched always_decodable) (sample_face n).
Proof.
  unfold sample_face. apply Forall_map, Forall_forall. intros i _.
  eexists. split; reflexivity.
Qed.

Lemma stitch_face_power_of_four_witness :
  (1 <= 2)%nat /\ Py.len (sample_face 16) = 4 ^ Z.of_nat 2 /\
  exists img,
    Streetside._stitch_face always_decodable (sample_face 16) = Ok img
    /\ forall data_size, PIL.size data_size img = (1024, 1024).
Proof.
  split; [lia|]. split; [reflexivity|].
  destruct (stitch_face_power_of_four always_decodable 2 (sample_face 16))
    as (img & H & _ & _ & Hsize & _).
  - lia.
  - reflexivity.
  - apply sample_face_fetched.
  - exists img. split; [exact H | exact Hsize].
Defined.

(** The sixteen tiles of a zoom-2 face land where the quadtree puts them:
    the first four tiles fill the top-left quadrant. *)
Example stitch_sixteen :
  Streetside._stitch_face always_decodable (sample_face 16) =
  let cell (i : Z) := PIL.Opened (repeat Byte.x00 (Z.to_nat i)) in
  let quad (i : Z) :=
    two_by_two 256 (cell i) (cell (i + 1)) (cell (i + 2)) (cell (i + 3)) in
  Ok (two_by_two 512 (quad 0) (quad 4) (quad 8) (quad 12)).
Proof. vm_compute. reflexivity. Qed.

(** ** The grid engine's tile list *)

Lemma string_app_nil_r (a : string) : a ++ "" = a.
Proof. induction a as [|ch a IH]; simpl; [reflexivity | now rewrite IH]. Qed.

Lemma format_IMAGE_URL (id : string) (x y zoom : Z) :
  Streetview.format Streetview.IMAGE_URL [id; Py.str x; Py.str y; Py.str zoom]
  = Ok (first_party_url id x y zoom).
Proof.
  unfold first_party_url. cbn [Streetview.format Streetview.IMAGE_URL nth_error bind].
  now rewrite string_app_nil_r.
Qed.

Lemma format_THIRD_PARTY_IMAGE_URL (id : string) (x y zoom : Z) :
  Streetview.format Streetview.THIRD_PARTY_IMAGE_URL
    [id; Py.str x; Py.str y; Py.str zoom]
  = Ok (third_party_url id x y zoom).
Proof.
  unfold third_party_url.
  cbn [Streetview.format Streetview.THIRD_PARTY_IMAGE_URL nth_error bind].
  now rewrite string_app_nil_r.
Qed.

Lemma templates_differ (id id' : string) (x y zoom x' y' zoom' : Z) :
  third_party_url id x y zoom <> first_party_url id' x' y' zoom'.
Proof. unfold third_party_url, first_party_url. cbn [append]. discriminate. Qed.

Lemma ceil_div_is_ceiling (a b : Z) :
  0 < b -> is_ceiling (- ((- a) / b)) a b.
Proof.
  intros Hb. unfold is_ceiling.
  pose proof (Z.div_mod (- a) b ltac:(lia)) as E.
  pose proof (Z.mod_pos_bound (- a) b Hb) as B. nia.
Qed.

Lemma product_length {A B : Type} (xs : list A) (ys : list B) :
  List.length (Streetview.product xs ys)
  = (List.length xs * List.length ys)%nat.
Proof.
  unfold Streetview.product. induction xs as [|x xs IH]; [reflexivity|].
  cbn [flat_map]. rewrite length_app, length_map, IH. reflexivity.
Qed.

Lemma in_product {A B : Type} (xs : list A) (ys : list B) (x : A) (y : B) :
  In (x, y) (Streetview.product xs ys) <-> In x xs /\ In y ys.
Proof.
  unfold Streetview.product. rewrite in_flat_map. split.
  - intros (x' & Hx & H). apply in_map_iff in H.
    destruct H as (y' & E & Hy). inversion E; subst. now split.
  - intros (Hx & Hy). exists x. split; [assumption|].
    apply in_map_iff. now exists y.
Qed.

Lemma product_NoDup {A B : Type} (xs : list A) (ys : list B) :
  NoDup xs -> NoDup ys -> NoDup (Streetview.product xs ys).
Proof.
  intros Hx Hy. unfold Streetview.product.
  induction Hx as [|x xs Hnin Hx IH]; [constructor|].
  cbn [flat_map]. apply NoDup_app; [| exact IH |].
  - apply NoDup_map_NoDup_ForallPairs; [|assumption].
    intros a b _ _ E. now inversion E.
  - intros [a b] Ha Hb. apply in_map_iff in Ha.
    destruct Ha as (b' & E & _). inversion E; subst.
    apply (in_product xs ys) in Hb. tauto.
Qed.

(** Column-major order: tile (x, y) sits at position x * rows + y. *)
Lemma product_nth (cols rows : Z) (x y : Z) :
  0 <= x < cols -> 0 <= y < rows ->
  nth_error (Streetview.product (Py.range cols) (Py.range rows))
            (Z.to_nat (x * rows + y))
  = Some (x, y).
Proof.
  intros Hx Hy. unfold Streetview.product, Py.range.
  assert (Hn : forall (n : nat) (start : nat) (k : nat),
            (k < n)%nat ->
            nth_error
              (flat_map (fun a : Z =>
                           map (fun b : Z => (a, b))
                               (map Z.of_nat (seq 0 (Z.to_nat rows))))
                        (map Z.of_nat (seq start n)))
              (k * Z.to_nat rows + Z.to_nat y)
            = Some (Z.of_nat (start + k), y)).
  { induction n as [|n IH]; intros start k Hk; [lia|].
    cbn [seq map flat_map].
    destruct k as [|k].
    - cbn [Nat.mul Nat.add]. rewrite nth_error_app1
        by (rewrite !length_map, length_seq; lia).
      rewrite !nth_error_map, nth_error_seq.
      destruct (Nat.ltb_spec (Z.to_nat y) (Z.to_nat rows)); [|lia].
      cbn. do 2 f_equal; lia.
    - rewrite nth_error_app2 by (rewrite !length_map, length_seq; lia).
      rewrite !length_map, length_seq.
      replace (S k * Z.to_nat rows + Z.to_nat y - Z.to_nat rows)%nat
        with (k * Z.to_nat rows + Z.to_nat y)%nat by lia.
      rewrite IH by lia. do 3 f_equal. lia. }
  replace (Z.to_nat (x * rows + y))
    with (Z.to_nat x * Z.to_nat rows + Z.to_nat y)%nat by nia.
  rewrite (Hn (Z.to_nat cols) 0%nat (Z.to_nat x)) by lia.
  do 2 f_equal. lia.
Qed.

Lemma mapM_ok_in {A B : Type} (f : A -> result B) (l : list A) (r : list B) :
  mapM f l = Ok r ->
  forall b, In b r -> exists a, In a l /\ f a = Ok b.
Proof.
  revert r. induction l as [|a l IH]; simpl; intros r H b Hb.
  - inversion H; subst. contradiction.
  - destruct (f a) as [b0|] eqn:Ea; simpl in H; [|discriminate].
    destruct (mapM f l) as [bs|]; simpl in H; [|discriminate].
    inversion H; subst. destruct Hb as [<-|Hb].
    + exists a. split; [now left | assumption].
    + destruct (IH bs eq_refl b Hb) as (a' & Ha' & Hf).
      exists a'. split; [now right | assumption].
Qed.

Section GridFacts.

Variable Meta : Type.
Variable is_third_party_panoid : string -> bool.

Implicit Types (pano : Streetview.StreetViewPanorama Meta) (zoom : Z).

Let generate := Streetview._generate_tile_list (Meta := Meta)
                  is_third_party_panoid.

(** The URL of the tile at (x, y), as the engine formats it. *)
Lemma tile_of_coordinates pano zoom (x y : Z) :
  (u <- Streetview.format
          (if is_third_party_panoid (Streetview.id pano)
           then Streetview.THIRD_PARTY_IMAGE_URL else Streetview.IMAGE_URL)
          [Streetview.id pano; Py.str x; Py.str y; Py.str zoom] ;;
   Ok (Tile.mk x y u))
  = Ok (Tile.mk x y
          (grid_url (is_third_party_panoid (Streetview.id pano))
                    (Streetview.id pano) x y zoom)).
Proof.
  unfold grid_url. destruct (is_third_party_panoid (Streetview.id pano)).
  - now rewrite format_THIRD_PARTY_IMAGE_URL.
  - now rewrite format_IMAGE_URL.
Qed.

Lemma generate_grid_counts pano zoom (sz ts : Size.t) (cols rows : Z) :
  Streetview.image_size_at pano zoom = Ok sz ->
  Streetview.tile_size pano = Some ts ->
  Py.ceil_div (Size.x sz) (Size.x ts) = Ok cols ->
  Py.ceil_div (Size.y sz) (Size.y ts) = Ok rows ->
  generate pano zoom =
  Ok (map (fun xy : Z * Z =>
             Tile.mk (fst xy) (snd xy)
               (grid_url (is_third_party_panoid (Streetview.id pano))
                         (Streetview.id pano) (fst xy) (snd xy) zoom))
          (Streetview.product (Py.range cols) (Py.range rows))).
Proof.
  intros Hsz Hts Hc Hr. unfold generate, Streetview._generate_tile_list.
  rewrite Hsz. unfold Streetview.tile_size_of. rewrite Hts. cbn [bind].
  rewrite Hc, Hr.
  cbn [bind]. apply mapM_ok_map. intros [x y] _. cbn [fst snd].
  apply tile_of_coordinates.
Qed.

(** Below 2^53 the float quotients have the exact ceilings. *)
Lemma generate_grid pano zoom (sz ts : Size.t) :
  Streetview.image_size_at pano zoom = Ok sz ->
  Streetview.tile_size pano = Some ts ->
  0 <= Size.x sz < 2 ^ 53 -> 0 <= Size.y sz < 2 ^ 53 ->
  0 < Size.x ts < 2 ^ 53 -> 0 < Size.y ts < 2 ^ 53 ->
  generate pano zoom =
  Ok (map (fun xy : Z * Z =>
             Tile.mk (fst xy) (snd xy)
               (grid_url (is_third_party_panoid (Streetview.id pano))
                         (Streetview.id pano) (fst xy) (snd xy) zoom))
          (Streetview.product
             (Py.range (- ((- Size.x sz) / Size.x ts)))
             (Py.range (- ((- Size.y sz) / Size.y ts))))).
Proof.
  intros Hsz Hts Hx Hy Htx Hty.
  apply (generate_grid_counts pano zoom sz ts); try assumption.
  - now apply ceil_div_exact.
  - now apply ceil_div_exact.
Qed.

Lemma grid_url_varies_in_x (third_party : bool) (id : string) (y zoom : Z) :
  exists pre suf,
    forall x, grid_url third_party id x y zoom = pre ++ Py.str x ++ suf.
Proof.
  destruct third_party; unfold grid_url.
  - exists ("https://lh3.ggpht.com/p/" ++ id ++ "=x"),
           ("-y" ++ Py.str y ++ "-z" ++ Py.str zoom).
    intros x. unfold third_party_url. now rewrite !string_app_assoc.
  - exists ("https://cbk0.google.com/cbk?output=tile&panoid=" ++ id
              ++ "&zoom=" ++ Py.str zoom ++ "&x="),
           ("&y=" ++ Py.str y).
    intros x. unfold first_party_url. now rewrite !string_app_assoc.
Qed.

(** C3, as amended. For a panorama whose image size at the chosen zoom is
    (width, height) and whose tile size is (tile_width, tile_height), all
    four below 2^53 (the dimensions not negative, the tile dimensions
    positive), the grid engine's tile list has exactly cols * rows tiles,
    cols and rows the ceilings of width / tile_width and
    height / tile_height: one tile per pair (x, y) with x in [0, cols) and
    y in [0, rows), all y for x = 0 first, then all y for x = 1, and so on
    (the tile (x, y) is at position x * rows + y). For 512 x 256 with
    256 x 256 tiles these are the two tiles (0, 0) and (1, 0), whose URLs
    differ only in the x field. *)
Theorem grid_tile_list pano zoom (width height tile_width tile_height : Z) :
  Streetview.image_size_at pano zoom = Ok (Size.mk width height) ->
  Streetview.tile_size pano = Some (Size.mk tile_width tile_height) ->
  0 <= width < 2 ^ 53 -> 0 <= height < 2 ^ 53 ->
  0 < tile_width < 2 ^ 53 -> 0 < tile_height < 2 ^ 53 ->
  exists cols rows tiles,
    is_ceiling cols width tile_width
    /\ is_ceiling rows height tile_height
    /\ Streetview._generate_tile_list is_third_party_panoid pano zoom = Ok tiles
    /\ Py.len tiles = cols * rows
    /\ map coordinates tiles = Streetview.product (Py.range cols) (Py.range rows)
    /\ NoDup (map coordinates tiles)
    /\ (forall x y, In (x, y) (map coordinates tiles)
                    <-> 0 <= x < cols /\ 0 <= y < rows)
    /\ (forall x y, 0 <= x < cols -> 0 <= y < rows ->
          nth_error tiles (Z.to_nat (x * rows + y))
          = Some (Tile.mk x y
                    (grid_url (is_third_party_panoid (Streetview.id pano))
                              (Streetview.id pano) x y zoom)))
    /\ (width = 512 -> height = 256 -> tile_width = 256 -> tile_height = 256 ->
          cols = 2 /\ rows = 1
          /\ exists pre suf,
               tiles = [Tile.mk 0 0 (pre ++ "0" ++ suf);
                        Tile.mk 1 0 (pre ++ "1" ++ suf)]).
Proof.
  intros Hsz Hts Hw Hh Htw Hth.
  pose proof (generate_grid pano zoom _ _ Hsz Hts Hw Hh Htw Hth) as Hgen.
  cbn [Size.x Size.y] in Hgen. unfold generate in Hgen.
  pose proof (ceil_div_is_ceiling width tile_width (proj1 Htw)) as Hc.
  pose proof (ceil_div_is_ceiling height tile_height (proj1 Hth)) as Hr.
  set (cols := - (- width / tile_width)) in *.
  set (rows := - (- height / tile_height)) in *.
  assert (Hc0 : 0 <= cols) by (unfold is_ceiling in Hc; nia).
  assert (Hr0 : 0 <= rows) by (unfold is_ceiling in Hr; nia).
  assert (Hco : forall l : list (Z * Z),
            map coordinates
              (map (fun xy : Z * Z =>
                      Tile.mk (fst xy) (snd xy)
                        (grid_url (is_third_party_panoid (Streetview.id pano))
                                  (Streetview.id pano) (fst xy) (snd xy) zoom)) l)
            = l).
  { intros l. rewrite map_map. unfold coordinates. cbn [Tile.x Tile.y].
    rewrite <- (map_id l) at 2. apply map_ext. now intros []. }
  eexists cols, rows, _.
  split; [exact Hc|]. split; [exact Hr|]. split; [exact Hgen|].
  split.
  { unfold Py.len. rewrite length_map, product_length, !range_length. nia. }
  split; [apply Hco|].
  split.
  { rewrite Hco. apply product_NoDup; apply range_NoDup. }
  split.
  { intros x y. rewrite Hco, in_product, !in_range. reflexivity. }
  split.
  { intros x y Hx Hy. rewrite nth_error_map, product_nth by assumption.
    reflexivity. }
  intros -> -> -> ->.
  split; [reflexivity|]. split; [reflexivity|].
  destruct (grid_url_varies_in_x
              (is_third_party_panoid (Streetview.id pano))
              (Streetview.id pano) 0 zoom) as (pre & suf & Hv).
  exists pre, suf. subst cols rows.
  match goal with
  | |- map _ ?l = _ => change l with [(0, 0); (1, 0)]
  end.
  cbn [map fst snd].
  pose proof (Hv 0) as H0. pose proof (Hv 1) as H1.
  change (Py.str 0) with "0" in H0. change (Py.str 1) with "1" in H1.
  now rewrite H0, H1.
Qed.

(** C6. Every tile of the grid engine's list has the URL of exactly one of
    the two templates, chosen by the third-party predicate on the panorama
    id: the third-party layout when it holds, the first-party layout
    otherwise. The two layouts never give the same string, and each is
    reached: a panorama whose id satisfies the predicate gets a
    third-party URL, one whose id does not gets a first-party URL. *)
Theorem grid_url_template :
  (forall pano zoom tiles t,
      Streetview._generate_tile_list is_third_party_panoid pano zoom = Ok tiles ->
      In t tiles ->
      Tile.url t =
      if is_third_party_panoid (Streetview.id pano)
      then third_party_url (Streetview.id pano) (Tile.x t) (Tile.y t) zoom
      else first_party_url (Streetview.id pano) (Tile.x t) (Tile.y t) zoom)
  /\ (forall id x y zoom id' x' y' zoom',
         third_party_url id x y zoom <> first_party_url id' x' y' zoom')
  /\ (forall (id : string) (meta : Meta),
         is_third_party_panoid id = true ->
         Streetview._generate_tile_list is_third_party_panoid
           (Streetview.mk_StreetViewPanorama id (Some [Size.mk 256 256])
              (Some (Size.mk 256 256)) meta) 0
         = Ok [Tile.mk 0 0 (third_party_url id 0 0 0)])
  /\ (forall (id : string) (meta : Meta),
         is_third_party_panoid id = false ->
         Streetview._generate_tile_list is_third_party_panoid
           (Streetview.mk_StreetViewPanorama id (Some [Size.mk 256 256])
              (Some (Size.mk 256 256)) meta) 0
         = Ok [Tile.mk 0 0 (first_party_url id 0 0 0)]).
Proof.
  split; [|split; [|split]].
  - intros pano zoom tiles t Hgen Ht.
    unfold Streetview._generate_tile_list in Hgen.
    destruct (Streetview.image_size_at pano zoom); [|discriminate].
    destruct (Streetview.tile_size_of pano); [|discriminate].
    cbn [bind] in Hgen.
    destruct (Py.ceil_div _ _); [|discriminate].
    destruct (Py.ceil_div _ _); [|discriminate].
    cbn [bind] in Hgen.
    destruct (mapM_ok_in _ _ _ Hgen t Ht) as ([x y] & _ & Hf).
    rewrite tile_of_coordinates in Hf.
    injection Hf as <-. cbn [Tile.url Tile.x Tile.y]. reflexivity.
  - intros. apply templates_differ.
  - intros id meta H.
    rewrite (generate_grid _ 0 (Size.mk 256 256) (Size.mk 256 256))
      by (reflexivity || (cbn [Size.x Size.y]; lia)).
    cbn [Streetview.id]. rewrite H. reflexivity.
  - intros id meta H.
    rewrite (generate_grid _ 0 (Size.mk 256 256) (Size.mk 256 256))
      by (reflexivity || (cbn [Size.x Size.y]; lia)).
    cbn [Streetview.id]. rewrite H. reflexivity.
Qed.

End GridFacts.

Lemma grid_tile_list_witness :
  exists tiles,
    Streetview._generate_tile_list sample_third_party (sample_pano "abc") 0
    = Ok tiles
    /\ map coordinates tiles = [(0, 0); (1, 0)].
Proof.
  destruct (grid_tile_list unit sample_third_party (sample_pano "abc") 0
              512 256 256 256)
    as (cols & rows & tiles & _ & _ & Hgen & _ & Hco & _ & _ & _ & Hex);
    try reflexivity; try lia.
  exists tiles. split; [exact Hgen|].
  destruct Hex as (-> & -> & _); try reflexivity. exact Hco.
Defined.

(** C3 as stated fails beyond the doubles: for a panorama 10^17 + 1
    pixels wide with tiles 10^17 pixels wide the ceiling of the quotient
    is 2, but the float quotient rounds to 1.0 and the tile list has one
    column, so one tile where the claim counts two. *)
Lemma wide_panorama_loses_a_column :
  ~ (forall (pano : Streetview.StreetViewPanorama unit)
            (zoom width height tile_width tile_height : Z),
        Streetview.image_size_at pano zoom = Ok (Size.mk width height) ->
        Streetview.tile_size pano = Some (Size.mk tile_width tile_height) ->
        0 <= width -> 0 <= height -> 0 < tile_width -> 0 < tile_height ->
        exists cols rows tiles,
          is_ceiling cols width tile_width
          /\ is_ceiling rows height tile_height
          /\ Streetview._generate_tile_list sample_third_party pano zoom
             = Ok tiles
          /\ Py.len tiles = cols * rows).
Proof.
  intros H.
  destruct (H wide_pano 0 (10 ^ 17 + 1) 256 (10 ^ 17) 256 eq_refl eq_refl
              ltac:(lia) ltac:(lia) ltac:(lia) ltac:(lia))
    as (cols & rows & tiles & Hc & Hr & Hgen & Hlen).
  vm_compute in Hgen. injection Hgen as <-.
  unfold is_ceiling in Hc, Hr. unfold Py.len in Hlen. cbn in Hlen.
  assert (cols = 2) by lia. assert (rows = 1) by lia. subst. discriminate.
Qed.

Lemma grid_url_template_witness :
  sample_third_party "CAoSLEFGMVFpcE1abHl0dGRBQ0tJbXJqa0JfZkF0ZWt" = true
  /\ Streetview._generate_tile_list sample_third_party
       (Streetview.mk_StreetViewPanorama
          "CAoSLEFGMVFpcE1abHl0dGRBQ0tJbXJqa0JfZkF0ZWt"
          (Some [Size.mk 256 256]) (Some (Size.mk 256 256)) tt) 0
     = Ok [Tile.mk 0 0
             "https://lh3.ggpht.com/p/CAoSLEFGMVFpcE1abHl0dGRBQ0tJbXJqa0JfZkF0ZWt=x0-y0-z0"]
  /\ sample_third_party "n-6yy1Yn9HCExxDt5BXnCw" = false
  /\ Streetview._generate_tile_list sample_third_party
       (Streetview.mk_StreetViewPanorama "n-6yy1Yn9HCExxDt5BXnCw"
          (Some [Size.mk 256 256]) (Some (Size.mk 256 256)) tt) 0
     = Ok [Tile.mk 0 0
             "https://cbk0.google.com/cbk?output=tile&panoid=n-6yy1Yn9HCExxDt5BXnCw&zoom=0&x=0&y=0"].
Proof.
  pose proof (grid_url_template unit sample_third_party) as (_ & _ & Ht & Hf).
  split; [reflexivity|].
  split; [exact (Ht "CAoSLEFGMVFpcE1abHl0dGRBQ0tJbXJqa0JfZkF0ZWt" tt eq_refl)|].
  split; [reflexivity|].
  exact (Hf "n-6yy1Yn9HCExxDt5BXnCw" tt eq_refl).
Defined.

Example grid_tiles_zoom1 :
  Streetview._generate_tile_list sample_third_party (sample_pano "abc") 1 =
  Ok (map (fun xy : Z * Z =>
             Tile.mk (fst xy) (snd xy)
               ("https://cbk0.google.com/cbk?output=tile&panoid=abc&zoom=1&x="
                  ++ Py.str (fst xy) ++ "&y=" ++ Py.str (snd xy)))
          [(0, 0); (0, 1); (1, 0); (1, 1); (2, 0); (2, 1); (3, 0); (3, 1)]).
Proof. reflexivity. Qed.

Example str_examples :
  Py.str 0 = "0" /\ Py.str 12 = "12" /\ Py.str (-3) = "-3".
Proof. repeat split. Qed.

(** ** Validation of the grid engine *)

Lemma index_in_range {A : Type} (l : list A) (i : Z) :
  0 <= i < Py.len l -> exists a, Py.index l i = Ok a.
Proof.
  intros H. unfold Py.index, Py.len in *.
  destruct (Z.ltb_spec i 0) as [?|_]; [lia|].
  destruct (Z.ltb_spec i 0) as [?|_]; [lia|].
  destruct (nth_error l (Z.to_nat i)) as [a|] eqn:E; [now exists a|].
  apply nth_error_None in E. lia.
Qed.

Lemma index_out_of_range {A : Type} (l : list A) (i : Z) :
  Py.len l <= i -> Py.index l i = Err IndexError.
Proof.
  intros H. unfold Py.index, Py.len in *.
  destruct (Z.ltb_spec i 0) as [?|_]; [lia|].
  destruct (Z.ltb_spec i 0) as [?|_]; [lia|].
  destruct (nth_error l (Z.to_nat i)) as [a|] eqn:E; [|reflexivity].
  assert (nth_error l (Z.to_nat i) <> None) as Hn by congruence.
  apply nth_error_Some in Hn. lia.
Qed.

Section ValidationFacts.

Variable Meta : Type.
Variable is_third_party_panoid : string -> bool.
Variable World : Type.
Variable get_equirectangular_panorama :
  Z -> Z -> option Size.t -> list Tile.t -> M World PIL.Image.

Implicit Types (pano : Streetview.StreetViewPanorama Meta) (zoom : Z).

Lemma generate_not_invalid_state pano zoom :
  ~ InvalidState (Streetview._generate_tile_list is_third_party_panoid pano zoom).
Proof.
  unfold InvalidState, Streetview._generate_tile_list,
    Streetview.image_size_at, Streetview.tile_size_of, Py.index.
  destruct (Streetview.image_sizes pano) as [sizes|]; [|discriminate].
  destruct (_ <? 0); [discriminate|].
  destruct (nth_error sizes _) as [sz|]; [|discriminate]. cbn [bind].
  destruct (Streetview.tile_size pano) as [ts|]; [|discriminate]. cbn [bind].
  destruct (Py.ceil_div (Size.x sz) (Size.x ts)) as [cols|e] eqn:Ec;
    [|destruct (ceil_div_error _ _ _ Ec) as [[-> _]|[-> _]]; discriminate].
  destruct (Py.ceil_div (Size.y sz) (Size.y ts)) as [rows|e] eqn:Er;
    [|destruct (ceil_div_error _ _ _ Er) as [[-> _]|[-> _]]; discriminate].
  cbn [bind].
  destruct (mapM_total
              (fun xy : Z * Z =>
                 let (x, y) := xy in
                 u <- Streetview.format
                        (if is_third_party_panoid (Streetview.id pano)
                         then Streetview.THIRD_PARTY_IMAGE_URL
                         else Streetview.IMAGE_URL)
                        [Streetview.id pano; Py.str x; Py.str y; Py.str zoom] ;;
                 Ok (Tile.mk x y u))
              (Streetview.product (Py.range cols) (Py.range rows)))
    as (r & ->).
  - intros [x y] _. rewrite tile_of_coordinates. now eexists.
  - discriminate.
Qed.

(** C7. The grid engine's validation fails with the InvalidState error if
    and only if the panorama has no image-size table (absent or empty), and
    get_panorama then fails with that error without fetching anything.
    Otherwise validation succeeds with the requested zoom clamped to
    [0, levels - 1], and get_panorama generates the tile list at the clamped
    zoom (never failing with InvalidState there) and hands it to the fetch
    and compose routine. *)
Theorem grid_invalid_state pano zoom :
  (InvalidState (Streetview._validate_get_panorama_params pano zoom)
   <-> Streetview.image_sizes pano = None
       \/ Streetview.image_sizes pano = Some [])
  /\ (InvalidState (Streetview._validate_get_panorama_params pano zoom) ->
      forall w,
        Streetview.get_panorama is_third_party_panoid
          get_equirectangular_panorama pano zoom w
        = (Err (ValueError "pano.image_sizes is None."), w))
  /\ (forall sizes,
        Streetview.image_sizes pano = Some sizes -> sizes <> [] ->
        let z := Z.max 0 (Z.min zoom (Py.len sizes - 1)) in
        Streetview._validate_get_panorama_params pano zoom = Ok z
        /\ 0 <= z <= Py.len sizes - 1
        /\ (0 <= zoom <= Py.len sizes - 1 -> z = zoom)
        /\ ~ InvalidState
             (Streetview._generate_tile_list is_third_party_panoid pano z)
        /\ exists sz,
             Streetview.image_size_at pano z = Ok sz
             /\ forall w,
                 Streetview.get_panorama is_third_party_panoid
                   get_equirectangular_panorama pano zoom w
                 = match Streetview._generate_tile_list
                           is_third_party_panoid pano z with
                   | Ok tiles =>
                       get_equirectangular_panorama (Size.x sz) (Size.y sz)
                         (Streetview.tile_size pano) tiles w
                   | Err e => (Err e, w)
                   end).
Proof.
  split; [|split].
  - unfold InvalidState, Streetview._validate_get_panorama_params.
    destruct (Streetview.image_sizes pano) as [[|sz sizes]|]; split;
      intros H; try reflexivity; try discriminate; auto.
    + destruct H as [H|H]; discriminate.
  - intros H w. unfold InvalidState in H.
    unfold Streetview.get_panorama, bindM, lift. now rewrite H.
  - intros sizes Hs Hne z.
    assert (Hlen : 1 <= Py.len sizes).
    { unfold Py.len. destruct sizes; [contradiction | cbn; lia]. }
    assert (Hv : Streetview._validate_get_panorama_params pano zoom = Ok z).
    { unfold Streetview._validate_get_panorama_params. rewrite Hs.
      destruct sizes; [contradiction | reflexivity]. }
    split; [exact Hv|]. split; [subst z; lia|]. split; [subst z; lia|].
    split; [apply generate_not_invalid_state|].
    destruct (index_in_range sizes z) as (sz & Hsz); [subst z; lia|].
    exists sz.
    assert (Hat : Streetview.image_size_at pano z = Ok sz).
    { unfold Streetview.image_size_at. now rewrite Hs. }
    split; [exact Hat|].
    intros w. unfold Streetview.get_panorama, bindM, lift.
    rewrite Hv, Hat.
    destruct (Streetview._generate_tile_list is_third_party_panoid pano z);
      reflexivity.
Qed.

End ValidationFacts.

Lemma grid_invalid_state_witness :
  InvalidState
    (Streetview._validate_get_panorama_params
       (Streetview.mk_StreetViewPanorama "abc" None None tt) 5)
  /\ Streetview._validate_get_panorama_params (sample_pano "abc") 5 = Ok 1.
Proof.
  split.
  - apply (proj1 (grid_invalid_state unit sample_third_party unit
                    (fun _ _ _ _ w => (Err KeyError, w))
                    (Streetview.mk_StreetViewPanorama "abc" None None tt) 5)).
    left. reflexivity.
  - apply (proj2 (proj2 (grid_invalid_state unit sample_third_party unit
                           (fun _ _ _ _ w => (Err KeyError, w))
                           (sample_pano "abc") 5))
             [Size.mk 512 256; Size.mk 1024 512]).
    + reflexivity.
    + discriminate.
Defined.

(** ** Zoom clamping of the cubemap engine *)

Lemma cubemap_tiles_head (panoid zoom : Z) :
  exists f rest,
    cubemap_tiles panoid zoom = (0, map f (Py.range (4 ^ zoom))) :: rest.
Proof.
  unfold cubemap_tiles.
  replace (Py.range 6) with (0 :: [1; 2; 3; 4; 5]) by reflexivity.
  rewrite map_cons. eexists _, _. reflexivity.
Qed.

Lemma cubemap_tiles_zoom_inj (panoid z1 z2 : Z) :
  0 <= z1 -> 0 <= z2 ->
  cubemap_tiles panoid z1 = cubemap_tiles panoid z2 -> z1 = z2.
Proof.
  intros H1 H2 H.
  destruct (cubemap_tiles_head panoid z1) as (f1 & r1 & E1).
  destruct (cubemap_tiles_head panoid z2) as (f2 & r2 & E2).
  rewrite E1, E2 in H.
  apply (f_equal (fun l : Streetside.faces_dict =>
                    match l with
                    | (_, tiles) :: _ => List.length tiles
                    | [] => 0%nat
                    end)) in H.
  cbv beta iota in H.
  rewrite !length_map, !range_length in H.
  pose proof (Z.pow_nonneg 4 z1 ltac:(lia)).
  pose proof (Z.pow_nonneg 4 z2 ltac:(lia)).
  apply (Z.pow_inj_r 4); lia.
Qed.

Lemma attach_enough (tiles : list PIL.bytes) :
  forall (face : list Streetside.tile) (idx : Z),
    0 <= idx ->
    (Z.to_nat idx + List.length face <= List.length tiles)%nat ->
    exists face', Streetside.attach face idx tiles = Ok face'.
Proof.
  induction face as [|t face IH]; intros idx H0 H; cbn [List.length] in H.
  - now exists [].
  - cbn [Streetside.attach].
    destruct (index_in_range tiles idx) as (data & ->);
      [unfold Py.len; lia|].
    destruct (IH (idx + 1)) as (rest & ->); [lia | lia |].
    cbn [bind]. now eexists.
Qed.

(** On the recording network every download succeeds and leaves the
    batches of the tile list on the record, in dictionary order. *)
Lemma recording_download_tiles (faces : Streetside.faces_dict) :
  forall sent,
    exists faces',
      Streetside._download_tiles recording_download faces sent
      = (Ok faces', (sent ++ url_batches faces)%list).
Proof.
  induction faces as [|[k face] rest IH]; intros sent.
  - exists []. cbn. now rewrite app_nil_r.
  - cbn [Streetside._download_tiles]. unfold bindM at 1.
    unfold recording_download at 1.
    destruct (attach_enough (map (fun _ => []) (map Streetside.url face))
                face 0) as (face' & Ha);
      [lia | rewrite !length_map; cbn; lia |].
    unfold bindM at 1. unfold lift at 1. rewrite Ha.
    unfold bindM. destruct (IH (sent ++ [map Streetside.url face])%list)
      as (rest' & ->).
    unfold ret. eexists. f_equal.
    unfold url_batches. cbn [map snd]. now rewrite <- app_assoc.
Qed.

Section CubemapFacts.

Variable World : Type.
Variable download_files_async : list string -> M World (list PIL.bytes).
Variable decodable : PIL.bytes -> bool.
Variable CubemapStitchingMethod : Type.
Variable Output : Type.
Variable stitch_cubemap_faces :
  list PIL.Image -> Z -> CubemapStitchingMethod -> result Output.

Let get_panorama :=
  Streetside.get_panorama download_files_async decodable stitch_cubemap_faces.

Lemma get_panorama_stages pano zoom method :
  get_panorama pano zoom method =
  (faces <~ lift (Streetside.get_panorama_tile_list pano zoom) ;;
   faces <~ Streetside._download_tiles download_files_async faces ;;
   lift (Streetside._stitch_panorama decodable stitch_cubemap_faces
           faces method)).
Proof. reflexivity. Qed.

(** C5. With max_zoom m in [0, 4], get_panorama clamps the requested zoom
    to [0, m] before it generates addresses: the request is the download
    and the stitch of the tile list generated at the clamped zoom, which
    always exists, and on a network that records what it is sent, the
    batches of URLs sent are exactly those of that tile list, in order.
    Two requested zooms that clamp to the same value give the same
    request and send the same URLs in the same order; zoom 10 on a
    panorama with max_zoom 3 does what zoom 3 does. (For an id below
    4^16, zooms that clamp to different values send different URLs.) *)
Theorem zoom_clamping (pano : Streetside.StreetsidePanorama) :
  0 <= Streetside.max_zoom pano <= 4 ->
  let m := Streetside.max_zoom pano in
  let clamp := fun zoom => Z.max 0 (Z.min zoom m) in
  let sends := fun zoom method sent =>
    snd (Streetside.get_panorama recording_download decodable
           stitch_cubemap_faces pano zoom method sent) in
  (forall zoom,
      0 <= clamp zoom <= m
      /\ (0 <= zoom <= m -> clamp zoom = zoom)
      /\ exists faces,
           Streetside._generate_tile_list (Streetside.id pano) (clamp zoom)
           = Ok faces
           /\ (forall method w,
                 get_panorama pano zoom method w
                 = (faces' <~ Streetside._download_tiles
                                download_files_async faces ;;
                    lift (Streetside._stitch_panorama decodable
                            stitch_cubemap_faces faces' method)) w)
           /\ (forall method sent,
                 sends zoom method sent = (sent ++ url_batches faces)%list))
  /\ (forall z1 z2,
        clamp z1 = clamp z2 ->
        (forall method w,
            get_panorama pano z1 method w = get_panorama pano z2 method w)
        /\ (forall method sent, sends z1 method sent = sends z2 method sent))
  /\ (m = 3 ->
        (forall method w,
            get_panorama pano 10 method w = get_panorama pano 3 method w)
        /\ (forall method sent, sends 10 method sent = sends 3 method sent))
  /\ (0 <= Streetside.id pano < 4 ^ 16 ->
        forall z1 z2 method sent,
          sends z1 method sent = sends z2 method sent ->
          clamp z1 = clamp z2).
Proof.
  intros Hm m clamp sends.
  assert (Hone : forall zoom,
            exists faces,
              Streetside._generate_tile_list (Streetside.id pano) (clamp zoom)
              = Ok faces
              /\ (forall method w,
                    get_panorama pano zoom method w
                    = (faces' <~ Streetside._download_tiles
                                   download_files_async faces ;;
                       lift (Streetside._stitch_panorama decodable
                               stitch_cubemap_faces faces' method)) w)
              /\ (forall method sent,
                    sends zoom method sent
                    = (sent ++ url_batches faces)%list)).
  { intros zoom.
    destruct (generate_tile_list_total (Streetside.id pano) (clamp zoom))
      as (faces & Hgen); [subst clamp m; cbv beta; lia|].
    exists faces. split; [exact Hgen|]. split.
    - intros method w. unfold get_panorama, Streetside.get_panorama.
      cbv zeta. fold m. fold (clamp zoom). rewrite Hgen. reflexivity.
    - intros method sent. unfold sends, Streetside.get_panorama.
      cbv zeta. fold m. fold (clamp zoom). rewrite Hgen.
      unfold bindM at 1. unfold lift at 1. unfold bindM.
      destruct (recording_download_tiles faces sent) as (faces' & ->).
      unfold lift.
      now destruct (Streetside._stitch_panorama decodable
                      stitch_cubemap_faces faces' method). }
  assert (Hsame : forall z1 z2,
            clamp z1 = clamp z2 ->
            (forall method w,
                get_panorama pano z1 method w = get_panorama pano z2 method w)
            /\ (forall method sent,
                  sends z1 method sent = sends z2 method sent)).
  { intros z1 z2 H.
    destruct (Hone z1) as (f1 & Hg1 & Hr1 & Hs1).
    destruct (Hone z2) as (f2 & Hg2 & Hr2 & Hs2).
    assert (f1 = f2) as -> by congruence.
    split.
    - intros method w. now rewrite Hr1, Hr2.
    - intros method sent. now rewrite Hs1, Hs2. }
  split; [|split; [|split]].
  - intros zoom. split; [subst clamp m; cbv beta; lia|].
    split; [subst clamp m; cbv beta; lia|]. apply Hone.
  - exact Hsame.
  - intros H3. apply Hsame. subst clamp. cbv beta. lia.
  - intros Hid z1 z2 method sent H.
    destruct (Hone z1) as (f1 & Hg1 & _ & Hs1).
    destruct (Hone z2) as (f2 & Hg2 & _ & Hs2).
    rewrite Hs1, Hs2 in H. apply app_inv_head in H.
    rewrite generate_tile_list_ok in Hg1, Hg2
      by (assumption || (subst clamp m; cbv beta; lia)).
    injection Hg1 as <-. injection Hg2 as <-.
    destruct (cubemap_tiles_head (Streetside.id pano) (clamp z1))
      as (g1 & r1 & E1).
    destruct (cubemap_tiles_head (Streetside.id pano) (clamp z2))
      as (g2 & r2 & E2).
    rewrite E1, E2 in H. unfold url_batches in H. cbn [map snd] in H.
    injection H as H _.
    apply (f_equal (@List.length string)) in H.
    rewrite !length_map, !range_length in H.
    assert (0 <= clamp z1 /\ 0 <= clamp z2) as [H1 H2]
      by (subst clamp m; cbv beta; lia).
    pose proof (Z.pow_nonneg 4 (clamp z1) ltac:(lia)).
    pose proof (Z.pow_nonneg 4 (clamp z2) ltac:(lia)).
    apply (Z.pow_inj_r 4); lia.
Qed.

End CubemapFacts.

Lemma zoom_clamping_witness :
  0 <= Streetside.max_zoom sample_streetside_pano <= 4
  /\ snd (Streetside.get_panorama recording_download always_decodable
            sample_stitch sample_streetside_pano 10 tt [])
     = snd (Streetside.get_panorama recording_download always_decodable
              sample_stitch sample_streetside_pano 3 tt []).
Proof.
  split; [cbn; lia|].
  apply (zoom_clamping nat (sample_download 6) always_decodable unit
           (list PIL.Image) sample_stitch sample_streetside_pano).
  - cbn; lia.
  - reflexivity.
Defined.

(** ** Fetch failures *)

Lemma attach_short (tiles : list PIL.bytes) :
  forall (face : list Streetside.tile) (idx : Z),
    0 <= idx ->
    (Z.to_nat idx <= List.length tiles < Z.to_nat idx + List.length face)%nat ->
    Streetside.attach face idx tiles = Err IndexError.
Proof.
  induction face as [|t face IH]; intros idx H0 H; cbn [List.length] in H.
  - lia.
  - cbn [Streetside.attach].
    destruct (Z.eq_dec idx (Py.len tiles)) as [E|E].
    + rewrite index_out_of_range by lia. reflexivity.
    + destruct (index_in_range tiles idx) as (data & ->);
        [unfold Py.len in *; lia|].
      cbn [bind]. rewrite IH; [reflexivity | lia |].
      unfold Py.len in E. lia.
Qed.

Lemma attach_downloaded (tiles : list PIL.bytes) :
  forall (face : list Streetside.tile) (idx : Z) face',
    Streetside.attach face idx tiles = Ok face' -> downloaded face face'.
Proof.
  induction face as [|t face IH]; intros idx face' H; cbn [Streetside.attach] in H.
  - injection H as <-. constructor.
  - destruct (Py.index tiles idx) as [data|]; [|discriminate].
    cbn [bind] in H.
    destruct (Streetside.attach face (idx + 1) tiles) as [rest|] eqn:E;
      [|discriminate].
    cbn [bind] in H. injection H as <-.
    constructor; [now exists data | now apply (IH (idx + 1))].
Qed.

Lemma tile_images_short (images : list PIL.bytes) :
  forall (tiles : list Tile.t) (idx : Z),
    0 <= idx ->
    (Z.to_nat idx <= List.length images < Z.to_nat idx + List.length tiles)%nat ->
    Util.tile_images tiles idx images = Err IndexError.
Proof.
  induction tiles as [|t tiles IH]; intros idx H0 H; cbn [List.length] in H.
  - lia.
  - cbn [Util.tile_images].
    destruct (Z.eq_dec idx (Py.len images)) as [E|E].
    + rewrite index_out_of_range by lia. reflexivity.
    + destruct (index_in_range images idx) as (data & ->);
        [unfold Py.len in *; lia|].
      cbn [bind]. rewrite IH; [reflexivity | lia |].
      unfold Py.len in E. lia.
Qed.

Section FetchFacts.

Variable World : Type.
Variable download_files_async : list string -> M World (list PIL.bytes).
Variable decodable : PIL.bytes -> bool.
Variable CubemapStitchingMethod : Type.
Variable Output : Type.
Variable stitch_cubemap_faces :
  list PIL.Image -> Z -> CubemapStitchingMethod -> result Output.
Variable Meta : Type.
Variable is_third_party_panoid : string -> bool.

Let download_tiles := Streetside._download_tiles download_files_async.

Lemma download_tiles_cons fid face rest w :
  download_tiles ((fid, face) :: rest) w =
  match download_files_async (map Streetside.url face) w with
  | (Ok tiles, w1) =>
      match Streetside.attach face 0 tiles with
      | Ok face' =>
          match download_tiles rest w1 with
          | (Ok rest', w2) => (Ok ((fid, face') :: rest'), w2)
          | (Err e, w2) => (Err e, w2)
          end
      | Err e => (Err e, w1)
      end
  | (Err e, w1) => (Err e, w1)
  end.
Proof.
  unfold download_tiles. cbn [Streetside._download_tiles]. unfold bindM, lift, ret.
  destruct (download_files_async (map Streetside.url face) w) as [[tiles|e] w1];
    [|reflexivity].
  destruct (Streetside.attach face 0 tiles); reflexivity.
Qed.

(** The batch of a face fails after the faces before it were downloaded:
    the download of the whole list ends there, with the error of the batch,
    in the world that batch left. *)
Lemma download_first_failure pre fid face post pre' w w1 r w2 :
  download_tiles pre w = (Ok pre', w1) ->
  download_files_async (map Streetside.url face) w1 = (r, w2) ->
  batch_failed r (List.length face) ->
  download_tiles (pre ++ (fid, face) :: post)%list w = (Err (batch_error r), w2).
Proof.
  revert pre' w. induction pre as [|[fid0 face0] pre IH]; intros pre' w Hpre Hr Hf.
  - cbn in Hpre. injection Hpre as _ <-.
    cbn [app]. rewrite download_tiles_cons, Hr.
    destruct r as [tiles|e]; [|reflexivity].
    cbn [batch_failed batch_error] in *.
    rewrite attach_short; [reflexivity | lia | cbn; lia].
  - cbn [app]. rewrite download_tiles_cons in *.
    destruct (download_files_async (map Streetside.url face0) w)
      as [[tiles0|e0] w0]; [|discriminate].
    destruct (Streetside.attach face0 0 tiles0); [|discriminate].
    destruct (download_tiles pre w0) as [[rest'|e] w'] eqn:E; [|discriminate].
    injection Hpre as _ <-.
    now rewrite (IH rest' w0 E Hr Hf).
Qed.

Lemma download_tiles_downloaded faces :
  forall w faces' w',
    download_tiles faces w = (Ok faces', w') ->
    Forall2 (fun f f' => fst f = fst f' /\ downloaded (snd f) (snd f'))
            faces faces'.
Proof.
  induction faces as [|[fid face] faces IH]; intros w faces' w' H.
  - cbn in H. injection H as <- _. constructor.
  - rewrite download_tiles_cons in H.
    destruct (download_files_async (map Streetside.url face) w)
      as [[tiles|e] w1]; [|discriminate].
    destruct (Streetside.attach face 0 tiles) as [face'|] eqn:Ea; [|discriminate].
    destruct (download_tiles faces w1) as [[rest'|e] w2] eqn:E; [|discriminate].
    injection H as <- <-.
    constructor; [|now apply (IH w1 rest' w2)].
    split; [reflexivity | now apply attach_downloaded in Ea].
Qed.

(** C8. In the cubemap engine, when the batch of some face fails (the
    download raises, or returns fewer buffers than URLs) after the faces
    before it were downloaded, get_panorama ends with the error of that
    batch and no image, in the world the failed batch left: nothing is
    caught and nothing is fetched again. An image is returned only when
    every tile of every face has its bytes. In the grid engine
    get_panorama returns what the fetch-and-compose routine returns: its
    failure is the failure of the request, an image comes only from its
    success; and that routine fails on a failed batch in the same way. *)
Theorem fetch_failure_aborts :
  (forall pano zoom method w pre fid face post pre' w1 r w2,
      Streetside.get_panorama_tile_list pano zoom
      = Ok (pre ++ (fid, face) :: post)%list ->
      Streetside._download_tiles download_files_async pre w = (Ok pre', w1) ->
      download_files_async (map Streetside.url face) w1 = (r, w2) ->
      batch_failed r (List.length face) ->
      Streetside.get_panorama download_files_async decodable
        stitch_cubemap_faces pano zoom method w
      = (Err (batch_error r), w2))
  /\ (forall pano zoom method w out w',
        Streetside.get_panorama download_files_async decodable
          stitch_cubemap_faces pano zoom method w
        = (Ok out, w') ->
        exists faces faces',
          Streetside.get_panorama_tile_list pano zoom = Ok faces
          /\ Streetside._download_tiles download_files_async faces w
             = (Ok faces', w')
          /\ Forall2 (fun f f' => fst f = fst f' /\ downloaded (snd f) (snd f'))
                     faces faces'
          /\ Streetside._stitch_panorama decodable stitch_cubemap_faces
               faces' method = Ok out)
  /\ (forall (fetch_and_compose :
                Z -> Z -> option Size.t -> list Tile.t -> M World PIL.Image)
             (pano : Streetview.StreetViewPanorama Meta) zoom w img w',
        Streetview.get_panorama is_third_party_panoid fetch_and_compose
          pano zoom w = (Ok img, w') ->
        exists z sz tiles,
          Streetview._validate_get_panorama_params pano zoom = Ok z
          /\ Streetview.image_size_at pano z = Ok sz
          /\ Streetview._generate_tile_list is_third_party_panoid pano z
             = Ok tiles
          /\ fetch_and_compose (Size.x sz) (Size.y sz)
               (Streetview.tile_size pano) tiles w = (Ok img, w'))
  /\ (forall (fetch_and_compose :
                Z -> Z -> option Size.t -> list Tile.t -> M World PIL.Image)
             (pano : Streetview.StreetViewPanorama Meta)
             zoom w z sz tiles e w',
        Streetview._validate_get_panorama_params pano zoom = Ok z ->
        Streetview.image_size_at pano z = Ok sz ->
        Streetview._generate_tile_list is_third_party_panoid pano z
        = Ok tiles ->
        fetch_and_compose (Size.x sz) (Size.y sz)
          (Streetview.tile_size pano) tiles w = (Err e, w') ->
        Streetview.get_panorama is_third_party_panoid fetch_and_compose
          pano zoom w = (Err e, w'))
  /\ (forall width height tile_size tiles w r w',
        download_files_async (map Tile.url tiles) w = (r, w') ->
        batch_failed r (List.length tiles) ->
        Util.get_equirectangular_panorama download_files_async decodable
          width height tile_size tiles w
        = (Err (batch_error r), w')).
Proof.
  split; [|split; [|split; [|split]]].
  - intros pano zoom method w pre fid face post pre' w1 r w2 Hgen Hpre Hr Hf.
    pose proof (download_first_failure pre fid face post pre' w w1 r w2
                  Hpre Hr Hf) as Hd.
    unfold download_tiles in Hd.
    unfold Streetside.get_panorama_tile_list, Streetside.clamp_zoom in Hgen.
    unfold Streetside.get_panorama, bindM, lift.
    now rewrite Hgen, Hd.
  - intros pano zoom method w out w' H.
    unfold Streetside.get_panorama, bindM, lift in H.
    unfold Streetside.get_panorama_tile_list, Streetside.clamp_zoom.
    destruct (Streetside._generate_tile_list _ _) as [faces|] eqn:Hgen;
      [|discriminate].
    destruct (Streetside._download_tiles download_files_async faces w)
      as [[faces'|e] w1] eqn:Hd; [|discriminate].
    exists faces, faces'.
    assert (w1 = w') as -> by congruence.
    split; [reflexivity|]. split; [exact Hd|].
    split; [apply (download_tiles_downloaded faces w faces' w' Hd)|].
    congruence.
  - intros fetch pano zoom w img w' H.
    unfold Streetview.get_panorama, bindM, lift in H.
    destruct (Streetview._validate_get_panorama_params pano zoom) as [z|]
      eqn:Hv; [|discriminate].
    destruct (Streetview.image_size_at pano z) as [sz|] eqn:Hsz;
      [|discriminate].
    destruct (Streetview._generate_tile_list is_third_party_panoid pano z)
      as [tiles|] eqn:Hgen; [|discriminate].
    exists z, sz, tiles. repeat split; (reflexivity || assumption).
  - intros fetch pano zoom w z sz tiles e w' Hv Hsz Hgen Hf.
    unfold Streetview.get_panorama, bindM, lift.
    now rewrite Hv, Hsz, Hgen.
  - intros width height ts tiles w r w' Hr Hf.
    unfold Util.get_equirectangular_panorama, bindM, lift. rewrite Hr.
    destruct r as [images|e]; [|reflexivity].
    cbn [batch_failed batch_error] in *.
    rewrite tile_images_short; [reflexivity | lia | cbn; lia].
Qed.

End FetchFacts.

Lemma fetch_failure_aborts_witness :
  Streetside.get_panorama (sample_download 2) always_decodable sample_stitch
    sample_streetside_pano 0 tt 0%nat
  = (Err (ExternalError "fetch"), 3%nat).
Proof.
  pose proof (proj1 (fetch_failure_aborts nat (sample_download 2)
                       always_decodable unit (list PIL.Image) sample_stitch
                       unit sample_third_party)) as H.
  apply (H sample_streetside_pano 0 tt 0%nat
           (firstn 2 (cubemap_tiles 27 0)) 2
           (snd (nth 2 (cubemap_tiles 27 0) (0, [])))
           (skipn 3 (cubemap_tiles 27 0))
           (map (fun f : Z * list Streetside.tile =>
                   (fst f, map (fun t => Streetside.set_image t []) (snd f)))
                (firstn 2 (cubemap_tiles 27 0)))
           2%nat (Err (ExternalError "fetch")) 3%nat).
  - vm_compute. reflexivity.
  - vm_compute. reflexivity.
  - vm_compute. reflexivity.
  - exact I.
Defined.

(** A batch that comes back one buffer short ends the request with the
    [IndexError] of the missing result. *)
Example short_batch_aborts :
  Streetside.get_panorama
    (fun urls sent => (Ok (map (fun _ => []) (tl urls)), S sent))
    always_decodable sample_stitch sample_streetside_pano 1 tt 0%nat
  = (Err IndexError, 1%nat).
Proof. vm_compute. reflexivity. Qed.

(** With a network that answers every batch the same request succeeds. *)
Example complete_fetch_succeeds :
  exists faces,
    Streetside.get_panorama (sample_download 6) always_decodable sample_stitch
      sample_streetside_pano 1 tt 0%nat
    = (Ok faces, 6%nat)
    /\ List.length faces = 6%nat.
Proof. eexists. split; [vm_compute; reflexivity | reflexivity]. Qed.

(** ** Determinism of tile-list generation *)

Lemma update_middle (pre post : Heap.heap) (o o' : Heap.object) :
  Heap.update (pre ++ o :: post)%list (List.length pre) o' = (pre ++ o' :: post)%list.
Proof. induction pre as [|x pre IH]; cbn; [reflexivity | now rewrite IH]. Qed.

Lemma nth_error_middle {A : Type} (pre post : list A) (a : A) :
  nth_error (pre ++ a :: post)%list (List.length pre) = Some a.
Proof. induction pre as [|x pre IH]; cbn; [reflexivity | exact IH]. Qed.

(** The loop that fills a list: every new object goes to the end of the
    store and its reference to the end of the list. *)
Lemma fill_list {A : Type} (mk : A -> Heap.object) (r : list A) :
  forall (pre post : Heap.heap) (items : list nat),
    Heap.for_each r (fun a => t <~ Heap.new (mk a) ;;
                              Heap.append (List.length pre) t)
                  (pre ++ Heap.List items :: post)%list
    = (Ok tt,
       (pre ++ Heap.List (items ++ seq (List.length pre + 1 + List.length post)
                                       (List.length r))
            :: post ++ map mk r)%list).
Proof.
  induction r as [|a r IH]; intros pre post items.
  - cbn. now rewrite !app_nil_r.
  - cbn [Heap.for_each]. unfold bindM at 1. unfold bindM at 1.
    unfold Heap.new at 1. unfold Heap.append at 1.
    rewrite <- app_assoc. cbn [app].
    rewrite nth_error_middle, update_middle.
    specialize (IH pre (post ++ [mk a])%list (items ++ [List.length (pre ++ Heap.List items :: post)%list])%list).
    rewrite IH. f_equal. f_equal. f_equal.
    + f_equal. rewrite <- app_assoc. f_equal.
      rewrite !length_app. cbn [List.length map seq app].
      f_equal; [lia|]. f_equal. lia.
    + rewrite <- app_assoc. reflexivity.
Qed.

Lemma bindM_lift {W A B : Type} (r : result A) (k : A -> M W B) (w : W) :
  (x <~ lift r ;; k x) w
  = match r with
    | Ok a => k a w
    | Err e => (Err e, w)
    end.
Proof. unfold bindM, lift. now destruct r. Qed.

Lemma for_each_ext {A : Type} (l : list A) (body body' : A -> M Heap.heap unit) :
  (forall a h, body a h = body' a h) ->
  forall h, Heap.for_each l body h = Heap.for_each l body' h.
Proof.
  intros H. induction l as [|a l IH]; intros h; [reflexivity|].
  cbn [Heap.for_each]. unfold bindM. rewrite H.
  destruct (body' a h) as [[u|e] h']; [apply IH | reflexivity].
Qed.

Lemma read_block {A : Type} (mk : A -> Heap.object)
      (read : Heap.heap -> nat -> option A) :
  (forall h r a, nth_error h r = Some (mk a) -> read h r = Some a) ->
  forall (vs : list A) (pre post : Heap.heap),
    Heap.read_all (read (pre ++ map mk vs ++ post)%list)
                  (seq (List.length pre) (List.length vs))
    = Some vs.
Proof.
  intros Hread. induction vs as [|v vs IH]; intros pre post; [reflexivity|].
  cbn [List.length seq Heap.read_all map app].
  rewrite (Hread _ _ v) by apply nth_error_middle.
  specialize (IH (pre ++ [mk v])%list post).
  rewrite <- app_assoc, length_app in IH. cbn [app List.length] in IH.
  replace (List.length pre + 1)%nat with (S (List.length pre)) in IH by lia.
  now rewrite IH.
Qed.

Lemma format_grid_url (tp : bool) (id : string) (x y zoom : Z) :
  Streetview.format
    (if tp then Streetview.THIRD_PARTY_IMAGE_URL else Streetview.IMAGE_URL)
    [id; Py.str x; Py.str y; Py.str zoom]
  = Ok (grid_url tp id x y zoom).
Proof.
  unfold grid_url. destruct tp.
  - apply format_THIRD_PARTY_IMAGE_URL.
  - apply format_IMAGE_URL.
Qed.

Section GridObjects.

Variable Meta : Type.
Variable is_third_party_panoid : string -> bool.

Lemma grid_objects (pano : Streetview.StreetViewPanorama Meta) (zoom : Z)
      (h : Heap.heap) :
  match Streetview._generate_tile_list is_third_party_panoid pano zoom with
  | Ok tiles =>
      StreetviewHeap._generate_tile_list Meta is_third_party_panoid pano zoom h
      = (Ok (List.length h),
         (h ++ Heap.List (seq (List.length h + 1) (List.length tiles))
            :: map Heap.TileObj tiles)%list)
  | Err e =>
      StreetviewHeap._generate_tile_list Meta is_third_party_panoid pano zoom h
      = (Err e, h)
  end.
Proof.
  unfold Streetview._generate_tile_list, StreetviewHeap._generate_tile_list.
  rewrite bindM_lift.
  destruct (Streetview.image_size_at pano zoom) as [sz|e]; [|reflexivity].
  cbn [bind]. rewrite bindM_lift.
  destruct (Streetview.tile_size_of pano) as [ts|e]; [|reflexivity].
  cbn [bind]. rewrite bindM_lift.
  destruct (Py.ceil_div (Size.x sz) (Size.x ts)) as [cols|e]; [|reflexivity].
  cbn [bind]. rewrite bindM_lift.
  destruct (Py.ceil_div (Size.y sz) (Size.y ts)) as [rows|e]; [|reflexivity].
  cbn [bind].
  set (mk := fun xy : Z * Z =>
               Tile.mk (fst xy) (snd xy)
                 (grid_url (is_third_party_panoid (Streetview.id pano))
                           (Streetview.id pano) (fst xy) (snd xy) zoom)).
  rewrite (mapM_ok_map _ mk).
  2:{ intros [x y] _. unfold mk. cbn [fst snd].
      now rewrite format_grid_url. }
  unfold bindM at 1. unfold Heap.new at 1.
  unfold bindM at 1.
  rewrite (for_each_ext _ _
             (fun xy => t <~ Heap.new (Heap.TileObj (mk xy)) ;;
                        Heap.append (List.length h) t)).
  2:{ intros [x y] h'. rewrite bindM_lift, format_grid_url. reflexivity. }
  rewrite (fill_list (fun xy => Heap.TileObj (mk xy)) _ h [] []).
  unfold ret. cbn [app List.length]. rewrite Nat.add_0_r.
  now rewrite !length_map, map_map.
Qed.

End GridObjects.

Lemma dict_set_new (items : list (Z * nat)) (k : Z) (v : nat) :
  ~ In k (map fst items) -> Heap.dict_set items k v = (items ++ [(k, v)])%list.
Proof.
  induction items as [|[k' v'] items IH]; intros H; [reflexivity|].
  cbn [Heap.dict_set app]. cbn [map fst In] in H.
  destruct (Z.eqb_spec k' k) as [E|_]; [tauto|].
  rewrite IH by tauto. reflexivity.
Qed.

Lemma face_refs_keys (a : nat) (faces : Streetside.faces_dict) :
  map fst (face_refs a faces) = map fst faces.
Proof.
  revert a. induction faces as [|[k tiles] rest IH]; intros a; [reflexivity|].
  cbn [face_refs map fst]. now rewrite IH.
Qed.

Lemma read_items_blocks (faces : Streetside.faces_dict) :
  forall pre post : Heap.heap,
    Heap.read_items (pre ++ face_blocks (List.length pre) faces ++ post)%list
                    (face_refs (List.length pre) faces)
    = Some faces.
Proof.
  induction faces as [|[k tiles] rest IH]; intros pre post; [reflexivity|].
  cbn [face_blocks face_refs Heap.read_items]. unfold face_block.
  unfold Heap.read_list. rewrite <- app_assoc. cbn [app].
  rewrite nth_error_middle.
  assert (Hb : Heap.read_all
                 (Heap.read_tile_dict
                    (pre ++ Heap.List (seq (List.length pre + 1)
                                           (List.length tiles))
                         :: map Heap.TileDict tiles
                            ++ face_blocks (List.length pre + 1
                                            + List.length tiles) rest
                            ++ post)%list)
                 (seq (List.length pre + 1) (List.length tiles))
               = Some tiles).
  { pose proof (read_block Heap.TileDict Heap.read_tile_dict) as Hr.
    specialize (Hr ltac:(intros h r a H; unfold Heap.read_tile_dict;
                         now rewrite H) tiles
                   (pre ++ [Heap.List (seq (List.length pre + 1)
                                           (List.length tiles))])%list
                   (face_blocks (List.length pre + 1 + List.length tiles) rest
                      ++ post)%list).
    rewrite <- app_assoc, length_app in Hr. cbn [app List.length] in Hr.
    exact Hr. }
  rewrite Hb.
  specialize (IH (pre ++ face_block (List.length pre) tiles)%list post).
  unfold face_block in IH.
  rewrite <- app_assoc, length_app in IH.
  cbn [app List.length] in IH. rewrite length_map in IH.
  replace (List.length pre + S (List.length tiles))%nat
    with (List.length pre + 1 + List.length tiles)%nat in IH by lia.
  now rewrite IH.
Qed.

(** The loop over the faces: each face gets a new list, filled with new
    tile dictionaries, and is entered under its key. *)
Lemma fill_faces (mk : Z -> Z -> Streetside.tile) (r : list Z) (fs : list Z) :
  forall (pre post : Heap.heap) (items : list (Z * nat)),
    let faces := map (fun f => (f, map (mk f) r)) fs in
    let a := (List.length pre + 1 + List.length post)%nat in
    Heap.for_each fs
      (fun face_id =>
         face_tiles <~ Heap.new (Heap.List []) ;;
         r' <~ lift (Ok r) ;;
         u <~ Heap.for_each r'
                (fun subdiv =>
                   t <~ Heap.new (Heap.TileDict (mk face_id subdiv)) ;;
                   Heap.append face_tiles t) ;;
         Heap.setitem (List.length pre) face_id face_tiles)
      (pre ++ Heap.Dict items :: post)%list
    = (Ok tt,
       (pre ++ Heap.Dict (fold_left (fun its kr =>
                                       Heap.dict_set its (fst kr) (snd kr))
                                    (face_refs a faces) items)
            :: post ++ face_blocks a faces)%list).
Proof.
  induction fs as [|f fs IH]; intros pre post items faces a.
  - cbn. now rewrite app_nil_r.
  - subst faces a. cbn [Heap.for_each map face_refs face_blocks fold_left fst snd].
    unfold bindM at 1. unfold bindM at 1. unfold Heap.new at 1.
    rewrite bindM_lift.
    unfold bindM at 1.
    rewrite (fill_list (fun sd => Heap.TileDict (mk f sd)) r
               (pre ++ Heap.Dict items :: post)%list [] []).
    cbn [app List.length]. rewrite Nat.add_0_r.
    unfold Heap.setitem at 1.
    rewrite <- app_assoc. cbn [app].
    rewrite nth_error_middle, update_middle.
    rewrite length_app. cbn [List.length].
    specialize (IH pre
                   (post ++ Heap.List (seq (List.length pre + S (List.length post) + 1)
                                           (List.length r))
                         :: map (fun sd => Heap.TileDict (mk f sd)) r)%list
                   (Heap.dict_set items f (List.length pre + S (List.length post)))).
    cbv zeta in IH. rewrite IH. clear IH.
    rewrite length_app. cbn [List.length]. rewrite !length_map.
    replace (List.length pre + 1 + (List.length post + S (List.length r)))%nat
      with (List.length pre + 1 + List.length post + 1 + List.length r)%nat by lia.
    replace (List.length pre + S (List.length post))%nat
      with (List.length pre + 1 + List.length post)%nat by lia.
    unfold face_block. rewrite length_map, map_map.
    rewrite <- app_assoc. reflexivity.
Qed.

Lemma fold_dict_set_new (refs items : list (Z * nat)) :
  NoDup (map fst items ++ map fst refs) ->
  fold_left (fun its kr => Heap.dict_set its (fst kr) (snd kr)) refs items
  = (items ++ refs)%list.
Proof.
  revert items. induction refs as [|[k v] refs IH]; intros items H.
  - cbn. now rewrite app_nil_r.
  - cbn [fold_left fst snd]. cbn [map fst] in H.
    rewrite dict_set_new.
    2:{ apply NoDup_remove_2 in H. intros Hin. apply H.
        apply in_or_app. now left. }
    rewrite IH.
    + now rewrite <- app_assoc.
    + rewrite map_app. cbn [map fst]. rewrite <- app_assoc. exact H.
Qed.

Lemma cubemap_objects (panoid zoom : Z) (h : Heap.heap) :
  match Streetside._generate_tile_list panoid zoom with
  | Ok faces =>
      StreetsideHeap._generate_tile_list panoid zoom h
      = (Ok (List.length h),
         (h ++ Heap.Dict (face_refs (List.length h + 1) faces)
            :: face_blocks (List.length h + 1) faces)%list)
      /\ map fst faces = Py.range 6
  | Err e =>
      exists garbage,
        StreetsideHeap._generate_tile_list panoid zoom h
        = (Err e, (h ++ garbage)%list)
  end.
Proof.
  unfold Streetside._generate_tile_list, StreetsideHeap._generate_tile_list.
  destruct (zoom >? 4).
  { exists []. now rewrite app_nil_r. }
  rewrite bindM_lift.
  destruct (Py.pow 4 zoom) as [[n|]|e]; cbn [bind].
  - set (mk := fun f sd : Z =>
                 Streetside.mk_tile
                   (Py.rjust (Base4.to_base4 (f + 1)) 2 "0") sd
                   (Streetside.tile_url
                      (Py.rjust (Base4.to_base4 panoid) 16 "0")
                      (Py.rjust (Base4.to_base4 (f + 1)) 2 "0"
                         ++ (if zoom <? 1 then ""
                             else Py.rjust (Base4.to_base4 sd) zoom "0")))
                   None).
    rewrite (mapM_ok_map _ (fun f => (f, map (mk f) (Py.range n))))
      by (intros f _; reflexivity).
    split; [|rewrite map_map; cbn [fst]; apply map_id].
    unfold bindM at 1. unfold Heap.new at 1. unfold bindM at 1.
    pose proof (fill_faces mk (Py.range n) (Py.range 6) h [] []) as Hf.
    cbv zeta in Hf. cbn [Py.range_of]. cbv zeta.
    unfold mk in Hf. unfold mk.
    rewrite Hf. clear Hf. unfold ret. cbn [app List.length].
    rewrite Nat.add_0_r.
    rewrite fold_dict_set_new; [reflexivity|].
    cbn [map app]. rewrite face_refs_keys, map_map. cbn [fst].
    rewrite map_id. apply range_NoDup.
  - exists [Heap.Dict []; Heap.List []].
    replace (Py.range 6) with (0 :: [1; 2; 3; 4; 5]) by reflexivity.
    cbn [Heap.for_each Py.range_of]. unfold bindM, Heap.new, lift.
    now rewrite <- app_assoc.
  - exists []. now rewrite app_nil_r.
Qed.

Lemma cubemap_built (panoid zoom : Z) (h : Heap.heap) :
  let run := StreetsideHeap._generate_tile_list panoid zoom h in
  faces_built run = returned (Streetside._generate_tile_list panoid zoom)
  /\ (exists fresh, snd run = (h ++ fresh)%list)
  /\ (forall r, fst run = Ok r -> r = List.length h).
Proof.
  intros run. subst run.
  pose proof (cubemap_objects panoid zoom h) as H.
  destruct (Streetside._generate_tile_list panoid zoom) as [faces|e].
  - destruct H as [-> _]. unfold faces_built, returned. cbn [fst snd].
    split; [|split].
    + f_equal. unfold Heap.read_faces. rewrite nth_error_middle.
      pose proof (read_items_blocks faces
                    (h ++ [Heap.Dict (face_refs (List.length h + 1) faces)])%list
                    []) as Hr.
      rewrite length_app, app_nil_r, <- app_assoc in Hr. exact Hr.
    + now eexists.
    + now intros r [= <-].
  - destruct H as (garbage & ->). unfold faces_built, returned. cbn [fst snd].
    split; [reflexivity|]. split; [now eexists | discriminate].
Qed.

Lemma grid_built (Meta : Type) (tp : string -> bool)
      (pano : Streetview.StreetViewPanorama Meta) (zoom : Z) (h : Heap.heap) :
  let run := StreetviewHeap._generate_tile_list Meta tp pano zoom h in
  tiles_built run = returned (Streetview._generate_tile_list tp pano zoom)
  /\ (exists fresh, snd run = (h ++ fresh)%list)
  /\ (forall r, fst run = Ok r -> r = List.length h).
Proof.
  intros run. subst run.
  pose proof (grid_objects Meta tp pano zoom h) as H.
  destruct (Streetview._generate_tile_list tp pano zoom) as [tiles|e].
  - rewrite H. unfold tiles_built, returned. cbn [fst snd].
    split; [|split].
    + f_equal. unfold Heap.read_list. rewrite nth_error_middle.
      pose proof (read_block Heap.TileObj Heap.read_tile) as Hr.
      specialize (Hr ltac:(intros h' r a E; unfold Heap.read_tile;
                           now rewrite E) tiles
                     (h ++ [Heap.List (seq (List.length h + 1)
                                           (List.length tiles))])%list []).
      rewrite length_app, app_nil_r, <- app_assoc in Hr. exact Hr.
    + now eexists.
    + now intros r [= <-].
  - rewrite H. unfold tiles_built, returned. cbn [fst snd].
    split; [reflexivity|]. split; [exists []; now rewrite app_nil_r | discriminate].
Qed.

(** C10. Tile-list generation is deterministic in both engines. Run on
    the object store, whatever earlier calls have left in it (tile lists
    built before, with or without the images that a download has since
    written into them), a call only adds objects, returns a reference to
    a new one, and what it has built there is the tile list that the
    function on values gives for the inputs, or fails with the same
    error. So two calls with equal panorama id and zoom in the cubemap
    engine, and with equal panorama id, image-size table, tile size and
    zoom in the grid engine (whatever else the panorama records hold, and
    for third-party predicates that agree on the id), build identical
    tile lists in any two stores: the same keys and coordinates and the
    same URLs in the same order. *)
Theorem tile_lists_deterministic :
  (forall (panoid zoom : Z) (h : Heap.heap),
      let run := StreetsideHeap._generate_tile_list panoid zoom h in
      faces_built run = returned (Streetside._generate_tile_list panoid zoom)
      /\ (exists fresh, snd run = (h ++ fresh)%list)
      /\ (forall r, fst run = Ok r -> r = List.length h))
  /\ (forall (panoid zoom : Z) (h1 h2 : Heap.heap),
         faces_built (StreetsideHeap._generate_tile_list panoid zoom h1)
         = faces_built (StreetsideHeap._generate_tile_list panoid zoom h2))
  /\ (forall (Meta : Type) (third_party : string -> bool)
            (pano : Streetview.StreetViewPanorama Meta) (zoom : Z)
            (h : Heap.heap),
         let run := StreetviewHeap._generate_tile_list Meta third_party
                      pano zoom h in
         tiles_built run
         = returned (Streetview._generate_tile_list third_party pano zoom)
         /\ (exists fresh, snd run = (h ++ fresh)%list)
         /\ (forall r, fst run = Ok r -> r = List.length h))
  /\ (forall (Meta : Type) (third_party1 third_party2 : string -> bool)
            (pano1 pano2 : Streetview.StreetViewPanorama Meta)
            (zoom : Z) (h1 h2 : Heap.heap),
        Streetview.id pano1 = Streetview.id pano2 ->
        Streetview.image_sizes pano1 = Streetview.image_sizes pano2 ->
        Streetview.tile_size pano1 = Streetview.tile_size pano2 ->
        third_party1 (Streetview.id pano1) = third_party2 (Streetview.id pano2) ->
        tiles_built (StreetviewHeap._generate_tile_list Meta third_party1
                       pano1 zoom h1)
        = tiles_built (StreetviewHeap._generate_tile_list Meta third_party2
                         pano2 zoom h2)).
Proof.
  split; [exact cubemap_built|].
  split.
  { intros panoid zoom h1 h2.
    destruct (cubemap_built panoid zoom h1) as [-> _].
    now destruct (cubemap_built panoid zoom h2) as [-> _]. }
  split; [exact grid_built|].
  intros Meta tp1 tp2 pano1 pano2 zoom h1 h2 Hid Hsz Hts Htp.
  destruct (grid_built Meta tp1 pano1 zoom h1) as [-> _].
  destruct (grid_built Meta tp2 pano2 zoom h2) as [-> _].
  f_equal.
  unfold Streetview._generate_tile_list, Streetview.image_size_at,
    Streetview.tile_size_of.
  now rewrite Htp, Hid, Hsz, Hts.
Qed.

Lemma tile_lists_deterministic_witness :
  tiles_built
    (StreetviewHeap._generate_tile_list nat sample_third_party
       (Streetview.mk_StreetViewPanorama "abc" (Some [Size.mk 512 256])
          (Some (Size.mk 256 256)) 1%nat) 0 [])
  = tiles_built
      (StreetviewHeap._generate_tile_list nat (fun _ => false)
         (Streetview.mk_StreetViewPanorama "abc" (Some [Size.mk 512 256])
            (Some (Size.mk 256 256)) 2%nat) 0
         [Heap.TileDict (sample_tile 3); Heap.List [0%nat]]).
Proof.
  apply (proj2 (proj2 (proj2 tile_lists_deterministic)) nat); reflexivity.
Defined.

(** A call made after the tiles of an earlier result were written to
    builds the list afresh: the first tile list keeps its image, the
    second has none. *)
Example second_call_builds_afresh :
  let first := StreetsideHeap._generate_tile_list 27 0 [] in
  let written :=
    Heap.update (snd first) 2
      (Heap.TileDict
         (Streetside.set_image
            (Streetside.mk_tile "01" 0
               "https://t.ssl.ak.tiles.virtualearth.net/tiles/hs000000000000012301.jpg?g=13716"
               None) [Byte.x00])) in
  let second := StreetsideHeap._generate_tile_list 27 0 written in
  fst first = Ok 0%nat
  /\ fst second = Ok 13%nat
  /\ faces_built second = returned (Streetside._generate_tile_list 27 0)
  /\ faces_built (fst first, snd second) <> faces_built second.
Proof.
  vm_compute. repeat split. discriminate.
Qed.

(** * Further properties *)

(** ** The face stitch on arbitrary faces *)

Lemma isqrt_half (n : Z) : 0 <= n -> Py.isqrt n / 2 = Py.isqrt (n / 4).
Proof.
  intros Hn. unfold Py.isqrt. symmetry. apply Z.sqrt_unique.
  pose proof (Z.sqrt_spec n Hn) as Hs.
  assert (H0 : 0 <= Z.sqrt n) by apply Z.sqrt_nonneg.
  pose proof (Z.div_mod (Z.sqrt n) 2 ltac:(lia)) as E.
  pose proof (Z.mod_pos_bound (Z.sqrt n) 2 ltac:(lia)) as B.
  pose proof (Z.div_mod n 4 ltac:(lia)) as E4.
  pose proof (Z.mod_pos_bound n 4 ltac:(lia)) as B4.
  unfold Z.succ in *. nia.
Qed.

Lemma index_map_seq {A : Type} (f : nat -> A) (cnt i : nat) :
  (i < cnt)%nat -> Py.index (map f (seq 0 cnt)) (Z.of_nat i) = Ok (f i).
Proof.
  intros Hi. unfold Py.index.
  destruct (Z.ltb_spec (Z.of_nat i) 0) as [?|_]; [lia|].
  destruct (Z.ltb_spec (Z.of_nat i) 0) as [?|_]; [lia|].
  rewrite Nat2Z.id, nth_error_map, nth_error_seq.
  destruct (Nat.ltb_spec i cnt); [reflexivity | lia].
Qed.

(** A list of more than four elements, split with a quarter of its length
    (rounded down) as the size, has its four quarters as the first four
    chunks. *)
Lemma split_list_first_four {A : Type} (l : list A) :
  (4 < List.length l)%nat ->
  exists cs,
    Streetside._split_list l (Py.len l / 4) = Ok cs
    /\ Py.index cs 0 = Ok (quarter 0 l)
    /\ Py.index cs 1 = Ok (quarter 1 l)
    /\ Py.index cs 2 = Ok (quarter 2 l)
    /\ Py.index cs 3 = Ok (quarter 3 l).
Proof.
  intros Hl.
  assert (Hs : 0 < Py.len l / 4)
    by (apply Z.div_str_pos; unfold Py.len; lia).
  assert (Hm : Z.to_nat (Py.len l / 4) = (List.length l / 4)%nat).
  { unfold Py.len. change 4 with (Z.of_nat 4).
    now rewrite <- Nat2Z.inj_div, Nat2Z.id. }
  assert (Hc : (4 <= chunk_count l (Py.len l / 4))%nat).
  { unfold chunk_count.
    assert (4 <= (Py.len l + Py.len l / 4 - 1) / (Py.len l / 4)); [|lia].
    apply Z.div_le_lower_bound; [lia|].
    pose proof (Z.mul_div_le (Py.len l) 4 ltac:(lia)). lia. }
  eexists. split; [apply (split_list_chunks l _ Hs)|].
  rewrite Hm.
  repeat split.
  - apply (index_map_seq (chunk (List.length l / 4) l) _ 0). lia.
  - apply (index_map_seq (chunk (List.length l / 4) l) _ 1). lia.
  - apply (index_map_seq (chunk (List.length l / 4) l) _ 2). lia.
  - apply (index_map_seq (chunk (List.length l / 4) l) _ 3). lia.
Qed.

Lemma quarter_app {A : Type} (l extra : list A) (m i : nat) :
  List.length l = (4 * m)%nat -> (List.length extra < 4)%nat -> (i < 4)%nat ->
  quarter i (l ++ extra) = quarter i l.
Proof.
  intros Hl He Hi. unfold quarter.
  rewrite length_app, Hl.
  replace ((4 * m + List.length extra) / 4)%nat with m.
  2:{ apply Nat.div_unique with (r := List.length extra); lia. }
  rewrite (Nat.mul_comm 4 m), Nat.div_mul by discriminate.
  rewrite skipn_app, firstn_app, length_skipn.
  replace (i * m - List.length l)%nat with 0%nat by nia.
  replace (m - (List.length l - i * m))%nat with 0%nat by nia.
  cbn [skipn firstn]. now rewrite app_nil_r.
Qed.

Section StitchAnyFace.

Variable decodable : PIL.bytes -> bool.

(** One activation on any face of more than four tiles. *)
Lemma stitch_face_at_quarters (n : nat) (face : list Streetside.tile) :
  (4 < List.length face)%nat ->
  Streetside._stitch_face_at decodable (S n) face =
  let h := (Py.isqrt (Py.len face) / 2) * 256 in
  q0 <- Streetside._stitch_face_at decodable n (quarter 0 face) ;;
  q1 <- Streetside._stitch_face_at decodable n (quarter 1 face) ;;
  q2 <- Streetside._stitch_face_at decodable n (quarter 2 face) ;;
  q3 <- Streetside._stitch_face_at decodable n (quarter 3 face) ;;
  Ok (two_by_two h q0 q1 q2 q3).
Proof.
  intros Hl. cbn [Streetside._stitch_face_at].
  destruct (Z.leb_spec (Py.len face) 4) as [H|_];
    [unfold Py.len in H; lia|].
  destruct (split_list_first_four face Hl) as (cs & Hs & H0 & H1 & H2 & H3).
  rewrite Hs. cbn [bind]. rewrite H0, H1, H2, H3. reflexivity.
Qed.

Lemma quarter_shorter (face : list Streetside.tile) (i : nat) :
  Py.len (quarter i face) <= Py.len face / 4.
Proof.
  unfold quarter, Py.len. rewrite length_firstn.
  change 4 with (Z.of_nat 4). rewrite <- Nat2Z.inj_div. lia.
Qed.

(** X1. The recursion of the face stitch is logarithmic in the number of
    tiles: a face of at most 4^k tiles, k >= 1, is stitched within k nested
    activations, whatever its tiles hold, and the result is the result of
    [_stitch_face]. *)
Theorem stitch_face_depth (k : nat) (face : list Streetside.tile) :
  (1 <= k)%nat -> Py.len face <= 4 ^ Z.of_nat k ->
  Streetside._stitch_face_at decodable k face <> Err RecursionError
  /\ Streetside._stitch_face decodable face
     = Streetside._stitch_face_at decodable k face.
Proof.
  intros Hk Hl.
  assert (Hb : Streetside._stitch_face_at decodable k face
               <> Err RecursionError).
  { revert face Hl. induction k as [|k IH]; [lia|]. intros face Hl.
    destruct (Z.leb_spec (Py.len face) 4) as [H4|H4].
    - cbn [Streetside._stitch_face_at].
      destruct (Z.leb_spec (Py.len face) 4) as [_|?]; [|lia].
      apply stitch_four_loop_error.
    - assert (Hk' : (1 <= k)%nat).
      { destruct k; [|lia]. change (4 ^ Z.of_nat 1) with 4 in Hl. lia. }
      rewrite stitch_face_at_quarters by (unfold Py.len in H4; lia).
      assert (Hq : forall i,
                Streetside._stitch_face_at decodable k (quarter i face)
                <> Err RecursionError).
      { intros i. apply IH; [assumption|].
        pose proof (quarter_shorter face i).
        rewrite Nat2Z.inj_succ, Z.pow_succ_r in Hl by lia.
        assert (Py.len face / 4 <= 4 ^ Z.of_nat k); [|lia].
        apply Z.div_le_upper_bound; lia. }
      cbv zeta.
      pose proof (Hq 0%nat) as H0. pose proof (Hq 1%nat) as H1.
      pose proof (Hq 2%nat) as H2. pose proof (Hq 3%nat) as H3.
      destruct (Streetside._stitch_face_at decodable k (quarter 0 face));
        cbn [bind]; [|assumption].
      destruct (Streetside._stitch_face_at decodable k (quarter 1 face));
        cbn [bind]; [|assumption].
      destruct (Streetside._stitch_face_at decodable k (quarter 2 face));
        cbn [bind]; [|assumption].
      destruct (Streetside._stitch_face_at decodable k (quarter 3 face));
        cbn [bind]; [|assumption].
      discriminate. }
  split; [exact Hb|].
  unfold Streetside._stitch_face.
  destruct (Nat.le_ge_cases k (S (List.length face))) as [Hle|Hge].
  - apply (stitch_at_mono decodable k face _ eq_refl Hb _ Hle).
  - symmetry.
    apply (stitch_at_mono decodable (S (List.length face)) face _ eq_refl
             (stitch_face_frames decodable face) _ Hge).
Qed.

Lemma stitch_face_enough (n : nat) (face : list Streetside.tile) :
  (S (List.length face) <= n)%nat ->
  Streetside._stitch_face_at decodable n face
  = Streetside._stitch_face decodable face.
Proof.
  intros Hn. unfold Streetside._stitch_face.
  apply (stitch_at_mono decodable (S (List.length face)) face _ eq_refl
           (stitch_face_frames decodable face) _ Hn).
Qed.

(** X2. On a face of more than four tiles only the first 4 * (n / 4)
    tiles are read: after a face of 4 * m tiles, m >= 2, up to three more
    tiles change nothing in the stitched image. *)
Theorem stitch_face_ignores_trailing (face extra : list Streetside.tile) :
  (8 <= List.length face)%nat ->
  (List.length face mod 4 = 0)%nat ->
  (List.length extra < 4)%nat ->
  Streetside._stitch_face decodable (face ++ extra)
  = Streetside._stitch_face decodable face.
Proof.
  intros H8 Hmod He.
  assert (Hm : List.length face = (4 * (List.length face / 4))%nat).
  { pose proof (Nat.div_mod_eq (List.length face) 4). lia. }
  set (m := (List.length face / 4)%nat) in *.
  set (n := List.length (face ++ extra)).
  assert (Hn : n = (List.length face + List.length extra)%nat)
    by (unfold n; apply length_app).
  rewrite <- (stitch_face_enough (S n) face) by lia.
  unfold Streetside._stitch_face. fold n.
  rewrite !stitch_face_at_quarters by lia. cbv zeta.
  rewrite !(quarter_app face extra m) by (assumption || lia).
  assert (Hh : Py.isqrt (Py.len (face ++ extra)) / 2
               = Py.isqrt (Py.len face) / 2).
  { rewrite !isqrt_half by (unfold Py.len; lia). f_equal.
    unfold Py.len. fold n. rewrite Hn, Hm.
    rewrite !Nat2Z.inj_add, !Nat2Z.inj_mul. change (Z.of_nat 4) with 4.
    rewrite (Z.mul_comm 4 (Z.of_nat m)), Z.div_mul by lia.
    rewrite Z.add_comm, Z.div_add by lia.
    rewrite Z.div_small by lia. lia. }
  rewrite Hh. reflexivity.
Qed.

Lemma four_loop_outcome (data_size : PIL.bytes -> Z * Z)
      (l : list Streetside.tile) :
  forall (sub_tile : PIL.Image) (idx : Z),
    match Streetside.stitch_four_loop decodable sub_tile idx l with
    | Ok img =>
        exists datas,
          map Streetside.image l = map Some datas
          /\ Forall (fun d => decodable d = true) datas
          /\ PIL.size data_size img = PIL.size data_size sub_tile
          /\ PIL.pastes img
             = (PIL.pastes sub_tile
                  ++ combine (map PIL.Opened datas)
                             (enumerate_boxes idx (List.length datas)))%list
    | Err e =>
        (e = KeyError \/ e = UnidentifiedImageError)
        /\ ~ Forall (fetched decodable) l
    end.
Proof.
  induction l as [|t l IH]; intros sub_tile idx;
    cbn [Streetside.stitch_four_loop].
  - exists []. cbn. rewrite app_nil_r. repeat split. constructor.
  - unfold Streetside.get_image, Streetside.Image_open.
    destruct (Streetside.image t) as [d|] eqn:Ei; cbn [bind].
    2:{ split; [now left|]. intros H. inversion_clear H as [|? ? (d & E & _) _].
        congruence. }
    destruct (decodable d) eqn:Ed; cbn [bind].
    2:{ split; [now right|]. intros H. inversion_clear H as [|? ? (d' & E & D) _].
        congruence. }
    specialize (IH (PIL.paste sub_tile (PIL.Opened d)
                      (idx mod 2 * Streetside.TILE_SIZE,
                       idx / 2 * Streetside.TILE_SIZE)) (idx + 1)).
    destruct (Streetside.stitch_four_loop decodable _ (idx + 1) l) as [img|e].
    + destruct IH as (datas & Hd & Hf & Hs & Hp).
      exists (d :: datas). cbn [map List.length enumerate_boxes combine].
      rewrite Ei, Hd. split; [reflexivity|]. split; [now constructor|].
      split; [exact Hs|].
      rewrite Hp. cbn [PIL.paste PIL.pastes]. now rewrite <- app_assoc.
    + destruct IH as (He & Hn). split; [exact He|].
      intros H. apply Hn. now inversion H.
Qed.

Lemma enumerate_boxes_four (n : nat) :
  (n <= 4)%nat -> enumerate_boxes 0 n = firstn n four_boxes.
Proof.
  intros H. do 5 (destruct n as [|n]; [reflexivity|]). lia.
Qed.

Lemma combine_firstn_length {A B : Type} (l : list A) (bs : list B) :
  combine l (firstn (List.length l) bs) = combine l bs.
Proof.
  revert bs. induction l as [|a l IH]; intros bs; [reflexivity|].
  destruct bs as [|b bs]; [reflexivity|]. cbn. now rewrite IH.
Qed.

(** X3. [_stitch_four] looks at the first four tiles only. It succeeds
    exactly when each of them has bytes that decode; the image is then a
    512 x 512 canvas with those tiles pasted in order on the cells (0, 0),
    (256, 0), (0, 256), (256, 256), one cell per tile present. Otherwise
    the error is the [KeyError] of a tile without bytes or the decoding
    error, never anything else. *)
Theorem stitch_four_outcome (face : list Streetside.tile) :
  (Forall (fetched decodable) (firstn 4 face)
   <-> exists img, Streetside._stitch_four decodable face = Ok img)
  /\ (forall img,
        Streetside._stitch_four decodable face = Ok img ->
        (forall data_size, PIL.size data_size img = (512, 512))
        /\ exists datas,
             map Streetside.image (firstn 4 face) = map Some datas
             /\ PIL.pastes img = combine (map PIL.Opened datas) four_boxes)
  /\ (forall e,
        Streetside._stitch_four decodable face = Err e ->
        e = KeyError \/ e = UnidentifiedImageError).
Proof.
  unfold Streetside._stitch_four.
  split; [|split].
  - pose proof (four_loop_outcome (fun _ => (0, 0)) (firstn 4 face)
                  (PIL.New (Streetside.TILE_SIZE * 2) (Streetside.TILE_SIZE * 2))
                  0) as H.
    destruct (Streetside.stitch_four_loop decodable _ 0 (firstn 4 face))
      as [img|e].
    + split; [intros _; now exists img|]. intros _.
      destruct H as (datas & Hd & Hf & _).
      revert Hd Hf. generalize (firstn 4 face).
      induction datas as [|d datas IHd]; intros l Hd Hf;
        destruct l as [|t l]; try discriminate; constructor.
      * exists d. inversion Hd. inversion Hf. now split.
      * apply IHd; [now inversion Hd | now inversion Hf].
    + split; [intros Hf; now destruct H as (_ & Hn) | intros (img & ?); discriminate].
  - intros img Himg. split.
    + intros ds.
      pose proof (four_loop_outcome ds (firstn 4 face)
                    (PIL.New (Streetside.TILE_SIZE * 2)
                             (Streetside.TILE_SIZE * 2)) 0) as H.
      rewrite Himg in H. now destruct H as (_ & _ & _ & Hs & _).
    + pose proof (four_loop_outcome (fun _ => (0, 0)) (firstn 4 face)
                    (PIL.New (Streetside.TILE_SIZE * 2)
                             (Streetside.TILE_SIZE * 2)) 0) as H.
      rewrite Himg in H. destruct H as (datas & Hd & _ & _ & Hp).
      exists datas. split; [exact Hd|].
      rewrite Hp. cbn [PIL.pastes app].
      assert (Hlen : (List.length datas <= 4)%nat).
      { apply (f_equal (@List.length _)) in Hd.
        rewrite !length_map, length_firstn in Hd. lia. }
      rewrite enumerate_boxes_four by exact Hlen.
      rewrite <- (length_map PIL.Opened datas).
      apply combine_firstn_length.
  - intros e He.
    pose proof (four_loop_outcome (fun _ => (0, 0)) (firstn 4 face)
                  (PIL.New (Streetside.TILE_SIZE * 2) (Streetside.TILE_SIZE * 2))
                  0) as H.
    rewrite He in H. now destruct H.
Qed.

End StitchAnyFace.

Lemma stitch_face_depth_witness :
  (1 <= 2)%nat /\ Py.len (sample_face 7) <= 4 ^ Z.of_nat 2
  /\ Streetside._stitch_face_at always_decodable 2 (sample_face 7)
     <> Err RecursionError.
Proof.
  assert (H : Py.len (sample_face 7) <= 4 ^ Z.of_nat 2)
    by (apply Z.leb_le; reflexivity).
  split; [lia|]. split; [exact H|].
  apply (stitch_face_depth always_decodable 2 (sample_face 7)); [lia | exact H].
Defined.

Lemma stitch_face_ignores_trailing_witness :
  Streetside._stitch_face always_decodable (sample_face 8 ++ sample_face 3)
  = Streetside._stitch_face always_decodable (sample_face 8).
Proof.
  apply (stitch_face_ignores_trailing always_decodable
           (sample_face 8) (sample_face 3)).
  - apply Nat.leb_le. reflexivity.
  - reflexivity.
  - apply Nat.ltb_lt. reflexivity.
Defined.

Lemma stitch_four_outcome_witness :
  Forall (fetched always_decodable) (firstn 4 (sample_face 6))
  /\ exists img,
       Streetside._stitch_four always_decodable (sample_face 6) = Ok img.
Proof.
  assert (H : Forall (fetched always_decodable) (firstn 4 (sample_face 6))).
  { apply Forall_firstn, sample_face_fetched. }
  split; [exact H|].
  apply (proj1 (proj1 (stitch_four_outcome always_decodable (sample_face 6)))).
  exact H.
Defined.

(** ** Downloading by position *)

Lemma skipn_nth_error {A : Type} (l : list A) (n : nat) (a : A) :
  nth_error l n = Some a -> skipn n l = a :: skipn (S n) l.
Proof.
  revert l. induction n as [|n IH]; intros [|b l] H; try discriminate.
  - now inversion H.
  - cbn [skipn]. now apply IH.
Qed.

Lemma attach_with_images (tiles : list PIL.bytes) :
  forall (face : list Streetside.tile) (idx : Z),
    0 <= idx ->
    (Z.to_nat idx + List.length face <= List.length tiles)%nat ->
    Streetside.attach face idx tiles
    = Ok (with_images face (skipn (Z.to_nat idx) tiles)).
Proof.
  induction face as [|t face IH]; intros idx H0 H; cbn [List.length] in H.
  - reflexivity.
  - cbn [Streetside.attach]. unfold Py.index.
    destruct (Z.ltb_spec idx 0) as [?|_]; [lia|].
    destruct (Z.ltb_spec idx 0) as [?|_]; [lia|].
    destruct (nth_error tiles (Z.to_nat idx)) as [d|] eqn:E.
    2:{ apply nth_error_None in E. lia. }
    cbn [bind]. rewrite IH by lia. cbn [bind].
    rewrite (skipn_nth_error _ _ _ E).
    replace (Z.to_nat (idx + 1)) with (S (Z.to_nat idx)) by lia.
    reflexivity.
Qed.

Lemma with_images_nth (face : list Streetside.tile) (images : list PIL.bytes)
      (i : nat) (t : Streetside.tile) (d : PIL.bytes) :
  nth_error face i = Some t -> nth_error images i = Some d ->
  nth_error (with_images face images) i = Some (Streetside.set_image t d).
Proof.
  revert images i. induction face as [|t0 face IH]; intros images i Ht Hd.
  - destruct i; discriminate.
  - destruct images as [|d0 images]; [destruct i; discriminate|].
    destruct i as [|i]; cbn in *.
    + now inversion Ht; inversion Hd.
    + now apply IH.
Qed.

Lemma with_images_length (face : list Streetside.tile)
      (images : list PIL.bytes) :
  (List.length face <= List.length images)%nat ->
  List.length (with_images face images) = List.length face.
Proof.
  intros H. unfold with_images. rewrite length_map, length_combine. lia.
Qed.

Lemma Forall2_same_length {A B : Type} (R : A -> B -> Prop)
      (l : list A) (l' : list B) :
  Forall2 R l l' -> List.length l = List.length l'.
Proof. induction 1; cbn; congruence. Qed.

Lemma map_fst_combine {A B : Type} (l : list A) (l' : list B) :
  List.length l = List.length l' -> map fst (combine l l') = l.
Proof.
  revert l'. induction l as [|a l IH]; intros [|b l'] H; try discriminate;
    [reflexivity|].
  cbn. f_equal. apply IH. now inversion H.
Qed.

Section DownloadFacts.

Variable World : Type.
Variable download_files_async : list string -> M World (list PIL.bytes).

(** The faces with the answers of their batches attached. *)
Lemma download_served faces w answers w' :
  served download_files_async faces w answers w' ->
  Forall2 (fun f a => (List.length (snd f) <= List.length a)%nat)
          faces answers ->
  Streetside._download_tiles download_files_async faces w
  = (Ok (map (fun fa => (fst (fst fa), with_images (snd (fst fa)) (snd fa)))
             (combine faces answers)), w').
Proof.
  intros Hs. induction Hs as [w|k face rest w w1 w' images answers Hd Hs IH];
    intros Hl.
  - reflexivity.
  - inversion_clear Hl as [|? ? ? ? Hhd Htl]. cbn [snd] in Hhd.
    rewrite download_tiles_cons, Hd.
    rewrite (attach_with_images images face 0) by (cbn; lia).
    cbn [Z.to_nat skipn]. rewrite (IH Htl). reflexivity.
Qed.

(** X4. Downloading keeps the order on which stitching relies. When the
    network answers the batch of every face, one batch per face in
    dictionary order, with at least as many buffers as the face has tiles,
    the tiles come back under the same keys in the same order, and tile
    number i of a face holds buffer number i of the answer of that face;
    its face code, subdivision and URL are untouched, and surplus buffers
    are ignored. *)
Theorem download_by_position faces w answers w' :
  served download_files_async faces w answers w' ->
  Forall2 (fun f a => (List.length (snd f) <= List.length a)%nat)
          faces answers ->
  exists faces',
    Streetside._download_tiles download_files_async faces w = (Ok faces', w')
    /\ map fst faces' = map fst faces
    /\ forall j k face images,
        nth_error faces j = Some (k, face) ->
        nth_error answers j = Some images ->
        exists face',
          nth_error faces' j = Some (k, face')
          /\ List.length face' = List.length face
          /\ forall i t,
              nth_error face i = Some t ->
              exists d,
                nth_error images i = Some d
                /\ nth_error face' i
                   = Some (Streetside.mk_tile (Streetside.face t)
                             (Streetside.subdiv t) (Streetside.url t) (Some d)).
Proof.
  intros Hs Hl. eexists.
  split; [exact (download_served faces w answers w' Hs Hl)|].
  assert (Hlen : List.length faces = List.length answers)
    by (apply (Forall2_same_length _ _ _ Hl)).
  split.
  - rewrite map_map. cbn [fst].
    rewrite <- (map_map fst fst), (map_fst_combine faces answers Hlen).
    reflexivity.
  - intros j k face images Hf Ha.
    exists (with_images face images).
    assert (Hle : (List.length face <= List.length images)%nat).
    { clear Hs Hlen. revert j Hf Ha.
      induction Hl as [|f a fs als Hfa _ IH]; intros j Hf Ha.
      - destruct j; discriminate.
      - destruct j as [|j]; cbn in Hf, Ha.
        + inversion Hf; inversion Ha; subst. exact Hfa.
        + now apply (IH j). }
    split.
    + rewrite nth_error_map.
      assert (Hc : nth_error (combine faces answers) j
                   = Some ((k, face), images)).
      { clear Hs Hl Hle. revert answers j Hlen Hf Ha.
        induction faces as [|f fs IH]; intros [|a als] j Hlen Hf Ha;
          try (destruct j; discriminate).
        destruct j as [|j]; cbn in *.
        - now inversion Hf; inversion Ha.
        - apply IH; [lia | assumption | assumption]. }
      rewrite Hc. reflexivity.
    + split; [now apply with_images_length|].
      intros i t Ht.
      destruct (nth_error images i) as [d|] eqn:Ed.
      * exists d. split; [reflexivity|]. now apply with_images_nth.
      * apply nth_error_None in Ed.
        assert (nth_error face i <> None) as Hn by congruence.
        apply nth_error_Some in Hn. lia.
Qed.

End DownloadFacts.

(** ** Composing the six faces *)

Section PanoramaFacts.

Variable decodable : PIL.bytes -> bool.
Variable CubemapStitchingMethod : Type.
Variable Output : Type.
Variable stitch_cubemap_faces :
  list PIL.Image -> Z -> CubemapStitchingMethod -> result Output.

(** What [_stitch_panorama] makes of one face of 4^k fetched tiles: the
    decoded tile at k = 0, the stitched face otherwise. *)
Lemma face_image (k : nat) (f : list Streetside.tile) :
  Py.len f = 4 ^ Z.of_nat k ->
  Forall (fetched decodable) f ->
  exists img,
    quad_image k f = Some img
    /\ (k = 0%nat ->
        (t <- Py.index f 0 ;;
         data <- Streetside.get_image t ;;
         Streetside.Image_open decodable data) = Ok img)
    /\ ((1 <= k)%nat -> Streetside._stitch_face decodable f = Ok img)
    /\ ((1 <= k)%nat ->
        forall data_size,
          PIL.size data_size img
          = (256 * 2 ^ Z.of_nat k, 256 * 2 ^ Z.of_nat k)).
Proof.
  intros Hl Hf. destruct k as [|k].
  - change (4 ^ Z.of_nat 0) with 1 in Hl. unfold Py.len in Hl.
    destruct f as [|t [|t' f]]; cbn [List.length] in Hl; try lia.
    inversion_clear Hf as [|? ? (d & E & D) _].
    exists (PIL.Opened d). cbn [quad_image]. rewrite E.
    split; [reflexivity|]. split; [|split; intros; lia].
    intros _. cbn. unfold Streetside.get_image, Streetside.Image_open.
    rewrite E. cbn [bind]. now rewrite D.
  - destruct (stitch_power decodable k f Hl Hf) as (img & Hs & Hq & _).
    exists img. split; [exact Hq|]. split; [intros; lia|].
    split; intros _.
    + unfold Streetside._stitch_face.
      apply (stitch_at_mono decodable (S k) f (Ok img) Hs); [discriminate|].
      pose proof (Z.pow_gt_lin_r 4 (Z.of_nat (S k)) ltac:(lia) ltac:(lia)).
      unfold Py.len in Hl. lia.
    + now apply (quad_image_size k f).
Qed.

Lemma six_faces (fs : list (list Streetside.tile)) :
  List.length fs = 6%nat ->
  exists f0 f1 f2 f3 f4 f5, fs = [f0; f1; f2; f3; f4; f5].
Proof.
  intros H. do 6 (destruct fs as [|? fs]; [discriminate|]).
  destruct fs; [|discriminate]. now eexists _, _, _, _, _, _.
Qed.

Lemma stitch_panorama_six (k : nat) (fs : list (list Streetside.tile))
      (method : CubemapStitchingMethod) :
  List.length fs = 6%nat ->
  Forall (fun f => Py.len f = 4 ^ Z.of_nat k /\ Forall (fetched decodable) f)
         fs ->
  exists imgs,
    Forall2 (fun f img => quad_image k f = Some img) fs imgs
    /\ ((1 <= k)%nat ->
        Forall (fun img =>
                  forall data_size,
                    PIL.size data_size img
                    = (256 * 2 ^ Z.of_nat k, 256 * 2 ^ Z.of_nat k)) imgs)
    /\ Streetside._stitch_panorama decodable stitch_cubemap_faces
         (combine (Py.range 6) fs) method
       = stitch_cubemap_faces imgs (2 ^ Z.of_nat k * 256) method.
Proof.
  intros H6 Hall.
  destruct (six_faces fs H6) as (f0 & f1 & f2 & f3 & f4 & f5 & ->).
  repeat match goal with
         | H : Forall _ (_ :: _) |- _ => inversion_clear H
         end.
  repeat match goal with
         | H : _ /\ _ |- _ => destruct H
         end.
  destruct (face_image k f0) as (i0 & Q0 & Z0 & S0 & E0); try assumption.
  destruct (face_image k f1) as (i1 & Q1 & Z1 & S1 & E1); try assumption.
  destruct (face_image k f2) as (i2 & Q2 & Z2 & S2 & E2); try assumption.
  destruct (face_image k f3) as (i3 & Q3 & Z3 & S3 & E3); try assumption.
  destruct (face_image k f4) as (i4 & Q4 & Z4 & S4 & E4); try assumption.
  destruct (face_image k f5) as (i5 & Q5 & Z5 & S5 & E5); try assumption.
  exists [i0; i1; i2; i3; i4; i5].
  split; [repeat constructor; assumption|].
  split; [intros Hk; repeat constructor; auto|].
  change (combine (Py.range 6) [f0; f1; f2; f3; f4; f5])
    with [(0, f0); (1, f1); (2, f2); (3, f3); (4, f4); (5, f5)].
  set (faces := [(0, f0); (1, f1); (2, f2); (3, f3); (4, f4); (5, f5)]).
  assert (D0 : Streetside.dict_get faces 0 = Ok f0) by reflexivity.
  assert (D1 : Streetside.dict_get faces 1 = Ok f1) by reflexivity.
  assert (D2 : Streetside.dict_get faces 2 = Ok f2) by reflexivity.
  assert (D3 : Streetside.dict_get faces 3 = Ok f3) by reflexivity.
  assert (D4 : Streetside.dict_get faces 4 = Ok f4) by reflexivity.
  assert (D5 : Streetside.dict_get faces 5 = Ok f5) by reflexivity.
  unfold Streetside._stitch_panorama.
  change (Py.range 6) with [0; 1; 2; 3; 4; 5]. cbn [mapM].
  rewrite D0, D1, D2, D3, D4, D5. cbn [bind].
  match goal with
  | H : Py.len f1 = _ |- _ => rewrite H
  end.
  rewrite isqrt_pow4. unfold Streetside.TILE_SIZE.
  destruct k as [|k].
  - change (4 ^ Z.of_nat 0 =? 1) with true. cbv iota.
    rewrite (Z0 eq_refl), (Z1 eq_refl), (Z2 eq_refl), (Z3 eq_refl),
      (Z4 eq_refl), (Z5 eq_refl).
    reflexivity.
  - assert (Hne : (4 ^ Z.of_nat (S k) =? 1) = false).
    { apply Z.eqb_neq. rewrite Nat2Z.inj_succ, Z.pow_succ_r by lia.
      pose proof (pow4_pos k). lia. }
    rewrite Hne.
    rewrite S0, S1, S2, S3, S4, S5 by lia.
    reflexivity.
Qed.

End PanoramaFacts.

Lemma served_length {World : Type}
      (download : list string -> M World (list PIL.bytes))
      faces w answers w' :
  served download faces w answers w' ->
  List.length faces = List.length answers.
Proof. induction 1; cbn; congruence. Qed.

Lemma Forall2_of_Forall {A B : Type} (P : A -> Prop) (Q : B -> Prop)
      (l : list A) (l' : list B) :
  List.length l = List.length l' -> Forall P l -> Forall Q l' ->
  Forall2 (fun a b => P a /\ Q b) l l'.
Proof.
  revert l'. induction l as [|a l IH]; intros [|b l'] Hlen Hp Hq;
    try discriminate; constructor.
  - split; [now inversion Hp | now inversion Hq].
  - apply IH; [now inversion Hlen | now inversion Hp | now inversion Hq].
Qed.

Lemma map_snd_combine {A B : Type} (l : list A) (l' : list B) :
  List.length l = List.length l' -> map snd (combine l l') = l'.
Proof.
  revert l'. induction l as [|a l IH]; intros [|b l'] H; try discriminate;
    [reflexivity|].
  cbn. f_equal. apply IH. now inversion H.
Qed.

Lemma Forall2_map_left {A B C : Type} (R : B -> C -> Prop) (f : A -> B)
      (l : list A) (l' : list C) :
  Forall2 R (map f l) l' -> Forall2 (fun a c => R (f a) c) l l'.
Proof.
  revert l'. induction l as [|a l IH]; intros l' H; inversion H; subst;
    constructor; auto.
Qed.

Lemma Forall2_map_left_inv {A B C : Type} (R : B -> C -> Prop) (f : A -> B)
      (l : list A) (l' : list C) :
  Forall2 (fun a c => R (f a) c) l l' -> Forall2 R (map f l) l'.
Proof. induction 1; cbn; constructor; auto. Qed.

Lemma Forall2_impl_in_left {A B : Type} (R1 R2 : A -> B -> Prop)
      (l : list A) (l' : list B) :
  (forall a b, In a l -> R1 a b -> R2 a b) ->
  Forall2 R1 l l' -> Forall2 R2 l l'.
Proof.
  intros H HF. induction HF as [|a b l l' Hab HF IH]; constructor.
  - apply H; [now left | assumption].
  - apply IH. intros a' b' Hin. apply H. now right.
Qed.

Lemma downloaded_faces_by_key (T : Z -> list Streetside.tile) (R : list Z) :
  forall answers : list (list PIL.bytes),
    map (fun fa : (Z * list Streetside.tile) * list PIL.bytes =>
           (fst (fst fa), with_images (snd (fst fa)) (snd fa)))
        (combine (map (fun f => (f, T f)) R) answers)
    = combine R (map (fun ra => with_images (T (fst ra)) (snd ra))
                     (combine R answers)).
Proof.
  induction R as [|r R IH]; intros [|a answers]; try reflexivity.
  cbn. now rewrite IH.
Qed.

Lemma with_images_fetched (decodable : PIL.bytes -> bool)
      (face : list Streetside.tile) :
  forall images,
    (List.length face <= List.length images)%nat ->
    Forall (fun d => decodable d = true) images ->
    Forall (fetched decodable) (with_images face images).
Proof.
  induction face as [|t face IH]; [constructor|].
  intros [|d images] Hl Hd; cbn in Hl; [lia|].
  unfold with_images in *. cbn [combine map fst snd].
  inversion_clear Hd. constructor.
  - exists d. now split.
  - apply IH; [lia | assumption].
Qed.

Section EndToEnd.

Variable World : Type.
Variable download_files_async : list string -> M World (list PIL.bytes).
Variable decodable : PIL.bytes -> bool.
Variable CubemapStitchingMethod : Type.
Variable Output : Type.
Variable stitch_cubemap_faces :
  list PIL.Image -> Z -> CubemapStitchingMethod -> result Output.

(** X5. [_stitch_panorama] on the six faces of one zoom level, every tile
    fetched: with one tile per face the six decoded tiles are handed to the
    cubemap composition as they are, with side 256; with 4^k tiles per
    face, k >= 1, the six stitched faces, each a square of side 256 * 2^k,
    with that side. In both cases the images are the ones the quadtree
    describes, in face order. A dictionary without the key 1 is a
    [KeyError] before anything is stitched. *)
Theorem stitch_panorama_faces (k : nat) (fs : list (list Streetside.tile))
        (method : CubemapStitchingMethod) :
  (List.length fs = 6%nat ->
   Forall (fun f => Py.len f = 4 ^ Z.of_nat k /\ Forall (fetched decodable) f)
          fs ->
   exists imgs,
     Forall2 (fun f img => quad_image k f = Some img) fs imgs
     /\ ((1 <= k)%nat ->
         Forall (fun img =>
                   forall data_size,
                     PIL.size data_size img
                     = (256 * 2 ^ Z.of_nat k, 256 * 2 ^ Z.of_nat k)) imgs)
     /\ Streetside._stitch_panorama decodable stitch_cubemap_faces
          (combine (Py.range 6) fs) method
        = stitch_cubemap_faces imgs (2 ^ Z.of_nat k * 256) method)
  /\ (forall faces,
        Streetside.dict_get faces 1 = Err KeyError ->
        Streetside._stitch_panorama decodable stitch_cubemap_faces
          faces method = Err KeyError).
Proof.
  split.
  - apply stitch_panorama_six.
  - intros faces H. unfold Streetside._stitch_panorama. now rewrite H.
Qed.

(** X6. A whole request of the cubemap engine that goes well. For a
    panorama id below 4^16 and max_zoom in [0, 4], when the network answers
    the six batches of the tile list at the clamped zoom z, each with at
    least 4^z buffers that decode, get_panorama returns what the cubemap
    composition makes of six images with side 256 * 2^z, in the world the
    sixth batch left. At z = 0 the images are the first buffer of each
    answer, decoded; at z >= 1 they are squares of side 256 * 2^z. *)
Theorem get_panorama_success (pano : Streetside.StreetsidePanorama)
        (zoom : Z) (method : CubemapStitchingMethod)
        (w w' : World) (answers : list (list PIL.bytes)) :
  0 <= Streetside.id pano < 4 ^ 16 ->
  0 <= Streetside.max_zoom pano <= 4 ->
  let z := Streetside.clamp_zoom zoom (Streetside.max_zoom pano) in
  served download_files_async (cubemap_tiles (Streetside.id pano) z)
         w answers w' ->
  Forall (fun a => 4 ^ z <= Py.len a
                   /\ Forall (fun d => decodable d = true) a) answers ->
  exists imgs,
    Streetside.get_panorama download_files_async decodable
      stitch_cubemap_faces pano zoom method w
    = (stitch_cubemap_faces imgs (2 ^ z * 256) method, w')
    /\ List.length imgs = 6%nat
    /\ (z = 0 -> imgs = map (fun a => PIL.Opened (hd [] a)) answers)
    /\ (1 <= z ->
        Forall (fun img =>
                  forall data_size,
                    PIL.size data_size img = (256 * 2 ^ z, 256 * 2 ^ z))
               imgs).
Proof.
  intros Hid Hm z Hs Ha.
  assert (Hz : 0 <= z <= 4) by (subst z; unfold Streetside.clamp_zoom; lia).
  assert (Hk : Z.of_nat (Z.to_nat z) = z) by lia.
  assert (Hpow : 0 < 4 ^ z) by (apply Z.pow_pos_nonneg; lia).
  set (T := fun f : Z =>
              map (fun i : Z =>
                     Streetside.mk_tile (Base4.fixed 2 (f + 1)) i
                       ("https://t.ssl.ak.tiles.virtualearth.net/tiles/hs"
                          ++ Base4.fixed 16 (Streetside.id pano)
                          ++ Base4.fixed 2 (f + 1)
                          ++ Base4.fixed (Z.to_nat z) i
                          ++ ".jpg?g=13716") None)
                  (Py.range (4 ^ z))).
  assert (HT : cubemap_tiles (Streetside.id pano) z
               = map (fun f => (f, T f)) (Py.range 6)) by reflexivity.
  assert (HTlen : forall f, List.length (T f) = Z.to_nat (4 ^ z)).
  { intros f. unfold T. now rewrite length_map, range_length. }
  pose proof (served_length _ _ _ _ _ Hs) as Hlen.
  rewrite HT, length_map, range_length in Hlen.
  change (Z.to_nat 6) with 6%nat in Hlen.
  assert (Hl2 : Forall2 (fun f a => (List.length (snd f) <= List.length a)%nat)
                        (cubemap_tiles (Streetside.id pano) z) answers).
  { assert (Hf : Forall (fun f : Z * list Streetside.tile =>
                           List.length (snd f) = Z.to_nat (4 ^ z))
                        (cubemap_tiles (Streetside.id pano) z)).
    { rewrite HT. apply Forall_map, Forall_forall. intros f _. apply HTlen. }
    assert (Hlen' : List.length (cubemap_tiles (Streetside.id pano) z)
                    = List.length answers)
      by (rewrite HT, length_map, range_length; exact Hlen).
    pose proof (Forall2_of_Forall _ _ _ _ Hlen' Hf Ha) as H2.
    eapply Forall2_impl; [|exact H2].
    intros f a (Hfl & Hal & _). cbv beta in *. unfold Py.len in Hal. lia. }
  pose proof (download_served _ download_files_async _ _ _ _ Hs Hl2) as Hd.
  rewrite HT, downloaded_faces_by_key in Hd.
  set (fs := map (fun ra => with_images (T (fst ra)) (snd ra))
                 (combine (Py.range 6) answers)) in *.
  assert (Hfs6 : List.length fs = 6%nat).
  { unfold fs. rewrite length_map, length_combine, range_length.
    change (Z.to_nat 6) with 6%nat. lia. }
  assert (Hall : Forall (fun f => Py.len f = 4 ^ Z.of_nat (Z.to_nat z)
                                  /\ Forall (fetched decodable) f) fs).
  { unfold fs. apply Forall_map, Forall_forall. intros [r a] Hin.
    apply in_combine_r in Hin. cbn [fst snd].
    pose proof (proj1 (Forall_forall _ _) Ha a Hin) as (Hal & Hdec).
    unfold Py.len in Hal.
    assert (Hle : (List.length (T r) <= List.length a)%nat)
      by (rewrite HTlen; lia).
    split.
    - unfold Py.len. rewrite with_images_length, HTlen, Hk by exact Hle. lia.
    - now apply with_images_fetched. }
  destruct (stitch_panorama_six decodable CubemapStitchingMethod Output
              stitch_cubemap_faces (Z.to_nat z) fs method Hfs6 Hall)
    as (imgs & Hq & Hsize & Hst).
  exists imgs.
  split.
  { unfold Streetside.get_panorama, bindM, lift.
    fold (Streetside.clamp_zoom zoom (Streetside.max_zoom pano)). fold z.
    rewrite (generate_tile_list_ok (Streetside.id pano) z Hid Hz), HT, Hd, Hst.
    now rewrite Hk. }
  split.
  { rewrite <- (Forall2_same_length _ _ _ Hq). exact Hfs6. }
  split.
  - intros Hz0.
    assert (Hone : Forall2 (fun a img => img = PIL.Opened (hd [] a))
                           answers imgs).
    { assert (Hq' : Forall2 (fun (ra : Z * list PIL.bytes) img =>
                               img = PIL.Opened (hd [] (snd ra)))
                            (combine (Py.range 6) answers) imgs).
      { unfold fs in Hq. apply Forall2_map_left in Hq.
        eapply Forall2_impl_in_left; [|exact Hq]. cbv beta.
        intros [r a] img Hin Hqi. cbn [fst snd] in *.
        apply in_combine_r in Hin.
        pose proof (proj1 (Forall_forall _ _) Ha a Hin) as (Hal & _).
        unfold T in Hqi. rewrite Hz0 in Hqi, Hal.
        change (Z.to_nat 0) with 0%nat in Hqi.
        change (Py.range (4 ^ 0)) with [0] in Hqi.
        destruct a as [|d a]; [cbn in Hal; lia|].
        cbn in Hqi. cbn [hd]. congruence. }
      rewrite <- (map_snd_combine (Py.range 6) answers)
        by (rewrite range_length; exact Hlen).
      now apply Forall2_map_left_inv. }
    clear - Hone. induction Hone as [|a img answers imgs -> _ IH];
      [reflexivity | cbn; now rewrite IH].
  - intros Hz1. rewrite <- Hk.
    apply Hsize. lia.
Qed.

End EndToEnd.

Lemma sample_served :
  served (sample_download 6) (cubemap_tiles 27 0) 0%nat sample_answers 6%nat.
Proof.
  vm_compute.
  repeat (eapply served_cons; [reflexivity|]).
  apply served_nil.
Qed.

Lemma sample_answers_fit (faces : Streetside.faces_dict) :
  faces = cubemap_tiles 27 0 ->
  Forall2 (fun f a => (List.length (snd f) <= List.length a)%nat)
          faces sample_answers.
Proof. intros ->. vm_compute. repeat constructor. Qed.

Lemma download_by_position_witness :
  exists faces',
    Streetside._download_tiles (sample_download 6) (cubemap_tiles 27 0) 0%nat
    = (Ok faces', 6%nat)
    /\ map fst faces' = map fst (cubemap_tiles 27 0).
Proof.
  destruct (download_by_position nat (sample_download 6) (cubemap_tiles 27 0)
              0%nat sample_answers 6%nat sample_served
              (sample_answers_fit _ eq_refl))
    as (faces' & H & Hk & _).
  exists faces'. split; [exact H | exact Hk].
Defined.

Lemma stitch_panorama_faces_witness :
  exists imgs,
    Streetside._stitch_panorama always_decodable sample_stitch
      (combine (Py.range 6) (repeat (sample_face 4) 6)) tt
    = sample_stitch imgs (2 ^ Z.of_nat 1 * 256) tt.
Proof.
  destruct (proj1 (stitch_panorama_faces always_decodable unit
                     (list PIL.Image) sample_stitch 1
                     (repeat (sample_face 4) 6) tt))
    as (imgs & _ & _ & H).
  - reflexivity.
  - apply Forall_forall. intros f Hf. apply repeat_spec in Hf. subst f.
    split; [reflexivity | apply sample_face_fetched].
  - exists imgs. exact H.
Defined.

Lemma get_panorama_success_witness :
  exists imgs,
    Streetside.get_panorama (sample_download 6) always_decodable sample_stitch
      sample_streetside_pano 0 tt 0%nat
    = (sample_stitch imgs (2 ^ 0 * 256) tt, 6%nat)
    /\ List.length imgs = 6%nat.
Proof.
  destruct (get_panorama_success nat (sample_download 6) always_decodable
              unit (list PIL.Image) sample_stitch sample_streetside_pano 0 tt
              0%nat 6%nat sample_answers)
    as (imgs & H & Hl & _).
  - split; [apply Z.leb_le | apply Z.ltb_lt]; reflexivity.
  - split; apply Z.leb_le; reflexivity.
  - exact sample_served.
  - apply Forall_forall. intros a Ha. apply repeat_spec in Ha. subst a.
    split; [apply Z.leb_le; reflexivity | repeat constructor].
  - exists imgs. split; [exact H | exact Hl].
Defined.

(** ** Every tile has its own URL *)

Lemma string_app_inv_head (a x y : string) : a ++ x = a ++ y -> x = y.
Proof.
  induction a as [|c a IH]; cbn [append]; intros H; [exact H|].
  apply IH. now inversion H.
Qed.

Lemma string_app_inj_length (a a' b b' : string) :
  String.length a = String.length a' ->
  a ++ b = a' ++ b' -> a = a' /\ b = b'.
Proof.
  revert a'. induction a as [|c a IH]; intros [|c' a'] Hl H;
    try discriminate; cbn [append] in H.
  - now split.
  - inversion H; subst. cbn in Hl.
    destruct (IH a' ltac:(lia) ltac:(assumption)) as (-> & ->). now split.
Qed.

Lemma fixed_inj (w : nat) (n n' : Z) :
  0 <= n < 4 ^ Z.of_nat w -> 0 <= n' < 4 ^ Z.of_nat w ->
  Base4.fixed w n = Base4.fixed w n' -> n = n'.
Proof.
  intros Hn Hn' H. apply (f_equal Base4.from_base4) in H.
  rewrite !from_base4_fixed in H by assumption. congruence.
Qed.

Lemma generate_tile_list_shape (panoid zoom : Z) :
  0 <= zoom <= 4 ->
  Streetside._generate_tile_list panoid zoom =
  Ok (map (fun f : Z =>
             (f, map (fun i : Z =>
                        Streetside.mk_tile (Base4.fixed 2 (f + 1)) i
                          (Streetside.tile_url
                             (Py.rjust (Base4.to_base4 panoid) 16 "0")
                             (Base4.fixed 2 (f + 1)
                                ++ Base4.fixed (Z.to_nat zoom) i)) None)
                     (Py.range (4 ^ zoom))))
          (Py.range 6)).
Proof.
  intros Hz. unfold Streetside._generate_tile_list.
  destruct (Z.gtb_spec zoom 4) as [H|_]; [lia|].
  rewrite pow_int by lia. cbn [bind].
  cbn [Py.range_of].
  apply mapM_ok_map. intros f Hf. apply in_range in Hf.
  cbn [bind]. do 2 f_equal.
  assert (Hface : Py.rjust (Base4.to_base4 (f + 1)) 2 "0"
                  = Base4.fixed 2 (f + 1)).
  { apply (rjust_to_base4 2); [lia|]. change (4 ^ Z.of_nat 2) with 16. lia. }
  rewrite Hface.
  apply map_ext_in. intros i Hi. apply in_range in Hi.
  do 3 f_equal.
  destruct (Z.ltb_spec zoom 1) as [H|H].
  - assert (zoom = 0) as -> by lia. reflexivity.
  - rewrite <- (Z2Nat.id zoom) at 1 by lia.
    apply rjust_to_base4; [lia|]. rewrite Z2Nat.id by lia. exact Hi.
Qed.

Lemma flat_map_product {A B C : Type} (g : A * B -> C)
      (xs : list A) (ys : list B) :
  flat_map (fun x => map (fun y => g (x, y)) ys) xs
  = map g (Streetview.product xs ys).
Proof.
  unfold Streetview.product. induction xs as [|x xs IH]; [reflexivity|].
  cbn [flat_map]. now rewrite map_app, map_map, IH.
Qed.

(** X7. No tile of the cubemap engine is requested twice: for every
    panorama id and every zoom in [0, 4] the 6 * 4^zoom URLs of the tile
    list are pairwise distinct. *)
Theorem cubemap_urls_distinct (panoid zoom : Z) :
  0 <= zoom <= 4 ->
  exists faces,
    Streetside._generate_tile_list panoid zoom = Ok faces
    /\ NoDup (all_urls faces)
    /\ Py.len (all_urls faces) = 6 * 4 ^ zoom.
Proof.
  intros Hz. eexists. split; [now apply generate_tile_list_shape|].
  set (P := Py.rjust (Base4.to_base4 panoid) 16 "0").
  set (w := Z.to_nat zoom).
  assert (Hw : Z.of_nat w = zoom) by (subst w; lia).
  assert (Hpow : 0 <= 4 ^ zoom) by (apply Z.pow_nonneg; lia).
  assert (Hu : all_urls
                 (map (fun f : Z =>
                         (f, map (fun i : Z =>
                                    Streetside.mk_tile (Base4.fixed 2 (f + 1)) i
                                      (Streetside.tile_url P
                                         (Base4.fixed 2 (f + 1)
                                            ++ Base4.fixed w i)) None)
                                 (Py.range (4 ^ zoom))))
                      (Py.range 6))
               = map (fun fi : Z * Z =>
                        Streetside.tile_url P
                          (Base4.fixed 2 (fst fi + 1)
                             ++ Base4.fixed w (snd fi)))
                     (Streetview.product (Py.range 6) (Py.range (4 ^ zoom)))).
  { unfold all_urls. rewrite flat_map_concat_map, map_map.
    rewrite <- flat_map_concat_map. cbn [snd].
    rewrite <- (flat_map_product
                  (fun fi : Z * Z =>
                     Streetside.tile_url P
                       (Base4.fixed 2 (fst fi + 1) ++ Base4.fixed w (snd fi)))).
    apply flat_map_ext. intros f. rewrite map_map. reflexivity. }
  rewrite Hu. split.
  - apply NoDup_map_NoDup_ForallPairs;
      [|apply product_NoDup; apply range_NoDup].
    intros [f i] [f' i'] Hin Hin' H. cbn [fst snd] in H.
    apply in_product in Hin, Hin'.
    rewrite !in_range in Hin, Hin'.
    rewrite !tile_url_eq in H.
    apply string_app_inv_head, string_app_inv_head in H.
    apply string_app_inj_length in H; [|now rewrite !fixed_length].
    destruct H as (Hf & H).
    apply string_app_inj_length in H; [|now rewrite !fixed_length].
    destruct H as (Hi & _).
    apply fixed_inj in Hf; [|change (4 ^ Z.of_nat 2) with 16; lia ..].
    apply fixed_inj in Hi; [|rewrite Hw; lia ..].
    f_equal; lia.
  - unfold Py.len. rewrite length_map, product_length, !range_length.
    change (Z.to_nat 6) with 6%nat. lia.
Qed.

Lemma cubemap_urls_distinct_witness :
  0 <= 2 <= 4 /\
  exists faces,
    Streetside._generate_tile_list 27 2 = Ok faces
    /\ NoDup (all_urls faces).
Proof.
  split; [lia|].
  destruct (cubemap_urls_distinct 27 2 ltac:(lia)) as (faces & H & Hn & _).
  exists faces. split; [exact H | exact Hn].
Defined.

(** ** Splitting at the edges *)

(** X8. The list-splitting helper at its edges: a size of 0 is the
    [ValueError] of a zero range step; a negative size gives no chunk at
    all, whatever the list; a positive size gives the ceiling of
    length / size chunks, so none for the empty list and the list itself
    as the only chunk when the size is at least its length. *)
Theorem split_list_edges {A : Type} (l : list A) :
  Streetside._split_list l 0
  = Err (ValueError "range() arg 3 must not be zero")
  /\ (forall s, s < 0 -> Streetside._split_list l s = Ok [])
  /\ (forall s, 0 < s ->
        exists cs,
          Streetside._split_list l s = Ok cs
          /\ is_ceiling (Py.len cs) (Py.len l) s)
  /\ (forall s, 0 < s -> l = [] -> Streetside._split_list l s = Ok [])
  /\ (forall s, l <> [] -> Py.len l <= s ->
        Streetside._split_list l s = Ok [l]).
Proof.
  split; [reflexivity|].
  split.
  { intros s Hs. unfold Streetside._split_list, Py.range_step.
    destruct (Z.eqb_spec s 0) as [?|_]; [lia|].
    destruct (Z.ltb_spec s 0) as [_|?]; [reflexivity | lia]. }
  assert (Hcount : forall s, 0 < s ->
            is_ceiling (Z.of_nat (chunk_count l s)) (Py.len l) s).
  { intros s Hs. unfold chunk_count, is_ceiling, Py.len.
    pose proof (Z.div_mod (Z.of_nat (List.length l) + s - 1) s ltac:(lia)) as E.
    pose proof (Z.mod_pos_bound (Z.of_nat (List.length l) + s - 1) s Hs) as B.
    assert (0 <= (Z.of_nat (List.length l) + s - 1) / s)
      by (apply Z.div_pos; lia).
    rewrite Z2Nat.id by lia. nia. }
  split.
  { intros s Hs. eexists. split; [now apply split_list_chunks|].
    unfold Py.len at 1. rewrite length_map, length_seq. now apply Hcount. }
  split.
  { intros s Hs ->. rewrite split_list_chunks by exact Hs.
    pose proof (Hcount s Hs) as Hc. unfold is_ceiling, Py.len in Hc.
    cbn [List.length] in Hc.
    assert (chunk_count (@nil A) s = 0%nat) as -> by nia. reflexivity. }
  intros s Hne Hs.
  assert (Hpos : 0 < s).
  { unfold Py.len in Hs. destruct l; [contradiction | cbn in Hs; lia]. }
  rewrite split_list_chunks by exact Hpos.
  pose proof (Hcount s Hpos) as Hc. unfold is_ceiling in Hc.
  assert (chunk_count l s = 1%nat) as ->.
  { unfold Py.len in *. destruct l; [contradiction|]. cbn [List.length] in *.
    nia. }
  cbn [seq map]. unfold chunk. cbn [Nat.mul skipn].
  rewrite firstn_all2; [reflexivity | unfold Py.len in Hs; lia].
Qed.

Lemma split_list_edges_witness :
  -1 < 0 /\ Streetside._split_list [1; 2; 3] (-1) = Ok []
  /\ Streetside._split_list [1; 2; 3] 5 = Ok [[1; 2; 3]].
Proof.
  pose proof (split_list_edges [1; 2; 3]) as (_ & Hneg & _ & _ & Hbig).
  split; [lia|]. split.
  - apply Hneg. lia.
  - apply Hbig; [discriminate | apply Z.leb_le; reflexivity].
Defined.

(** ** The grid covers the image *)



Section GridMore.

Variable Meta : Type.
Variable is_third_party_panoid : string -> bool.

Implicit Types (pano : Streetview.StreetViewPanorama Meta) (zoom : Z).

(** X9. For image and tile dimensions below 2^53 the tiles of the grid
    engine cover the image exactly: every pixel of the declared image lies
    in the cell of one tile of the list and of no other, and every tile of
    the list starts inside the image, so no tile is fetched for nothing. *)
Theorem grid_tiles_cover pano zoom (width height tile_width tile_height : Z) :
  Streetview.image_size_at pano zoom = Ok (Size.mk width height) ->
  Streetview.tile_size pano = Some (Size.mk tile_width tile_height) ->
  0 <= width < 2 ^ 53 -> 0 <= height < 2 ^ 53 ->
  0 < tile_width < 2 ^ 53 -> 0 < tile_height < 2 ^ 53 ->
  exists tiles,
    Streetview._generate_tile_list is_third_party_panoid pano zoom = Ok tiles
    /\ (forall px py,
          0 <= px < width -> 0 <= py < height ->
          exists t,
            In t tiles
            /\ Tile.x t * tile_width <= px < (Tile.x t + 1) * tile_width
            /\ Tile.y t * tile_height <= py < (Tile.y t + 1) * tile_height
            /\ forall t',
                In t' tiles ->
                Tile.x t' * tile_width <= px < (Tile.x t' + 1) * tile_width ->
                Tile.y t' * tile_height <= py < (Tile.y t' + 1) * tile_height ->
                t' = t)
    /\ (forall t,
          In t tiles ->
          0 <= Tile.x t /\ Tile.x t * tile_width < width
          /\ 0 <= Tile.y t /\ Tile.y t * tile_height < height).
Proof.
  intros Hsz Hts Hwb Hhb [Htw Htwb] [Hth Hthb].
  pose proof (generate_grid Meta is_third_party_panoid pano zoom _ _ Hsz Hts)
    as Hgen.
  cbn [Size.x Size.y] in Hgen.
  specialize (Hgen Hwb Hhb (conj Htw Htwb) (conj Hth Hthb)).
  pose proof (ceil_div_is_ceiling width tile_width Htw) as Hc.
  pose proof (ceil_div_is_ceiling height tile_height Hth) as Hr.
  set (cols := - (- width / tile_width)) in *.
  set (rows := - (- height / tile_height)) in *.
  unfold is_ceiling in Hc, Hr.
  set (mk := fun xy : Z * Z =>
               Tile.mk (fst xy) (snd xy)
                 (grid_url (is_third_party_panoid (Streetview.id pano))
                           (Streetview.id pano) (fst xy) (snd xy) zoom)) in *.
  assert (Hin : forall t,
            In t (map mk (Streetview.product (Py.range cols) (Py.range rows)))
            <-> exists x y, t = mk (x, y) /\ 0 <= x < cols /\ 0 <= y < rows).
  { intros t. rewrite in_map_iff. split.
    - intros ([x y] & <- & H). apply in_product in H.
      rewrite !in_range in H. now exists x, y.
    - intros (x & y & -> & Hx & Hy). exists (x, y). split; [reflexivity|].
      apply in_product. now rewrite !in_range. }
  eexists. split; [exact Hgen|]. split.
  - intros px py Hpx Hpy.
    pose proof (Z.div_mod px tile_width ltac:(lia)) as Ex.
    pose proof (Z.mod_pos_bound px tile_width Htw) as Bx.
    pose proof (Z.div_mod py tile_height ltac:(lia)) as Ey.
    pose proof (Z.mod_pos_bound py tile_height Hth) as By.
    assert (Hx0 : 0 <= px / tile_width) by (apply Z.div_pos; lia).
    assert (Hy0 : 0 <= py / tile_height) by (apply Z.div_pos; lia).
    exists (mk (px / tile_width, py / tile_height)).
    split.
    { apply Hin. exists (px / tile_width), (py / tile_height).
      split; [reflexivity|]. split; nia. }
    unfold mk at 1 2 3 4. cbn [Tile.x Tile.y fst snd].
    split; [nia|]. split; [nia|].
    intros t' Ht' Hx' Hy'. apply Hin in Ht'.
    destruct Ht' as (x & y & -> & Hx & Hy).
    unfold mk in Hx', Hy'. cbn [Tile.x Tile.y fst snd] in Hx', Hy'.
    assert (x = px / tile_width) as -> by nia.
    assert (y = py / tile_height) as -> by nia.
    reflexivity.
  - intros t Ht. apply Hin in Ht. destruct Ht as (x & y & -> & Hx & Hy).
    unfold mk. cbn [Tile.x Tile.y fst snd]. nia.
Qed.


End GridMore.

Lemma grid_tiles_cover_witness :
  exists tiles,
    Streetview._generate_tile_list sample_third_party (sample_pano "abc") 1
    = Ok tiles
    /\ forall t, In t tiles -> Tile.x t * 256 < 1024 /\ Tile.y t * 256 < 512.
Proof.
  destruct (grid_tiles_cover unit sample_third_party (sample_pano "abc") 1
              1024 512 256 256)
    as (tiles & Hgen & _ & Hin); try reflexivity; try lia.
  exists tiles. split; [exact Hgen|].
  intros t Ht. destruct (Hin t Ht) as (_ & Hx & _ & Hy). now split.
Defined.


(** ** Every grid tile has its own URL *)

Lemma str_inj (n n' : Z) : Py.str n = Py.str n' -> n = n'.
Proof.
  unfold Py.str. intros H.
  assert (Hnn : forall z, Z.to_int z <> Decimal.Pos Decimal.Nil
                          /\ Z.to_int z <> Decimal.Neg Decimal.Nil).
  { intros [|p|p]; cbn; split; try discriminate; intros E; inversion E;
      now apply (Unsigned.to_uint_nonnil p). }
  apply (f_equal NilZero.int_of_string) in H.
  rewrite !NilZero.isi in H by apply Hnn.
  apply DecimalZ.to_int_inj. congruence.
Qed.

Lemma uint_plain (d : Decimal.uint) : plain (NilEmpty.string_of_uint d).
Proof.
  induction d; cbn; repeat split; try discriminate; try assumption.
Qed.

Lemma str_plain (n : Z) : 0 <= n -> plain (Py.str n).
Proof.
  intros Hn. unfold Py.str. destruct n as [|p|p]; [| |lia].
  - cbn. repeat split; discriminate.
  - cbn [Z.to_int NilZero.string_of_int]. unfold NilZero.string_of_uint.
    destruct (Pos.to_uint p) eqn:E; try (rewrite <- E; apply uint_plain).
    cbn. repeat split; discriminate.
Qed.

(** A field without separators ends where the separator stands. *)
Lemma plain_field (a a' : string) (c c' : ascii) (r r' : string) :
  plain a -> plain a' ->
  c = "-"%char \/ c = "&"%char -> c' = "-"%char \/ c' = "&"%char ->
  a ++ String c r = a' ++ String c' r' ->
  a = a' /\ String c r = String c' r'.
Proof.
  revert a'. induction a as [|h a IH]; intros [|h' a'] Hp Hp' Hc Hc' H;
    cbn [append plain] in *.
  - now split.
  - inversion H; subst. destruct Hp' as (H1 & H2 & _).
    destruct Hc; contradiction.
  - inversion H; subst. destruct Hp as (H1 & H2 & _).
    destruct Hc'; contradiction.
  - inversion H; subst.
    destruct (IH a') as (-> & E); tauto.
Qed.

Lemma grid_url_inj (third_party : bool) (id : string) (zoom x y x' y' : Z) :
  0 <= x -> 0 <= y -> 0 <= x' -> 0 <= y' ->
  grid_url third_party id x y zoom = grid_url third_party id x' y' zoom ->
  x = x' /\ y = y'.
Proof.
  intros Hx Hy Hx' Hy' H.
  destruct third_party; unfold grid_url, third_party_url, first_party_url in H.
  - do 3 apply string_app_inv_head in H.
    apply plain_field in H; try (now apply str_plain); try (now left).
    destruct H as (Ex & H).
    change (String "-" (String "y" ?s)) with ("-y" ++ s) in H.
    apply (string_app_inv_head "-y") in H.
    apply plain_field in H; try (now apply str_plain); try (now left).
    destruct H as (Ey & _).
    split; now apply str_inj.
  - do 5 apply string_app_inv_head in H.
    apply plain_field in H; try (now apply str_plain); try (now right).
    destruct H as (Ex & H).
    apply (string_app_inv_head "&y=") in H.
    split; now apply str_inj.
Qed.

Section GridUrls.

Variable Meta : Type.
Variable is_third_party_panoid : string -> bool.

(** X11. No tile of the grid engine is requested twice: whenever a tile
    list is returned, its tiles have pairwise distinct coordinates, all of
    them non-negative, and pairwise distinct URLs. *)
Theorem grid_urls_distinct (pano : Streetview.StreetViewPanorama Meta)
        (zoom : Z) (tiles : list Tile.t) :
  Streetview._generate_tile_list is_third_party_panoid pano zoom = Ok tiles ->
  NoDup (map Tile.url tiles)
  /\ NoDup (map coordinates tiles)
  /\ Forall (fun t => 0 <= Tile.x t /\ 0 <= Tile.y t) tiles.
Proof.
  intros H. unfold Streetview._generate_tile_list in H.
  destruct (Streetview.image_size_at pano zoom) as [sz|]; [|discriminate].
  destruct (Streetview.tile_size_of pano) as [ts|]; [|discriminate].
  cbn [bind] in H.
  destruct (Py.ceil_div (Size.x sz) (Size.x ts)) as [cols|]; [|discriminate].
  destruct (Py.ceil_div (Size.y sz) (Size.y ts)) as [rows|]; [|discriminate].
  cbn [bind] in H.
  rewrite (mapM_ok_map _
             (fun xy : Z * Z =>
                Tile.mk (fst xy) (snd xy)
                  (grid_url (is_third_party_panoid (Streetview.id pano))
                            (Streetview.id pano) (fst xy) (snd xy) zoom)))
    in H by (intros [x y] _; apply tile_of_coordinates).
  assert (tiles = map (fun xy : Z * Z =>
                         Tile.mk (fst xy) (snd xy)
                           (grid_url
                              (is_third_party_panoid (Streetview.id pano))
                              (Streetview.id pano) (fst xy) (snd xy) zoom))
                      (Streetview.product (Py.range cols) (Py.range rows)))
    as -> by congruence.
  clear H. rewrite !map_map. cbn [Tile.url]. unfold coordinates.
  cbn [Tile.x Tile.y].
  split; [|split].
  - apply NoDup_map_NoDup_ForallPairs;
      [|apply product_NoDup; apply range_NoDup].
    intros [x y] [x' y'] Hin Hin' E. cbn [fst snd] in E.
    apply in_product in Hin, Hin'. rewrite !in_range in Hin, Hin'.
    apply grid_url_inj in E; try lia. f_equal; tauto.
  - apply NoDup_map_NoDup_ForallPairs;
      [|apply product_NoDup; apply range_NoDup].
    intros [x y] [x' y'] _ _ E. exact E.
  - apply Forall_map, Forall_forall. intros [x y] Hin. cbn [Tile.x Tile.y fst snd].
    apply in_product in Hin. rewrite !in_range in Hin. lia.
Qed.

End GridUrls.

Lemma grid_urls_distinct_witness :
  exists tiles,
    Streetview._generate_tile_list sample_third_party (sample_pano "abc") 1
    = Ok tiles
    /\ NoDup (map Tile.url tiles).
Proof.
  eexists. split; [vm_compute; reflexivity|].
  apply (grid_urls_distinct unit sample_third_party (sample_pano "abc") 1).
  vm_compute. reflexivity.
Defined.

(** ** The date string of a Streetside panorama *)

Example date_string_example :
  Metadata.date_string "5/7/2014 1:02:03 PM" = Ok "05/07/2014 1:02:03 PM".
Proof. reflexivity. Qed.

Lemma split_nonempty (sep : ascii) (s : string) : Metadata.split sep s <> [].
Proof.
  destruct s as [|c s]; cbn; [discriminate|].
  destruct (Ascii.eqb c sep); [discriminate|].
  destruct (Metadata.split sep s); discriminate.
Qed.

Lemma join_cons (sep p : string) (q : string) (rest : list string) :
  Metadata.join sep (p :: q :: rest) = p ++ sep ++ Metadata.join sep (q :: rest).
Proof. reflexivity. Qed.

Lemma join_split (sep : ascii) (s : string) :
  Metadata.join (String sep "") (Metadata.split sep s) = s.
Proof.
  induction s as [|c s IH]; [reflexivity|]. cbn [Metadata.split].
  destruct (Ascii.eqb_spec c sep) as [->|Hne].
  - destruct (Metadata.split sep s) as [|h t] eqn:E;
      [now apply split_nonempty in E|].
    rewrite join_cons, IH. reflexivity.
  - destruct (Metadata.split sep s) as [|h t] eqn:E;
      [now apply split_nonempty in E|].
    destruct t as [|q t].
    + cbn in *. now rewrite IH.
    + rewrite join_cons in *. cbn [append] in *. now rewrite IH.
Qed.

Lemma split_no_char (sep : ascii) (s : string) :
  no_char sep s -> Metadata.split sep s = [s].
Proof.
  induction s as [|c s IH]; intros H; [reflexivity|].
  destruct H as (Hc & Hs). cbn [Metadata.split].
  destruct (Ascii.eqb_spec c sep) as [?|_]; [contradiction|].
  now rewrite IH.
Qed.

Lemma split_app (sep : ascii) (p : string) (s : string) :
  no_char sep p ->
  Metadata.split sep (p ++ String sep s) = p :: Metadata.split sep s.
Proof.
  induction p as [|c p IH]; intros H; cbn [append Metadata.split].
  - now rewrite Ascii.eqb_refl.
  - destruct H as (Hc & Hp).
    destruct (Ascii.eqb_spec c sep) as [?|_]; [contradiction|].
    now rewrite IH.
Qed.

Lemma split_join (sep : ascii) (parts : list string) :
  parts <> [] -> Forall (no_char sep) parts ->
  Metadata.split sep (Metadata.join (String sep "") parts) = parts.
Proof.
  induction parts as [|p parts IH]; intros Hne Hf; [contradiction|].
  inversion_clear Hf as [|? ? Hp Hps].
  destruct parts as [|q parts].
  - cbn. now apply split_no_char.
  - rewrite join_cons. cbn [append].
    rewrite split_app by assumption.
    now rewrite IH.
Qed.

Lemma split_parts_no_char (sep : ascii) (s : string) :
  Forall (no_char sep) (Metadata.split sep s).
Proof.
  induction s as [|c s IH]; cbn [Metadata.split].
  - repeat constructor.
  - destruct (Ascii.eqb_spec c sep) as [->|Hne].
    + constructor; [exact I | exact IH].
    + destruct (Metadata.split sep s) as [|h t]; [repeat constructor; auto|].
      inversion_clear IH. constructor; [now split | assumption].
Qed.

Lemma split_single (sep : ascii) (s p : string) :
  Metadata.split sep s = [p] -> no_char sep s.
Proof.
  revert p. induction s as [|c s IH]; intros p H; [exact I|].
  cbn [Metadata.split] in H.
  destruct (Ascii.eqb_spec c sep) as [->|Hne].
  - inversion H as [[Hp Ht]]. now apply split_nonempty in Ht.
  - destruct (Metadata.split sep s) as [|h t] eqn:E;
      [now apply split_nonempty in E|].
    inversion H; subst. split; [assumption | now apply (IH h)].
Qed.

Lemma replicate_no_char (sep c : ascii) (n : nat) :
  c <> sep -> no_char sep (Py.replicate n c).
Proof. intros H. induction n; cbn; [exact I | now split]. Qed.

Lemma no_char_app (sep : ascii) (a b : string) :
  no_char sep a -> no_char sep b -> no_char sep (a ++ b).
Proof.
  induction a as [|c a IH]; cbn; [tauto|]. intros (Hc & Ha) Hb.
  split; [assumption | now apply IH].
Qed.

Lemma rjust_no_char (sep c : ascii) (s : string) (w : Z) :
  c <> sep -> no_char sep s -> no_char sep (Py.rjust s w c).
Proof.
  intros Hc Hs. unfold Py.rjust.
  destruct (w <=? Z.of_nat (String.length s)); [assumption|].
  apply no_char_app; [now apply replicate_no_char | assumption].
Qed.

Lemma rjust_min_length (s : string) (w : Z) (c : ascii) :
  w <= Z.of_nat (String.length (Py.rjust s w c)).
Proof.
  unfold Py.rjust.
  destruct (Z.leb_spec w (Z.of_nat (String.length s))) as [H|H]; [exact H|].
  rewrite string_length_app, replicate_length. lia.
Qed.

Lemma rjust_idempotent (s : string) (w : Z) (c : ascii) :
  Py.rjust (Py.rjust s w c) w c = Py.rjust s w c.
Proof.
  pose proof (rjust_min_length s w c) as H.
  unfold Py.rjust at 1.
  destruct (Z.leb_spec w (Z.of_nat (String.length (Py.rjust s w c))));
    [reflexivity | lia].
Qed.

Lemma date_string_parts (cd d0 d1 : string) (rest : list string) :
  Metadata.split "/" cd = d0 :: d1 :: rest ->
  Metadata.date_string cd
  = Ok (Metadata.join "/" (Py.rjust d0 2 "0" :: Py.rjust d1 2 "0" :: rest)).
Proof. intros H. unfold Metadata.date_string. rewrite H. reflexivity. Qed.

(** X12. The date string of a Streetside panorama. A value without a
    slash is an [IndexError] (there is no day to pad), and only such a
    value is an error. Otherwise the result has the same slash-separated
    fields as the value, in the same order, except that the first two, month
    and day, are padded on the left with zeros to at least two characters;
    nothing else of the value is touched. *)
Theorem date_string_fields (cd : string) :
  (no_char "/" cd <-> Metadata.date_string cd = Err IndexError)
  /\ (forall e, Metadata.date_string cd = Err e -> e = IndexError)
  /\ (forall r,
        Metadata.date_string cd = Ok r ->
        exists d0 d1 rest,
          cd = Metadata.join "/" (d0 :: d1 :: rest)
          /\ Metadata.split "/" cd = d0 :: d1 :: rest
          /\ r = Metadata.join "/"
                   (Py.rjust d0 2 "0" :: Py.rjust d1 2 "0" :: rest)
          /\ Metadata.split "/" r
             = Py.rjust d0 2 "0" :: Py.rjust d1 2 "0" :: rest
          /\ (2 <= String.length (Py.rjust d0 2 "0"))%nat
          /\ (2 <= String.length (Py.rjust d1 2 "0"))%nat).
Proof.
  destruct (Metadata.split "/" cd) as [|d0 [|d1 rest]] eqn:E.
  - now apply split_nonempty in E.
  - assert (Herr : Metadata.date_string cd = Err IndexError).
    { unfold Metadata.date_string. rewrite E. reflexivity. }
    split; [|split].
    + split; [intros _; exact Herr | intros _; now apply (split_single _ _ d0)].
    + intros e He. congruence.
    + intros r Hr. congruence.
  - pose proof (date_string_parts cd d0 d1 rest E) as Hok.
    pose proof (split_parts_no_char "/" cd) as Hparts. rewrite E in Hparts.
    inversion_clear Hparts as [|? ? H0 Hparts'].
    inversion_clear Hparts' as [|? ? H1 Hrest].
    split; [|split].
    + split; [|intros H; congruence].
      intros Hn. rewrite (split_no_char _ _ Hn) in E. discriminate.
    + intros e He. congruence.
    + intros r Hr. exists d0, d1, rest.
      assert (r = Metadata.join "/"
                    (Py.rjust d0 2 "0" :: Py.rjust d1 2 "0" :: rest))
        as -> by congruence.
      split; [rewrite <- E; symmetry; apply (join_split "/")|].
      split; [reflexivity|]. split; [reflexivity|].
      split.
      { apply (split_join "/"); [discriminate|].
        repeat constructor;
          try (apply rjust_no_char; [discriminate | assumption]).
        assumption. }
      pose proof (rjust_min_length d0 2 "0").
      pose proof (rjust_min_length d1 2 "0"). lia.
Qed.

(** X13. Padding a date string is idempotent: a string that came out of
    [date_string] goes through it unchanged. *)
Theorem date_string_idempotent (cd r : string) :
  Metadata.date_string cd = Ok r -> Metadata.date_string r = Ok r.
Proof.
  intros H.
  destruct (Metadata.split "/" cd) as [|d0 [|d1 rest]] eqn:E.
  - now apply split_nonempty in E.
  - unfold Metadata.date_string in H. rewrite E in H. discriminate.
  - rewrite (date_string_parts cd d0 d1 rest E) in H.
    assert (r = Metadata.join "/"
                  (Py.rjust d0 2 "0" :: Py.rjust d1 2 "0" :: rest))
      as Hr by congruence.
    pose proof (split_parts_no_char "/" cd) as Hparts. rewrite E in Hparts.
    inversion_clear Hparts as [|? ? H0 Hparts'].
    inversion_clear Hparts' as [|? ? H1 Hrest].
    assert (Hs : Metadata.split "/" r
                 = Py.rjust d0 2 "0" :: Py.rjust d1 2 "0" :: rest).
    { rewrite Hr. apply (split_join "/"); [discriminate|].
      repeat constructor;
        try (apply rjust_no_char; [discriminate | assumption]).
      assumption. }
    rewrite (date_string_parts r _ _ _ Hs), !rjust_idempotent.
    now rewrite Hr.
Qed.

Lemma date_string_fields_witness :
  Metadata.date_string "12/25/2015 11:00:00 AM" = Ok "12/25/2015 11:00:00 AM"
  /\ exists d0 d1 rest,
       Metadata.split "/" "12/25/2015 11:00:00 AM" = d0 :: d1 :: rest.
Proof.
  split; [reflexivity|].
  destruct (proj2 (proj2 (date_string_fields "12/25/2015 11:00:00 AM"))
              "12/25/2015 11:00:00 AM" eq_refl)
    as (d0 & d1 & rest & _ & H & _).
  now exists d0, d1, rest.
Defined.

Lemma date_string_idempotent_witness :
  Metadata.date_string "5/7/2014 1:02:03 PM" = Ok "05/07/2014 1:02:03 PM"
  /\ Metadata.date_string "05/07/2014 1:02:03 PM"
     = Ok "05/07/2014 1:02:03 PM".
Proof.
  split; [reflexivity|].
  apply (date_string_idempotent "5/7/2014 1:02:03 PM"). reflexivity.
Defined.

(** ** What a request does before it fetches *)

Section BeforeFetch.

Variable World : Type.
Variable download_files_async : list string -> M World (list PIL.bytes).
Variable decodable : PIL.bytes -> bool.
Variable CubemapStitchingMethod : Type.
Variable Output : Type.
Variable stitch_cubemap_faces :
  list PIL.Image -> Z -> CubemapStitchingMethod -> result Output.
Variable Meta : Type.
Variable is_third_party_panoid : string -> bool.
Variable get_equirectangular_panorama :
  Z -> Z -> option Size.t -> list Tile.t -> M World PIL.Image.



End BeforeFetch.


